(** * w3c-extendedlog-parser: the push2pg / push2es commands

    A shallow embedding of the two command files of the repository
    (the PostgreSQL uploader with its pooled row buffer and value
    converter, and the Elasticsearch mapping builder and upload loop),
    followed by the properties of the specification that concern them.

    Conventions of the embedding:
    - a Go [string] is a Rocq [string] (a sequence of 8-bit characters);
    - a Go [int]/[int64] is a [Z], with the two's complement wrap-around
      written out by [int64] where the source does arithmetic;
    - a Go [error] is an [option error] ([None] is [nil]);
    - a run-time panic (failed type assertion, nil dereference, index
      out of range, negative [make]) is the [Panic] outcome;
    - a Go [map] is a [gmap]; a slice is a list, with its capacity kept
      aside where the source reads it ([Row]). *)

From Stdlib Require Import ZArith List String Ascii Lia Bool.
From stdpp Require Import base option list gmap strings.

Local Open Scope string_scope.
Local Open Scope Z_scope.

(** ** Errors and panics *)

(** The error values the two files build themselves, and the errors
    that come back from the collaborators (parser, pgx, uuid, os,
    elastic), which are only passed along. *)
Inductive error : Type :=
| ErrTooManyFields (max : Z)
    (* fmt.Errorf("too many fields (max %d)", cap( *r)) *)
| ErrWrongNbFields (line expected got : Z)
    (* fmt.Errorf("wrong number of fields (for line %d, expected %d, got %d)", ...) *)
| ErrNew (msg : string)
    (* errors.New(msg) *)
| ErrExternal (msg : string).
    (* an error returned by a collaborator *)

(** What a piece of Go code does: it returns, or it panics. *)
Inductive outcome (A : Type) : Type :=
| Ret (a : A)
| Panic.
Arguments Ret {A} a.
Arguments Panic {A}.

(** What a run of a command amounts to: it runs to its end, it is
    stopped by os.Exit, or it dies of a panic; [L] is what the command
    had written to the error stream until then (the trace that the Go
    runtime prints for a panic is not part of it), with, for push2es,
    what it had sent. *)
Inductive process (L : Type) : Type :=
| Completed (log : L)
| Exited (e : error) (log : L)
| Panicked (log : L).
Arguments Completed {L} log.
Arguments Exited {L} e log.
Arguments Panicked {L} log.

(** Modelled from the spec: the helper [fatal], which both commands
    call and which is declared in another file of the package.  The
    spec says of the errors passed to it that they "terminate the
    process immediately" (section 6) and that "fatal errors stop the
    whole run" (section 7); both commands also call it on results that
    may be nil, where it has to do nothing.  [None] is "go on", [Some e]
    is "the process stops on [e]". *)
Definition fatal (err : option error) : option error := err.

(** ** Machine integers *)

Definition int64 (x : Z) : Z := (x + 2 ^ 63) mod 2 ^ 64 - 2 ^ 63.

Definition in_int64 (x : Z) : Prop := - 2 ^ 63 <= x < 2 ^ 63.

Definition add64 (x y : Z) : Z := int64 (x + y).
Definition mul64 (x y : Z) : Z := int64 (x * y).
(** Go's integer division truncates towards zero. *)
Definition quo64 (x y : Z) : Z := int64 (Z.quot x y).

Definition byte_val (c : ascii) : Z := Z.of_N (N_of_ascii c).
Definition byte_chr (b : Z) : ascii := ascii_of_N (Z.to_N b).

(** ** Charset repair *)

Module Charset.

(** *** unicode/utf8.ValidString

    The standard library's validity check: [first] says, for a leading
    byte, how long the sequence is and which range the second byte must
    lie in ([None] is the table's [xx]); the remaining bytes are
    continuation bytes [locb..hicb]. *)

Definition RuneSelf : Z := 0x80.
Definition locb : Z := 0x80.
Definition hicb : Z := 0xBF.

Definition first (b : Z) : option (nat * Z * Z) :=
  if (0xC2 <=? b) && (b <=? 0xDF) then Some (2%nat, locb, hicb)
  else if b =? 0xE0 then Some (3%nat, 0xA0, hicb)
  else if (0xE1 <=? b) && (b <=? 0xEC) then Some (3%nat, locb, hicb)
  else if b =? 0xED then Some (3%nat, locb, 0x9F)
  else if (0xEE <=? b) && (b <=? 0xEF) then Some (3%nat, locb, hicb)
  else if b =? 0xF0 then Some (4%nat, 0x90, hicb)
  else if (0xF1 <=? b) && (b <=? 0xF3) then Some (4%nat, locb, hicb)
  else if b =? 0xF4 then Some (4%nat, locb, 0x8F)
  else None.

Definition between (lo hi : Z) (c : ascii) : bool :=
  (lo <=? byte_val c) && (byte_val c <=? hi).

Fixpoint ValidString (s : string) : bool :=
  match s with
  | EmptyString => true
  | String c0 r =>
      if byte_val c0 <? RuneSelf then ValidString r
      else
        match first (byte_val c0) with
        | None => false
        | Some (size, lo, hi) =>
            match r with
            | EmptyString => false
            | String c1 r1 =>
                if negb (between lo hi c1) then false
                else if Nat.eqb size 2 then ValidString r1
                else
                  match r1 with
                  | EmptyString => false
                  | String c2 r2 =>
                      if negb (between locb hicb c2) then false
                      else if Nat.eqb size 3 then ValidString r2
                      else
                        match r2 with
                        | EmptyString => false
                        | String c3 r3 =>
                            if negb (between locb hicb c3) then false
                            else ValidString r3
                        end
                  end
            end
        end
  end.

(** *** unicode/utf8 encoding of a rune *)

Definition str1 (a : Z) : string := String (byte_chr a) EmptyString.

Definition EncodeRune (r : Z) : string :=
  if (0 <=? r) && (r <? 0x80) then str1 r
  else if (0 <=? r) && (r <? 0x800) then
    str1 (Z.lor 0xC0 (Z.shiftr r 6)) ++ str1 (Z.lor 0x80 (Z.land r 0x3F))
  else if (r <? 0) || (0x10FFFF <? r) || ((0xD800 <=? r) && (r <=? 0xDFFF)) then
    str1 0xEF ++ str1 0xBF ++ str1 0xBD
  else if r <? 0x10000 then
    str1 (Z.lor 0xE0 (Z.shiftr r 12))
      ++ str1 (Z.lor 0x80 (Z.land (Z.shiftr r 6) 0x3F))
      ++ str1 (Z.lor 0x80 (Z.land r 0x3F))
  else
    str1 (Z.lor 0xF0 (Z.shiftr r 18))
      ++ str1 (Z.lor 0x80 (Z.land (Z.shiftr r 12) 0x3F))
      ++ str1 (Z.lor 0x80 (Z.land (Z.shiftr r 6) 0x3F))
      ++ str1 (Z.lor 0x80 (Z.land r 0x3F)).

(** *** charmap.ISO8859_15.NewDecoder()

    ISO 8859-15 (Latin-9) is Latin-1 with eight replacements.  The
    table of golang.org/x/text departs from it on the control range:
    the bytes 0x80..0x9F decode to U+FFFD, the replacement character,
    and not to the C1 controls.  The decoder copies ASCII bytes and
    replaces every other byte by the UTF-8 encoding of its table
    entry; its only error is the short-destination one that [String]
    resolves by growing the buffer, so [String] returns a nil error on
    every input. *)

Definition RuneError : Z := 0xFFFD.

Definition iso8859_15_rune (b : Z) : Z :=
  if (0x80 <=? b) && (b <? 0xA0) then RuneError
  else if b =? 0xA4 then 0x20AC (* euro sign *)
  else if b =? 0xA6 then 0x0160 (* S caron *)
  else if b =? 0xA8 then 0x0161 (* s caron *)
  else if b =? 0xB4 then 0x017D (* Z caron *)
  else if b =? 0xB8 then 0x017E (* z caron *)
  else if b =? 0xBC then 0x0152 (* OE *)
  else if b =? 0xBD then 0x0153 (* oe *)
  else if b =? 0xBE then 0x0178 (* Y diaeresis *)
  else b.

Fixpoint iso_transform (s : string) : string :=
  match s with
  | EmptyString => EmptyString
  | String c r =>
      if byte_val c <? RuneSelf then String c (iso_transform r)
      else EncodeRune (iso8859_15_rune (byte_val c)) ++ iso_transform r
  end.

Definition isoDecoder_String (s : string) : string * option error :=
  (iso_transform s, None).

Section Repair.

(** github.com/mozillazg/go-unidecode: the transliteration tables are
    not part of the repository; the function is a parameter. *)
Variable Unidecode : string -> string.

Definition decodeCharset (s : string) : string :=
  if ValidString s then s
  else
    match isoDecoder_String s with
    | (utf, None) => utf
    | (_, Some _) => Unidecode s
    end.

End Repair.

End Charset.

(** ** Values *)

(** parser.Kind, the type guess of a field.  The declaration lives in
    the parser package; the constructors are the nine constants the two
    files switch on, in the order of those switches. *)
Inductive Kind : Type :=
| MyDate | MyIP | MyTime | MyTimestamp | MyURI | Float64 | Int64 | Bool | String_.

(** parser.Date and parser.Time: plain records of Go [int]s. *)
Record Date : Type := { Year : Z; Month : Z; Day : Z }.
Record Time : Type := { Hour : Z; Minute : Z; Second : Z; Nanosecond : Z }.

(** time.Time as the instant it denotes: seconds since January 1 of
    year 1, 00:00:00 UTC, and nanoseconds within the second. *)
Record GoTime : Type := { sec : Z; nsec : Z }.

Definition GoTime_IsZero (t : GoTime) : bool := (sec t =? 0) && (nsec t =? 0).

(** A float64 is carried as its IEEE 754 bit pattern: the code only
    passes it along. *)
Definition float64 : Type := Z.

(** pgtype's status word and the pgtype structs the converter builds. *)
Inductive Status : Type := Undefined | Null | Present.

Record pgtype_Date : Type := { Date_Time : GoTime; Date_Status : Status }.
(** [IPNet] is a pointer to a net.IPNet: the address and its mask,
    which is a nil slice when net.CIDRMask refuses the length. *)
Record pgtype_Inet : Type := {
  Inet_IPNet : option (string * option (list Z));
  Inet_Status : Status
}.
Record pgtype_Timestamptz : Type := { Tz_Time : GoTime; Tz_Status : Status }.
Record pgtype_Float8 : Type := { Float8_Float : float64; Float8_Status : Status }.
Record pgtype_Int8 : Type := { Int8_Int : Z; Int8_Status : Status }.
Record pgtype_Bool : Type := { Bool_Bool : bool; Bool_Status : Status }.

Definition zeroTime : GoTime := {| sec := 0; nsec := 0 |}.

(** The dynamic values that travel as [interface{}] in the two files:
    what the parser hands out, and what the converter hands to pgx.
    [VNil] is the nil interface; [VMyMyTime None] is a nil pointer of
    type *MyMyTime, which is not the nil interface. *)
Inductive value : Type :=
| VNil
| VParserDate (d : Date)                (* parser.Date *)
| VParserTime (t : Time)                (* parser.Time *)
| VTime (t : GoTime)                    (* time.Time *)
| VTimeDate (year month day : Z)        (* time.Date(year, month, day, 0, 0, 0, 0, time.UTC) *)
| VIP (ip : string)                     (* net.IP *)
| VString (s : string)
| VFloat64 (f : float64)
| VInt64 (i : Z)
| VBool (b : bool)
| VBytes (b : list Z)                   (* []byte *)
| VPgDate (d : pgtype_Date)             (* *pgtype.Date *)
| VPgInet (i : pgtype_Inet)             (* *pgtype.Inet *)
| VMyMyTime (p : option Time)           (* *MyMyTime *)
| VPgTimestamptz (t : pgtype_Timestamptz)
| VPgFloat8 (f : pgtype_Float8)
| VPgInt8 (i : pgtype_Int8)
| VPgBool (b : pgtype_Bool).

(** ** The value converter *)

Module Conv.

Definition usecsPerHour : Z := 3600000000.
Definition usecsPerMinute : Z := 60000000.
Definition usecsPerSec : Z := 1000000.
Definition nanosecsPerUsec : Z := 1000.

(** pgio.AppendInt64: the eight bytes of the value, most significant
    first, after the buffer. *)
Definition uint64 (n : Z) : Z := n mod 2 ^ 64.

Definition byte_at (n : Z) (k : Z) : Z := Z.land (Z.shiftr n (8 * k)) 0xFF.

Definition AppendUint64 (buf : list Z) (n : Z) : list Z :=
  buf ++ [byte_at n 7; byte_at n 6; byte_at n 5; byte_at n 4;
          byte_at n 3; byte_at n 2; byte_at n 1; byte_at n 0].

Definition AppendInt64 (buf : list Z) (n : Z) : list Z :=
  AppendUint64 buf (uint64 n).

(** The reading of a big-endian byte sequence as an unsigned number,
    used to say what [AppendInt64] wrote. *)
Definition be_value (bs : list Z) : Z :=
  fold_left (fun acc b => acc * 256 + b) bs 0.

(** ( *MyMyTime).EncodeBinary; the result slice is [None] when nil. *)
Definition EncodeBinary (src : option Time) (buf : list Z)
  : option (list Z) * option error :=
  match src with
  | None => (None, None)
  | Some t =>
      (Some (AppendInt64 buf
               (add64
                  (add64
                     (add64 (mul64 (int64 (Hour t)) usecsPerHour)
                            (mul64 (int64 (Minute t)) usecsPerMinute))
                     (mul64 (int64 (Second t)) usecsPerSec))
                  (quo64 (int64 (Nanosecond t)) nanosecsPerUsec))),
       None)
  end.

Definition pgDefaultVal (t : Kind) : value :=
  match t with
  | MyDate => VPgDate {| Date_Time := zeroTime; Date_Status := Null |}
  | MyIP => VPgInet {| Inet_IPNet := None; Inet_Status := Null |}
  | MyTime => VMyMyTime None
  | MyTimestamp => VPgTimestamptz {| Tz_Time := zeroTime; Tz_Status := Null |}
  | MyURI => VString ""
  | Float64 => VPgFloat8 {| Float8_Float := 0; Float8_Status := Null |}
  | Int64 => VPgInt8 {| Int8_Int := 0; Int8_Status := Null |}
  | Bool => VPgBool {| Bool_Bool := false; Bool_Status := Null |}
  | String_ => VString ""
  end.

(** net.CIDRMask(ones, bits): a mask of [bits / 8] bytes whose first
    [ones] bits are set; nil unless [bits] is 32 or 128 and
    [0 <= ones <= bits]. *)
Fixpoint mask_bytes (l : nat) (n : Z) : list Z :=
  match l with
  | O => []
  | S l' =>
      if n >=? 8 then 0xFF :: mask_bytes l' (n - 8)
      else Z.lnot (Z.shiftr 0xFF n) mod 256 :: mask_bytes l' 0
  end.

Definition CIDRMask (ones bits : Z) : option (list Z) :=
  if negb ((bits =? 32) || (bits =? 128)) then None
  else if (ones <? 0) || (bits <? ones) then None
  else Some (mask_bytes (Z.to_nat (bits / 8)) ones).

(** ( *pgtype.Inet).Set on a net.IP: the address with the mask
    [net.CIDRMask(len(ip)*8, len(ip)*8)], which is the full mask for an
    address of 4 or of 16 bytes and nil for any other length. *)
Definition Inet_Set (ip : string) : pgtype_Inet :=
  let bitCount := Z.of_nat (String.length ip) * 8 in
  {| Inet_IPNet := Some (ip, CIDRMask bitCount bitCount);
     Inet_Status := Present |}.

Section Convert.

(** The IsZero methods of parser.Date and parser.Time belong to the
    parser package, and the transliteration to go-unidecode. *)
Variable Date_IsZero : Date -> bool.
Variable Time_IsZero : Time -> bool.
Variable Unidecode : string -> string.

(** A type assertion [value.(T)] panics when the dynamic type is not
    [T]. *)
Definition pgConvert (t : Kind) (v : value) : outcome value :=
  match v with
  | VNil => Ret (pgDefaultVal t)
  | _ =>
      match t with
      | MyDate =>
          match v with
          | VParserDate d =>
              if Date_IsZero d then Ret (pgDefaultVal t)
              else Ret (VTimeDate (Year d) (Month d) (Day d))
          | _ => Panic
          end
      | MyIP =>
          match v with
          | VIP ip => Ret (VPgInet (Inet_Set ip))
          | _ => Panic
          end
      | MyTime =>
          match v with
          | VParserTime x =>
              if Time_IsZero x then Ret (pgDefaultVal t)
              else Ret (VMyMyTime (Some x))
          | _ => Panic
          end
      | MyTimestamp =>
          match v with
          | VTime x =>
              if GoTime_IsZero x then Ret (pgDefaultVal t)
              else Ret (VPgTimestamptz {| Tz_Time := x; Tz_Status := Present |})
          | _ => Panic
          end
      | MyURI =>
          match v with
          | VString s => Ret (VString (Charset.decodeCharset Unidecode s))
          | _ => Panic
          end
      | Float64 =>
          match v with
          | VFloat64 f => Ret (VFloat64 f)
          | _ => Panic
          end
      | Int64 =>
          match v with
          | VInt64 i => Ret (VInt64 i)
          | _ => Panic
          end
      | Bool =>
          match v with
          | VBool b => Ret (VBool b)
          | _ => Panic
          end
      | String_ =>
          match v with
          | VString s => Ret (VString (Charset.decodeCharset Unidecode s))
          | _ => Panic
          end
      end
  end.

End Convert.

End Conv.

(** ** The pooled row buffer *)

Module Buffer.

(** A Row is a slice of [interface{}]: its elements and its capacity. *)
Record Row : Type := { fields : list value; rcap : nat }.

(** ( *Row).AddField, on the row the pointer designates. *)
Definition AddField (r : Row) (field : value) : Row * option error :=
  if (length (fields r) <? rcap r)%nat
  then ({| fields := fields r ++ [field]; rcap := rcap r |}, None)
  else (r, Some (ErrTooManyFields (Z.of_nat (rcap r)))).

(** The batch.  [pool] is what the sync.Pool currently holds; [rows]
    lists the rows the batch points to, in order.  A [*Row] handed out
    by [GetRow] is the same pointer as the one stored in the batch: it
    is modelled by its position in [rows]. *)
Record Rows : Type := {
  pool : list Row;
  maxSize : Z;
  nbFields : Z;
  rows : list Row
}.

Definition set_rows (r : Rows) (l : list Row) : Rows :=
  {| pool := pool r; maxSize := maxSize r; nbFields := nbFields r; rows := l |}.
Definition set_pool (r : Rows) (p : list Row) : Rows :=
  {| pool := p; maxSize := maxSize r; nbFields := nbFields r; rows := rows r |}.

(** [make] panics on a negative capacity. *)
Definition pool_New (nb : Z) : outcome Row :=
  if nb <? 0 then Panic else Ret {| fields := []; rcap := Z.to_nat nb |}.

Definition RowFactory (maxSize nbFields : Z) : outcome Rows :=
  if maxSize <? 0 then Panic
  else Ret {| pool := []; maxSize := maxSize; nbFields := nbFields; rows := [] |}.

(** sync.Pool.Get hands out one of the rows the pool holds, or a new
    one made by [New] when it holds none.  sync.Pool promises nothing
    about what it holds: a row put back may be dropped at any time
    (constructor [batch_pool_drop] below), so whether Get reuses a row
    is not determined by the program.  [pool] lists what the pool
    holds at the moment of the call and Get takes the first of them;
    the choice cannot be observed, since GetRow cuts the row to length
    0 and every row that reaches the pool has the capacity
    [nbFields]. *)
Definition pool_Get (r : Rows) : outcome (Row * list Row) :=
  match pool r with
  | x :: p => Ret (x, p)
  | [] =>
      match pool_New (nbFields r) with
      | Ret x => Ret (x, [])
      | Panic => Panic
      end
  end.

(** [row[:0]] *)
Definition reslice0 (row : Row) : Row := {| fields := []; rcap := rcap row |}.

Definition GetRow (r : Rows) : outcome (Rows * option nat * bool) :=
  if Z.of_nat (length (rows r)) <? maxSize r then
    match pool_Get r with
    | Panic => Panic
    | Ret (row, p) =>
        let row := reslice0 row in
        Ret (set_pool (set_rows r (rows r ++ [row])) p,
             Some (length (rows r)), false)
    end
  else Ret (r, None, true).

(** The cursor: the batch it reads and its position.  The cursor
    holds a pointer to the batch; the batch does not change while the
    cursor is read, and the cursor is dropped before Clear, so the
    batch itself stands for the pointer. *)
Record Source : Type := { src_r : Rows; idx : Z }.

Fixpoint check_rows (nb : Z) (i : Z) (l : list Row) : option error :=
  match l with
  | [] => None
  | row :: l' =>
      if negb (Z.of_nat (length (fields row)) =? nb)
      then Some (ErrWrongNbFields i nb (Z.of_nat (length (fields row))))
      else check_rows nb (i + 1) l'
  end.

(** The pair returned by GetSource has a cursor or an error, never
    both: [inl] is the error, [inr] the cursor [&Source{r: r}]. *)
Definition GetSource (r : Rows) : error + Source :=
  match check_rows (nbFields r) 0 (rows r) with
  | Some e => inl e
  | None => inr {| src_r := r; idx := 0 |}
  end.

(** Every row goes back to the pool, then the batch is cut to length 0. *)
Definition Clear (r : Rows) : Rows :=
  set_rows (set_pool r (fold_left (fun p row => row :: p) (rows r) (pool r))) [].

Definition Len (r : Rows) : Z := Z.of_nat (length (rows r)).

Definition Source_Next (s : Source) : Source * bool :=
  let s' := {| src_r := src_r s; idx := idx s + 1 |} in
  (s', idx s' <? Len (src_r s')).

Definition Source_Values (s : Source) : outcome (list value * option error) :=
  if idx s <? 0 then Panic
  else
    match rows (src_r s) !! Z.to_nat (idx s) with
    | Some row => Ret (fields row, None)
    | None => Panic
    end.

Definition Source_Err (s : Source) : option error := None.

End Buffer.

(** ** Uploading one file to PostgreSQL *)

Module Upload.
Import Buffer.

(** [line.Get(name)] *)
Definition Line : Type := string -> value.

(** What the parser does on one file: the result of ParseHeader, the
    header's field names, and the lines NextTo delivers before it
    returns a nil line or an error (either one only ends the loop). *)
Record Parser : Type := {
  ParseHeader : option error;
  FieldNames : list string;
  HasGmtTime : bool;
  Lines : list Line
}.

(** What the other collaborators answer during one upload: the
    connection pool, the [k]-th call of uuid.NewV1, the [k]-th call of
    conn.CopyFrom, and conn.Exec("VACUUM;"). *)
Record Sink : Type := {
  Acquire : option error;
  NewV1 : nat -> list Z * option error;
  CopyFrom_err : nat -> option error;
  Exec_VACUUM : option error
}.

(** One call of conn.CopyFrom as the server sees it. *)
Record CopyCall : Type := {
  cc_table : string;
  cc_columns : list string;
  cc_rows : list (list value);
  cc_err : option error
}.

(** Lines written to os.Stderr.  The elapsed time and the throughput
    of the success line are wall-clock measurements and are left out. *)
Inductive log_line : Type :=
| LogErrOpening (fname : string) (e : error)
| LogUploading (fname : string)
| LogErrBuildingParser (e : error)
| LogSuccess (fname : string) (nbLines : Z)
| LogErrUploading (fname : string) (e : error).

Record State : Type := {
  factory : Rows;
  nbLines : Z;
  uuids : nat;
  copies : list CopyCall;
  stderr : list log_line
}.

(** The return statements of uploadPG, in source order. *)
Inductive site : Type :=
| AtHeader | AtAcquire | AtFlush | AtIdGen | AtAddField | AtTrailingFlush | AtEnd.

(** A step of uploadPG goes on with a value, executes one of the
    return statements, or panics. *)
Inductive res (A : Type) : Type :=
| Cont (a : A) (st : State)
| Return (at_ : site) (n : Z) (err : option error) (st : State)
| Crash.
Arguments Cont {A} a st.
Arguments Return {A} at_ n err st.
Arguments Crash {A}.

Definition M (A : Type) : Type := State -> res A.

Definition ret {A} (a : A) : M A := fun st => Cont a st.

Definition bind {A B} (m : M A) (k : A -> M B) : M B :=
  fun st =>
    match m st with
    | Cont a st' => k a st'
    | Return s n e st' => Return s n e st'
    | Crash => Crash
    end.

Notation "'let*' x := m 'in' k" := (bind m (fun x => k))
  (at level 10, x pattern, m at level 100, k at level 200).
Notation "'do*' m 'in' k" := (bind m (fun _ => k))
  (at level 10, m at level 100, k at level 200).

Definition get : M State := fun st => Cont st st.
Definition modify (f : State -> State) : M unit := fun st => Cont tt (f st).
Definition return_ {A} (s : site) (n : Z) (e : option error) : M A :=
  fun st => Return s n e st.
Definition lift {A} (o : outcome A) : M A :=
  fun st => match o with Ret a => Cont a st | Panic => Crash end.

Definition set_factory (f : Rows) (st : State) : State :=
  {| factory := f; nbLines := nbLines st; uuids := uuids st;
     copies := copies st; stderr := stderr st |}.
Definition set_nbLines (n : Z) (st : State) : State :=
  {| factory := factory st; nbLines := n; uuids := uuids st;
     copies := copies st; stderr := stderr st |}.
Definition set_uuids (n : nat) (st : State) : State :=
  {| factory := factory st; nbLines := nbLines st; uuids := n;
     copies := copies st; stderr := stderr st |}.
Definition add_copy (c : CopyCall) (st : State) : State :=
  {| factory := factory st; nbLines := nbLines st; uuids := uuids st;
     copies := copies st ++ [c]; stderr := stderr st |}.
Definition add_stderr (l : log_line) (st : State) : State :=
  {| factory := factory st; nbLines := nbLines st; uuids := uuids st;
     copies := copies st; stderr := stderr st ++ [l] |}.

(** *** pgx's side of CopyFrom

    CopyFrom, a method of pgx.Conn, reads its CopyFromSource with the loop
    [for src.Next() { values, err := src.Values(); ... }]: Next is
    called before every Values, the first one included.  The loop is
    run with fuel; [None] is "out of fuel", which the fuel given by
    [pgx_stream] excludes (lemma [drain_fuel]). *)
Fixpoint drain (fuel : nat) (s : Source) (acc : list (list value))
  : option (outcome (list (list value))) :=
  match fuel with
  | O => None
  | S fuel' =>
      let '(s', more) := Source_Next s in
      if more then
        match Source_Values s' with
        | Panic => Some Panic
        | Ret (vals, _) => drain fuel' s' (acc ++ [vals])
        end
      else Some (Ret acc)
  end.

Definition pgx_stream (s : Source) : outcome (list (list value)) :=
  match drain (S (length (rows (src_r s)))) s [] with
  | Some o => o
  | None => Panic
  end.

Section UploadPG.

Variable Date_IsZero : Date -> bool.
Variable Time_IsZero : Time -> bool.
Variable Unidecode : string -> string.
(** parser.GuessType, and the helper pgKey and the flag variable
    tableName, which are declared in other files of the package. *)
Variable GuessType : string -> Kind.
Variable pgKey : string -> string.
Variable tableName : string.

Variable p : Parser.
Variable c : Sink.

Section Loop.

Variable curFieldNames : list string.
Variable columnNames : list string.
Variable types : gmap string Kind.

(** [types[name]]; a missing key reads as the zero Kind. *)
Definition types_at (name : string) : Kind := default MyDate (types !! name).

Definition conn_CopyFrom (s : Source) : M (option error) :=
  let* sent := lift (pgx_stream s) in
  let* st := get in
  let err := CopyFrom_err c (length (copies st)) in
  do* modify (add_copy {| cc_table := tableName; cc_columns := columnNames;
                          cc_rows := sent; cc_err := err |}) in
  ret err.

Definition uploadRows : M (option error) :=
  let* st := get in
  if Len (factory st) =? 0 then ret None
  else
    match GetSource (factory st) with
    | inl e => ret (Some e)
    | inr s =>
        let* err := conn_CopyFrom s in
        match err with
        | Some e => ret (Some e)
        | None =>
            do* modify (fun st => set_factory (Clear (factory st)) st) in
            ret None
        end
    end.

Definition factory_GetRow : M (option nat * bool) :=
  let* st := get in
  let* (f, row, full) := lift (GetRow (factory st)) in
  do* modify (set_factory f) in
  ret (row, full).

(** [row.AddField(v)] through the pointer [row]; a nil pointer cannot
    be dereferenced. *)
Definition row_AddField (row : option nat) (v : value) : M (option error) :=
  match row with
  | None => lift Panic
  | Some i =>
      let* st := get in
      match rows (factory st) !! i with
      | None => lift Panic
      | Some r =>
          let '(r', err) := AddField r v in
          do* modify (set_factory (set_rows (factory st) (<[i := r']> (rows (factory st))))) in
          ret err
      end
  end.

Definition uuid_NewV1 : M (list Z * option error) :=
  let* st := get in
  do* modify (set_uuids (S (uuids st))) in
  ret (NewV1 c (uuids st)).

Definition addField (name : string) (row : option nat) (line : Line) : M unit :=
  if String.eqb name "id" then
    let* (uuid, err) := uuid_NewV1 in
    match err with
    | Some e => return_ AtIdGen 0 (Some e)
    | None =>
        let* err := row_AddField row (VBytes uuid) in
        match err with
        | Some e => return_ AtAddField 0 (Some e)
        | None => ret tt
        end
    end
  else
    let* v := lift (Conv.pgConvert Date_IsZero Time_IsZero Unidecode
                      (types_at name) (line name)) in
    let* err := row_AddField row v in
    match err with
    | Some e => return_ AtAddField 0 (Some e)
    | None => ret tt
    end.

Fixpoint addFields (names : list string) (row : option nat) (line : Line) : M unit :=
  match names with
  | [] => ret tt
  | name :: names' => do* addField name row line in addFields names' row line
  end.

Definition perLine (line : Line) : M unit :=
  let* (row, full) := factory_GetRow in
  let* row :=
    (if full : bool then
       let* err := uploadRows in
       match err with
       | Some e => return_ AtFlush 0 (Some e)
       | None => let* x := factory_GetRow in ret (fst x)
       end
     else ret row) in
  do* modify (fun st => set_nbLines (add64 (nbLines st) 1) st) in
  addFields curFieldNames row line.

Fixpoint forLines (lines : list Line) : M unit :=
  match lines with
  | [] => ret tt
  | line :: lines' => do* perLine line in forLines lines'
  end.

End Loop.

Definition init_state (f : Rows) (log : list log_line) : State :=
  {| factory := f; nbLines := 0; uuids := O; copies := []; stderr := log |}.

Definition no_factory : Rows :=
  {| pool := []; maxSize := 0; nbFields := 0; rows := [] |}.

(** What a call of uploadPG amounts to: the return statement executed
    with its two results and the final state, or a panic. *)
Inductive result : Type :=
| Returned (at_ : site) (n : Z) (err : option error) (st : State)
| Crashed.

Definition uploadPG (bsize : Z) : result :=
  match ParseHeader p with
  | Some e =>
      Returned AtHeader 0 (Some e) (init_state no_factory [LogErrBuildingParser e])
  | None =>
      let curFieldNames := FieldNames p in
      let curFieldNames :=
        if negb (HasGmtTime p) then "gmttime" :: curFieldNames else curFieldNames in
      let curFieldNames := "id" :: curFieldNames in
      let nbFields := Z.of_nat (length curFieldNames) in
      let columnNames := map pgKey curFieldNames in
      let types :=
        fold_left (fun m name => <[name := GuessType name]> m) curFieldNames
                  (∅ : gmap string Kind) in
      match Acquire c with
      | Some e => Returned AtAcquire 0 (Some e) (init_state no_factory [])
      | None =>
          match RowFactory bsize nbFields with
          | Panic => Crashed
          | Ret factory =>
              let body :=
                do* forLines curFieldNames columnNames types (Lines p) in
                let* err := uploadRows columnNames in
                match err with
                | Some e => return_ AtTrailingFlush 0 (Some e)
                | None => ret tt
                end in
              match body (init_state factory []) with
              | Cont _ st => Returned AtEnd (nbLines st) (Exec_VACUUM c) st
              | Return s n e st => Returned s n e st
              | Crash => Crashed
              end
          end
      end
  end.

End UploadPG.

(** *** One file, one worker, the command *)

(** A file name with what the collaborators do while it is processed:
    os.Open, the parser and the sink. *)
Record FileEnv : Type := {
  fname : string;
  Open : option error;
  parser_ : Parser;
  sink_ : Sink
}.

Section Files.

Variable Date_IsZero : Date -> bool.
Variable Time_IsZero : Time -> bool.
Variable Unidecode : string -> string.
Variable GuessType : string -> Kind.
Variable pgKey : string -> string.
Variable tableName : string.
(** strings.TrimSpace *)
Variable TrimSpace : string -> string.

Definition uploadFilePG (f : FileEnv) (bsize : Z) : outcome (list log_line) :=
  let fname := TrimSpace (fname f) in
  match Open f with
  | Some err => Ret [LogErrOpening fname err]
  | None =>
      match uploadPG Date_IsZero Time_IsZero Unidecode GuessType pgKey tableName
                     (parser_ f) (sink_ f) bsize with
      | Crashed => Panic
      | Returned _ nbLines err st =>
          Ret ([LogUploading fname] ++ stderr st ++
               [match err with
                | None => LogSuccess fname nbLines
                | Some e => LogErrUploading fname e
                end])%list
      end
  end.

(** The loop of one injector goroutine of uploadFilesPG over the file
    names it receives from the channel.  With the default of one
    injector these are all the names in order; with more injectors each
    one runs this loop on its share, and how the shares are dealt is
    not modelled.  A panic in a goroutine ends the whole process;
    uploadFilePG can only panic inside uploadPG, after it has written
    its "Uploading:" line, and uploadPG writes nothing before it
    panics. *)
Fixpoint injector (fnames : list FileEnv) (bsize : Z) (log : list log_line)
  : process (list log_line) :=
  match fnames with
  | [] => Completed log
  | f :: fnames' =>
      match uploadFilePG f bsize with
      | Panic => Panicked (log ++ [LogUploading (TrimSpace (fname f))])%list
      | Ret lines => injector fnames' bsize (log ++ lines)
      end
  end.

Definition uploadFilesPG (fnames : list FileEnv) (bsize : Z) : process (list log_line) :=
  injector fnames bsize [].

(** The flags of push2pg and what pgx answers before any file is
    touched.  [parallel] only sets the number of injectors and the
    size of the connection pool. *)
Record ConfigPG : Type := {
  parallel : Z;
  batchsize : Z;
  filenames : list FileEnv;
  dbURI : string;
  ParseConnectionString : option error;
  NewConnPool : option error
}.

Definition push2pgCmd (cfg : ConfigPG) : process (list log_line) :=
  let batchsize := if batchsize cfg =? 0 then 5000 else batchsize cfg in
  match fatal (if (length (filenames cfg) =? 0)%nat
               then Some (ErrNew "specify the files to be parsed") else None) with
  | Some e => Exited e []
  | None =>
      let dbURI := TrimSpace (dbURI cfg) in
      match fatal (if (String.length dbURI =? 0)%nat
                   then Some (ErrNew "Empty uri") else None) with
      | Some e => Exited e []
      | None =>
          match fatal (ParseConnectionString cfg) with
          | Some e => Exited e []
          | None =>
              match fatal (NewConnPool cfg) with
              | Some e => Exited e []
              | None => uploadFilesPG (filenames cfg) batchsize
              end
          end
      end
  end.

End Files.

End Upload.

(** ** Elasticsearch: the mapping and the upload loop *)

Module ES.

Record doubleEsField : Type := { double_Typ : string; double_Store : bool }.
Record boolEsField : Type := { bool_Typ : string; bool_Store : bool }.
Record ipEsField : Type := { ip_Typ : string; ip_Store : bool }.
Record longEsField : Type := { long_Typ : string; long_Store : bool }.
Record rawRawEsField : Type := { rawraw_Typ : string }.
Record rawEsField : Type := { Raw : rawRawEsField }.
Record strMultiEsField : Type := {
  multi_Typ : string; multi_Store : bool; multi_Fields : rawEsField; multi_Copy : string
}.
Record strEsField : Type := { str_Typ : string; str_Store : bool; str_Copy : string }.
Record dateEsField : Type := { date_Typ : string; date_Format : string; date_Store : bool }.
Record timeEsField : Type := { time_Typ : string; time_Format : string; time_Store : bool }.
Record datetimeEsField : Type := {
  datetime_Typ : string; datetime_Format : string; datetime_Store : bool
}.

(** anyEsField is [interface{}]: one of the descriptor structs. *)
Inductive anyEsField : Type :=
| EsDouble (f : doubleEsField)
| EsBool (f : boolEsField)
| EsIP (f : ipEsField)
| EsLong (f : longEsField)
| EsMulti (f : strMultiEsField)
| EsStr (f : strEsField)
| EsDate (f : dateEsField)
| EsTime (f : timeEsField)
| EsDatetime (f : datetimeEsField).

Definition newDoubleField : doubleEsField := {| double_Typ := "double"; double_Store := true |}.
Definition newBoolField : boolEsField := {| bool_Typ := "boolean"; bool_Store := true |}.
Definition newIPField : ipEsField := {| ip_Typ := "ip"; ip_Store := true |}.
Definition newLongField : longEsField := {| long_Typ := "long"; long_Store := true |}.

Definition newMulti : strMultiEsField :=
  {| multi_Typ := "text"; multi_Store := true;
     multi_Fields := {| Raw := {| rawraw_Typ := "keyword" |} |};
     multi_Copy := "fulltext" |}.

Definition newKeyword (copyfull : bool) : strEsField :=
  {| str_Typ := "keyword"; str_Store := true;
     str_Copy := if copyfull then "fulltext" else "" |}.

Definition newTextField (copyfull : bool) : strEsField :=
  {| str_Typ := "text"; str_Store := true;
     str_Copy := if copyfull then "fulltext" else "" |}.

Definition newDateField : dateEsField :=
  {| date_Typ := "date"; date_Format := "strict_date"; date_Store := true |}.

Definition newTimeField : timeEsField :=
  {| time_Typ := "date";
     time_Format := "strict_time_no_millis||strict_time||strict_hour_minute_second||strict_hour_minute_second_fraction";
     time_Store := true |}.

Definition newDatetimeField : datetimeEsField :=
  {| datetime_Typ := "date";
     datetime_Format := "strict_date_time_no_millis||strict_date_time";
     datetime_Store := true |}.

Section Mapping.

(** strings.ToLower and parser.GuessType *)
Variable ToLower : string -> string.
Variable GuessType : string -> Kind.

(** [excludes[key]]: a missing key reads as false. *)
Definition excluded (excludes : gmap string bool) (key : string) : bool :=
  default false (excludes !! key).

(** One turn of the loop over the field names. *)
Definition addField (excludes : gmap string bool)
    (fields : gmap string anyEsField) (name : string) : gmap string anyEsField :=
  if excluded excludes (ToLower name) then fields
  else if String.eqb name "cs(user-agent)" then <[name := EsStr (newTextField true)]> fields
  else if String.eqb name "cs-host" then <[name := EsMulti newMulti]> fields
  else if String.eqb name "cs-uri-path" then <[name := EsMulti newMulti]> fields
  else if String.eqb name "cs-uri-query" then <[name := EsMulti newMulti]> fields
  else
    match GuessType name with
    | MyDate => <[name := EsDate newDateField]> fields
    | MyIP => <[name := EsIP newIPField]> fields
    | MyTime => <[name := EsTime newTimeField]> fields
    | MyTimestamp => <[name := EsDatetime newDatetimeField]> fields
    | MyURI => <[name := EsStr (newKeyword false)]> fields
    | Float64 => <[name := EsDouble newDoubleField]> fields
    | Int64 => <[name := EsLong newLongField]> fields
    | Bool => <[name := EsBool newBoolField]> fields
    | String_ => <[name := EsStr (newKeyword true)]> fields
    end.

Definition fulltextField : strEsField :=
  {| str_Typ := "text"; str_Store := false; str_Copy := "" |}.

Definition newMessageFields (fieldNames : list string) (excludes : gmap string bool)
  : gmap string anyEsField :=
  let fields := fold_left (addField excludes) fieldNames ∅ in
  let fields := <["@timestamp" := EsDatetime newDatetimeField]> fields in
  <["fulltext" := EsStr fulltextField]> fields.

End Mapping.

(** *** push2es *)

(** A bulk index request: [NewBulkIndexRequest().Doc(l).Index(indexName).Type("accesslogs")]. *)
Record BulkIndexRequest : Type := {
  Doc : Upload.Line;
  Index : string;
  Type_ : string
}.

(** A file name with what os.Open and the parser do on it. *)
Record FileEnv : Type := {
  fname : string;
  Open : option error;
  ParseHeader : option error;
  Lines : list Upload.Line
}.

(** [http.DefaultMaxIdleConnsPerHost], the number of workers push2es
    asks for. *)
Definition DefaultMaxIdleConnsPerHost : nat := 2.

(** The bulk processor of olivere/elastic as push2es builds it.  Its
    workers all receive from one unbuffered channel, so a request
    added goes to whichever worker is receiving; BulkActions(-1) and
    BulkSize(-1) switch the automatic commits off, so a worker commits
    only when Flush asks it to, and Flush asks every worker in turn.
    [pending] lists, worker by worker, the requests received and not
    yet committed; [bulks] lists the bulk requests sent to the server
    so far; [added] counts the calls of Add.  What the server answers
    is not part of the state: a failed commit is reported through the
    client's error log and Flush returns nil all the same; the
    commits are taken to succeed, so a worker is empty after its
    commit. *)
Record State : Type := {
  stderr : list Upload.log_line;
  pending : list (list BulkIndexRequest);
  bulks : list (list BulkIndexRequest);
  added : nat
}.

(** What the client answers before the first file is touched. *)
Record ConfigES : Type := {
  fnames : list FileEnv;
  NewClient : option error;
  ElasticsearchVersion : option error;
  BulkProcessor_Do : option error
}.

Section Push.

Variable TrimSpace : string -> string.
Variable indexName : string.
(** The worker that receives the [k]-th request added: the choice of
    the scheduler. *)
Variable receiver : nat -> nat.

(** [p.requestsC <- request], and the receiving worker's
    [w.service.Add(req)]. *)
Definition proc_Add (r : BulkIndexRequest) (st : State) : State :=
  {| stderr := stderr st;
     pending := alter (fun w => (w ++ [r])%list)
                      (receiver (added st) mod length (pending st))%nat (pending st);
     bulks := bulks st;
     added := S (added st) |}.

(** One worker's answer to a flush: it commits when it holds
    requests. *)
Definition worker_flush (sent : list (list BulkIndexRequest)) (w : list BulkIndexRequest)
  : list (list BulkIndexRequest) :=
  if (0 <? length w)%nat then (sent ++ [w])%list else sent.

(** ( *BulkProcessor).Flush: every worker in turn, then [return nil]. *)
Definition proc_Flush (st : State) : State * option error :=
  ({| stderr := stderr st;
      pending := map (fun _ => []) (pending st);
      bulks := fold_left worker_flush (pending st) (bulks st);
      added := added st |},
   None).

Definition log (l : Upload.log_line) (st : State) : State :=
  {| stderr := stderr st ++ [l]; pending := pending st; bulks := bulks st;
     added := added st |}.

(** The inner loop over the lines of one file; [i] counts the requests
    added since the last flush.  [inl] is a stop by [fatal]. *)
Fixpoint forLines (lines : list Upload.Line) (i : Z) (st : State)
  : (error * State) + (Z * State) :=
  match lines with
  | [] => inr (i, st)
  | l :: lines' =>
      let i := add64 i 1 in
      let st := proc_Add {| Doc := l; Index := indexName; Type_ := "accesslogs" |} st in
      if i >=? 1000 then
        let '(st, err) := proc_Flush st in
        match fatal err with
        | Some e => inl (e, st)
        | None => forLines lines' 0 st
        end
      else forLines lines' i st
  end.

(** The loop of the command over the file names. *)
Fixpoint forFiles (fnames : list FileEnv) (st : State) : process State :=
  match fnames with
  | [] => Completed st
  | f :: fnames' =>
      let fname := TrimSpace (fname f) in
      match Open f with
      | Some err => forFiles fnames' (log (Upload.LogErrOpening fname err) st)
      | None =>
          match ParseHeader f with
          | Some err => forFiles fnames' (log (Upload.LogErrBuildingParser err) st)
          | None =>
              match forLines (Lines f) 0 st with
              | inl (e, st) => Exited e st
              | inr (i, st) =>
                  if i >? 0 then
                    let '(st, err) := proc_Flush st in
                    match fatal err with
                    | Some e => Exited e st
                    | None => forFiles fnames' st
                    end
                  else forFiles fnames' st
              end
          end
      end
  end.

(** The processor as [Do] starts it: the workers hold nothing; and
    the state of a run that has no processor yet. *)
Definition proc_init : State :=
  {| stderr := []; pending := repeat [] DefaultMaxIdleConnsPerHost; bulks := [];
     added := O |}.

Definition no_proc : State :=
  {| stderr := []; pending := []; bulks := []; added := O |}.

(** The command: the checks before the first file, then the loop. *)
Definition push2esCmd (cfg : ConfigES) : process State :=
  match fatal (if (length (fnames cfg) =? 0)%nat
               then Some (ErrNew "specify the files to be parsed") else None) with
  | Some e => Exited e no_proc
  | None =>
      match fatal (NewClient cfg) with
      | Some e => Exited e no_proc
      | None =>
          match fatal (ElasticsearchVersion cfg) with
          | Some e => Exited e no_proc
          | None =>
              match fatal (BulkProcessor_Do cfg) with
              | Some e => Exited e no_proc
              | None => forFiles (fnames cfg) proc_init
              end
          end
      end
  end.

End Push.

End ES.

(** ** Predicates of the specification *)

(** The null marker of a Kind: a value of the pgtype of that Kind whose
    status is Null, or, for a time of day, a nil pointer of the
    wrapper type.  The nil interface is not one. *)
Definition is_typed_null (t : Kind) (v : value) : bool :=
  match t, v with
  | MyDate, VPgDate d => if Date_Status d is Null then true else false
  | MyIP, VPgInet i => if Inet_Status i is Null then true else false
  | MyTime, VMyMyTime None => true
  | MyTimestamp, VPgTimestamptz x => if Tz_Status x is Null then true else false
  | Float64, VPgFloat8 f => if Float8_Status f is Null then true else false
  | Int64, VPgInt8 i => if Int8_Status i is Null then true else false
  | Bool, VPgBool b => if Bool_Status b is Null then true else false
  | _, _ => false
  end.

Definition is_text (t : Kind) : bool :=
  match t with MyURI | String_ => true | _ => false end.

Section BatchPredicates.
Import Buffer.

(** The batches a program can hold: made by RowFactory for a field
    count that is not negative, then changed by GetRow, by AddField on
    a row of the batch, and by Clear; the pool may lose rows at any
    time (sync.Pool is free to drop what it holds). *)
Inductive batch : Rows -> Prop :=
| batch_RowFactory maxSize nbFields r :
    0 <= nbFields -> RowFactory maxSize nbFields = Ret r -> batch r
| batch_GetRow r r' p full :
    batch r -> GetRow r = Ret (r', p, full) -> batch r'
| batch_AddField r i row v :
    batch r -> rows r !! i = Some row ->
    batch (set_rows r (<[i := fst (AddField row v)]> (rows r)))
| batch_Clear r :
    batch r -> batch (Clear r)
| batch_pool_drop r p :
    batch r -> sublist p (pool r) -> batch (set_pool r p).

Definition row_ok (nb : Z) (row : Row) : Prop :=
  Z.of_nat (rcap row) = nb /\ (length (fields row) <= rcap row)%nat.

Definition wf (r : Rows) : Prop :=
  0 <= nbFields r /\
  Z.of_nat (length (rows r)) <= maxSize r /\
  Forall (fun row => Z.of_nat (rcap row) = nbFields r) (pool r) /\
  Forall (row_ok (nbFields r)) (rows r).

End BatchPredicates.

(** The value of a Go [int] counter after [k] increments from 0. *)
Definition count64 (k : nat) : Z := Nat.iter k (fun n => add64 n 1) 0.

(** A step of uploadPG that changes the line counter by [f] when it
    goes on, and that, when it returns, returns from one of the early
    return statements with a count of 0 and an error. *)
Definition counts {A} (f : Z -> Z) (m : Upload.M A) : Prop :=
  forall st,
    match m st with
    | Upload.Cont _ st' => Upload.nbLines st' = f (Upload.nbLines st)
    | Upload.Return s n e _ => s <> Upload.AtEnd /\ n = 0 /\ e <> None
    | Upload.Crash => True
    end.

(** The sizes of the batches of a file of [L] lines cut every [B]
    lines: [L / B] full ones, then the remainder if there is one. *)
Definition batch_sizes (L B : Z) : list Z :=
  (repeat B (Z.to_nat (L / B)) ++ (if L mod B =? 0 then [] else [L mod B]))%list.

(** How one more line changes the number of rows in the batch and the
    sizes of what the CopyFrom calls carried so far. *)
Definition line_step (B : Z) (x : Z * list Z) : Z * list Z :=
  let '(m, sizes) := x in
  if m <? B then (m + 1, sizes) else (1, (sizes ++ [B - 1])%list).

(** The state of an upload that has [m] complete rows in its batch,
    whose CopyFrom calls carried [sizes] rows and all succeeded, and
    that counted [nl] lines. *)
Definition loop_state (B N : Z) (m : Z) (sizes : list Z) (nl : Z) (st : Upload.State)
  : Prop :=
  let f := Upload.factory st in
  Buffer.maxSize f = B /\ Buffer.nbFields f = N /\
  Z.of_nat (length (Buffer.rows f)) = m /\
  Forall (fun row => Z.of_nat (length (Buffer.fields row)) = N /\
                     Z.of_nat (Buffer.rcap row) = N) (Buffer.rows f) /\
  Forall (fun row => Z.of_nat (Buffer.rcap row) = N) (Buffer.pool f) /\
  map (fun cc => Z.of_nat (length (Upload.cc_rows cc))) (Upload.copies st) = sizes /\
  Forall (fun cc => Upload.cc_err cc = None) (Upload.copies st) /\
  Upload.nbLines st = nl.

(** The values of a line fit the Kinds of the columns: no conversion
    of a field of the line panics. *)
Definition converts (Date_IsZero : Date -> bool) (Time_IsZero : Time -> bool)
    (Unidecode : string -> string) (kind_of : string -> Kind)
    (names : list string) (line : Upload.Line) : Prop :=
  Forall (fun name =>
            String.eqb name "id" = false ->
            Conv.pgConvert Date_IsZero Time_IsZero Unidecode (kind_of name) (line name)
              <> Panic) names.

(** A value of the line does not fit the Kind of its column: its
    conversion panics. *)
Definition mismatch (Date_IsZero : Date -> bool) (Time_IsZero : Time -> bool)
    (Unidecode : string -> string) (kind_of : string -> Kind)
    (names : list string) (line : Upload.Line) : Prop :=
  Exists (fun name =>
            String.eqb name "id" = false /\
            Conv.pgConvert Date_IsZero Time_IsZero Unidecode (kind_of name) (line name)
              = Panic) names.

(** The columns of the rows of a file: the id, the GMT time when the
    parser has none, and the fields of the header. *)
Definition columns_of (p : Upload.Parser) : list string :=
  "id" :: (if negb (Upload.HasGmtTime p) then "gmttime" :: Upload.FieldNames p
           else Upload.FieldNames p).

(** ** Further predicates *)

(** The dynamic type a Kind expects of a value that is not nil. *)
Definition kind_accepts (t : Kind) (v : value) : bool :=
  match t, v with
  | MyDate, VParserDate _ => true
  | MyIP, VIP _ => true
  | MyTime, VParserTime _ => true
  | MyTimestamp, VTime _ => true
  | MyURI, VString _ => true
  | Float64, VFloat64 _ => true
  | Int64, VInt64 _ => true
  | Bool, VBool _ => true
  | String_, VString _ => true
  | _, _ => false
  end.

(** A string that is one complete UTF-8 sequence of two or of three
    bytes, as utf8.ValidString reads it. *)
Definition one_sequence (s : string) : bool :=
  match s with
  | String c1 (String c2 rest) =>
      negb (byte_val c1 <? Charset.RuneSelf) &&
      match Charset.first (byte_val c1) with
      | None => false
      | Some (size, lo, hi) =>
          Charset.between lo hi c2 &&
          match rest with
          | EmptyString => Nat.eqb size 2
          | String c3 EmptyString =>
              Nat.eqb size 3 && Charset.between Charset.locb Charset.hicb c3
          | _ => false
          end
      end
  | _ => false
  end.

(** The fields of a time of day are those of a clock. *)
Definition clock_time (t : Time) : Prop :=
  0 <= Hour t < 24 /\ 0 <= Minute t < 60 /\ 0 <= Second t < 60 /\
  0 <= Nanosecond t < 1000000000.

(** AddField called with one value after the other on the same row:
    the row at the end and the error of each call. *)
Fixpoint AddField_all (r : Buffer.Row) (vs : list value)
  : Buffer.Row * list (option error) :=
  match vs with
  | [] => (r, [])
  | v :: vs' =>
      let '(r', e) := Buffer.AddField r v in
      let '(r'', es) := AddField_all r' vs' in
      (r'', e :: es)
  end.

(** The descriptor the loop of newMessageFields gives to a name that
    is not excluded. *)
Definition descriptor (GuessType : string -> Kind) (name : string) : ES.anyEsField :=
  if String.eqb name "cs(user-agent)" then ES.EsStr (ES.newTextField true)
  else if String.eqb name "cs-host" then ES.EsMulti ES.newMulti
  else if String.eqb name "cs-uri-path" then ES.EsMulti ES.newMulti
  else if String.eqb name "cs-uri-query" then ES.EsMulti ES.newMulti
  else
    match GuessType name with
    | MyDate => ES.EsDate ES.newDateField
    | MyIP => ES.EsIP ES.newIPField
    | MyTime => ES.EsTime ES.newTimeField
    | MyTimestamp => ES.EsDatetime ES.newDatetimeField
    | MyURI => ES.EsStr (ES.newKeyword false)
    | Float64 => ES.EsDouble ES.newDoubleField
    | Int64 => ES.EsLong ES.newLongField
    | Bool => ES.EsBool ES.newBoolField
    | String_ => ES.EsStr (ES.newKeyword true)
    end.

(** The copy_to and the store attributes of a descriptor; the structs
    without a Copy member copy nowhere. *)
Definition copy_to (d : ES.anyEsField) : string :=
  match d with
  | ES.EsMulti f => ES.multi_Copy f
  | ES.EsStr f => ES.str_Copy f
  | _ => ""
  end.

Definition stored (d : ES.anyEsField) : bool :=
  match d with
  | ES.EsDouble f => ES.double_Store f
  | ES.EsBool f => ES.bool_Store f
  | ES.EsIP f => ES.ip_Store f
  | ES.EsLong f => ES.long_Store f
  | ES.EsMulti f => ES.multi_Store f
  | ES.EsStr f => ES.str_Store f
  | ES.EsDate f => ES.date_Store f
  | ES.EsTime f => ES.time_Store f
  | ES.EsDatetime f => ES.datetime_Store f
  end.

(** The requests push2es makes of the lines of the files that open
    and whose header parses, in order. *)
Definition requests_of (indexName : string) (lines : list Upload.Line)
  : list ES.BulkIndexRequest :=
  map (fun l => {| ES.Doc := l; ES.Index := indexName; ES.Type_ := "accesslogs" |}) lines.

Definition readable (f : ES.FileEnv) : bool :=
  match ES.Open f, ES.ParseHeader f with
  | None, None => true
  | _, _ => false
  end.

(** A CopyFrom call whose rows all have one value per column. *)
Definition well_shaped (tableName : string) (columns : list string)
    (cc : Upload.CopyCall) : Prop :=
  Upload.cc_table cc = tableName /\ Upload.cc_columns cc = columns /\
  Forall (fun row => length row = length columns) (Upload.cc_rows cc).

(** A step of uploadPG that keeps a property of the state, whether it
    goes on or returns. *)
Definition keeps {A} (I : Upload.State -> Prop) (m : Upload.M A) : Prop :=
  forall st,
    I st ->
    match m st with
    | Upload.Cont _ st' | Upload.Return _ _ _ st' => I st'
    | Upload.Crash => True
    end.

(** Every CopyFrom call so far was well shaped, the batch is for rows
    of as many values as there are columns, and nothing was written
    to the error stream. *)
Definition shaped (tableName : string) (columns : list string) (st : Upload.State) : Prop :=
  Buffer.nbFields (Upload.factory st) = Z.of_nat (length columns) /\
  Forall (well_shaped tableName columns) (Upload.copies st) /\
  Upload.stderr st = [].

(** ** Predicates on the calls of an upload *)

(** The first [n] calls of uuid.NewV1 returned no error. *)
Definition uuids_ok (c : Upload.Sink) (n : nat) : Prop :=
  forall k, (k < n)%nat -> snd (Upload.NewV1 c k) = None.

(** The CopyFrom calls of the list were the sink's first ones, and
    the sink accepted each of them. *)
Definition copies_ok (c : Upload.Sink) (l : list Upload.CopyCall) : Prop :=
  forall k cc, l !! k = Some cc ->
    Upload.cc_err cc = None /\ Upload.CopyFrom_err c k = None.

(** No call made to uuid.NewV1 or to CopyFrom so far has failed. *)
Definition calls_ok (c : Upload.Sink) (st : Upload.State) : Prop :=
  uuids_ok c (Upload.uuids st) /\ copies_ok c (Upload.copies st).

(** The return statement [s] was reached because of the error [e]:
    [e] is what the last call made to the collaborator of that
    statement returned (uuid.NewV1 for the id, CopyFrom for the two
    flushes), and no call before it had failed.  It is false of the
    other return statements. *)
Definition failed_at (c : Upload.Sink) (s : Upload.site) (e : error) (st : Upload.State)
  : Prop :=
  match s with
  | Upload.AtIdGen =>
      copies_ok c (Upload.copies st) /\
      exists k, Upload.uuids st = S k /\ uuids_ok c k /\
                snd (Upload.NewV1 c k) = Some e
  | Upload.AtFlush | Upload.AtTrailingFlush =>
      uuids_ok c (Upload.uuids st) /\
      exists pre cc,
        Upload.copies st = (pre ++ [cc])%list /\ copies_ok c pre /\
        Upload.cc_err cc = Some e /\ Upload.CopyFrom_err c (length pre) = Some e
  | _ => False
  end.

(** What an early return statement returns: a count of zero, and the
    error of the call that failed. *)
Definition early (c : Upload.Sink) (s : Upload.site) (n : Z) (err : option error)
    (st : Upload.State) : Prop :=
  n = 0 /\ exists e, err = Some e /\ failed_at c s e st.

(** A step of uploadPG started in a state that satisfies [P]: it goes
    on only into a state that satisfies [Q], it returns only as [R]
    says, and it panics only if [K]. *)
Definition hoare {A} (K : Prop) (P : Upload.State -> Prop) (m : Upload.M A)
    (Q : A -> Upload.State -> Prop)
    (R : Upload.site -> Z -> option error -> Upload.State -> Prop) : Prop :=
  forall st, P st ->
    match m st with
    | Upload.Cont a st' => Q a st'
    | Upload.Return s n e st' => R s n e st'
    | Upload.Crash => K
    end.

(** A row with all its [N] values. *)
Definition complete (N : Z) (row : Buffer.Row) : Prop :=
  Z.of_nat (length (Buffer.fields row)) = N /\ Z.of_nat (Buffer.rcap row) = N.

(** The rows of the batch between two lines, and while the row at
    index [i] is filled and holds [j] values. *)
Definition all_complete (N : Z) (l : list Buffer.Row) : Prop := Forall (complete N) l.

Definition last_partial (N : Z) (i j : nat) (l : list Buffer.Row) : Prop :=
  exists pre row,
    l = (pre ++ [row])%list /\ length pre = i /\ Forall (complete N) pre /\
    length (Buffer.fields row) = j /\ Z.of_nat (Buffer.rcap row) = N.

(** The state of an upload with batch size [B] and [N] columns that
    counted [nl] lines and whose calls all succeeded so far. *)
Definition upload_state (c : Upload.Sink) (B N nl : Z)
    (shape : list Buffer.Row -> Prop) (st : Upload.State) : Prop :=
  let f := Upload.factory st in
  Buffer.maxSize f = B /\ Buffer.nbFields f = N /\
  Z.of_nat (length (Buffer.rows f)) <= B /\
  shape (Buffer.rows f) /\
  Forall (fun row => Z.of_nat (Buffer.rcap row) = N) (Buffer.pool f) /\
  calls_ok c st /\ Upload.nbLines st = nl.

(** The values of every line of a file fit the Kinds of its columns. *)
Definition file_converts (Date_IsZero : Date -> bool) (Time_IsZero : Time -> bool)
    (Unidecode : string -> string) (GuessType : string -> Kind) (f : Upload.FileEnv)
  : Prop :=
  Forall (converts Date_IsZero Time_IsZero Unidecode GuessType
            (columns_of (Upload.parser_ f)))
         (Upload.Lines (Upload.parser_ f)).

(** The line push2es writes for a file it cannot read. *)
Definition es_error_line (TrimSpace : string -> string) (f : ES.FileEnv)
  : option Upload.log_line :=
  match ES.Open f, ES.ParseHeader f with
  | Some e, _ => Some (Upload.LogErrOpening (TrimSpace (ES.fname f)) e)
  | None, Some e => Some (Upload.LogErrBuildingParser e)
  | None, None => None
  end.

(** ** Predicates on the bulk requests of push2es *)

(** What one call of Flush sends when the requests [chunk] were added
    since the call before: at most one bulk request for each worker,
    none of them empty, each one a selection of the chunk in the order
    of the chunk, and all together every request of the chunk once. *)
Definition commits (workers : nat) (group : list (list ES.BulkIndexRequest))
    (chunk : list ES.BulkIndexRequest) : Prop :=
  (length group <= workers)%nat /\
  Forall (fun b => b <> [] /\ sublist b chunk) group /\
  Permutation (concat group) chunk.

(** The workers of the processor hold the requests [q], added in that
    order since the last Flush. *)
Definition holds (st : ES.State) (q : list ES.BulkIndexRequest) : Prop :=
  Forall (fun w => sublist w q) (ES.pending st) /\
  Permutation (concat (ES.pending st)) q.

(** The workers that have something to commit. *)
Definition live (ws : list (list ES.BulkIndexRequest)) : list (list ES.BulkIndexRequest) :=
  List.filter (fun w => (0 <? length w)%nat) ws.

(** ** Sample inputs *)

(** "é" in UTF-8 (C3 A9) and in Latin-9 (E9). *)
Definition e_acute_utf8 : string := String (byte_chr 0xC3) (String (byte_chr 0xA9) "").
Definition e_acute_latin : string := String (byte_chr 0xE9) "".

(** A parser whose zero date and zero time are the all-zero records. *)
Definition Date_IsZero0 (d : Date) : bool := (Year d =? 0) && (Month d =? 0) && (Day d =? 0).
Definition Time_IsZero0 (t : Time) : bool :=
  (Hour t =? 0) && (Minute t =? 0) && (Second t =? 0) && (Nanosecond t =? 0).
Definition zeroDate : Date := {| Year := 0; Month := 0; Day := 0 |}.
Definition midnight : Time := {| Hour := 0; Minute := 0; Second := 0; Nanosecond := 0 |}.
(** 13:37:42.123456789 *)
Definition sample_time : Time :=
  {| Hour := 13; Minute := 37; Second := 42; Nanosecond := 123456789 |}.

(** A batch of two rows of three fields, one of them a field short. *)
Definition short_batch : Buffer.Rows :=
  {| Buffer.pool := []; Buffer.maxSize := 2; Buffer.nbFields := 3;
     Buffer.rows := [ {| Buffer.fields := [VInt64 1; VInt64 2; VInt64 3]; Buffer.rcap := 3 |};
                      {| Buffer.fields := [VInt64 4; VInt64 5]; Buffer.rcap := 3 |} ] |}.

(** A fresh batch for two rows of three fields. *)
Definition fresh_batch : Buffer.Rows :=
  {| Buffer.pool := []; Buffer.maxSize := 2; Buffer.nbFields := 3; Buffer.rows := [] |}.

(** strings.ToLower on ASCII text, and a type guess for the sample
    field names. *)
Definition lower_ascii (c : ascii) : ascii :=
  if (0x41 <=? byte_val c) && (byte_val c <=? 0x5A) then byte_chr (byte_val c + 32) else c.

Fixpoint ToLower_ascii (s : string) : string :=
  match s with
  | EmptyString => EmptyString
  | String c r => String (lower_ascii c) (ToLower_ascii r)
  end.

Definition sample_GuessType (name : string) : Kind :=
  if String.eqb name "sc-status" then Int64
  else if String.eqb name "time-taken" then Int64
  else if String.eqb name "date" then MyDate
  else if String.eqb name "time" then MyTime
  else if String.eqb name "c-ip" then MyIP
  else String_.

Definition sample_fieldNames : list string := ["cs-host"; "sc-status"; "X-Custom"].
Definition sample_excludes : gmap string bool := {[ "x-custom" := true ]}.

(** A log file with the single field "n", whose [k]-th line holds the
    number [k]; the columns of its rows are "id" and "n". *)
Definition n_GuessType (name : string) : Kind :=
  if String.eqb name "n" then Int64 else String_.

Definition n_line (k : Z) : Upload.Line :=
  fun name => if String.eqb name "n" then VInt64 k else VNil.

Definition n_parser (L : nat) : Upload.Parser :=
  {| Upload.ParseHeader := None; Upload.FieldNames := ["n"]; Upload.HasGmtTime := true;
     Upload.Lines := map (fun k => n_line (Z.of_nat k)) (seq 1 L) |}.

(** A sink that accepts everything, and one whose [k]-th CopyFrom
    fails. *)
Definition copy_failed : error := ErrExternal "copy failed".

Definition good_sink : Upload.Sink :=
  {| Upload.Acquire := None; Upload.NewV1 := fun k => ([Z.of_nat k], None);
     Upload.CopyFrom_err := fun _ => None; Upload.Exec_VACUUM := None |}.

Definition sink_failing_copy (k : nat) : Upload.Sink :=
  {| Upload.Acquire := None; Upload.NewV1 := fun k => ([Z.of_nat k], None);
     Upload.CopyFrom_err := fun j => if Nat.eqb j k then Some copy_failed else None;
     Upload.Exec_VACUUM := None |}.

Definition n_uploadPG (p : Upload.Parser) (c : Upload.Sink) (bsize : Z) : Upload.result :=
  Upload.uploadPG Date_IsZero0 Time_IsZero0 (fun s => s) n_GuessType (fun s => s)
                  "accesslogs" p c bsize.

Definition final_state (r : Upload.result) : Upload.State :=
  match r with
  | Upload.Returned _ _ _ st => st
  | Upload.Crashed => Upload.init_state Upload.no_factory []
  end.

(** The numbers of the lines whose rows a CopyFrom call carried. *)
Definition carried (cc : Upload.CopyCall) : list Z :=
  omap (fun row => match row with [_; VInt64 k] => Some k | _ => None end)
       (Upload.cc_rows cc).

(** Four files for push2pg: one that cannot be opened, one whose
    header does not parse, one whose only CopyFrom fails, one that is
    fine; and two files for push2es, the first with one line. *)
Definition open_failed : error := ErrExternal "no such file or directory".
Definition bad_header : error := ErrExternal "not a W3C extended log".

Definition pg_files : list Upload.FileEnv :=
  [ {| Upload.fname := "a.log"; Upload.Open := Some open_failed;
       Upload.parser_ := n_parser 0; Upload.sink_ := good_sink |};
    {| Upload.fname := "b.log"; Upload.Open := None;
       Upload.parser_ := {| Upload.ParseHeader := Some bad_header; Upload.FieldNames := [];
                            Upload.HasGmtTime := true; Upload.Lines := [] |};
       Upload.sink_ := good_sink |};
    {| Upload.fname := "c.log"; Upload.Open := None;
       Upload.parser_ := n_parser 1; Upload.sink_ := sink_failing_copy 0 |};
    {| Upload.fname := "d.log"; Upload.Open := None;
       Upload.parser_ := n_parser 2; Upload.sink_ := good_sink |} ].

Definition n_uploadFilesPG (fnames : list Upload.FileEnv) (bsize : Z)
  : process (list Upload.log_line) :=
  Upload.uploadFilesPG Date_IsZero0 Time_IsZero0 (fun s => s) n_GuessType (fun s => s)
                       "accesslogs" (fun s => s) fnames bsize.

Definition es_files : list ES.FileEnv :=
  [ {| ES.fname := "c.log"; ES.Open := None; ES.ParseHeader := None;
       ES.Lines := [n_line 1] |};
    {| ES.fname := "a.log"; ES.Open := Some open_failed; ES.ParseHeader := None;
       ES.Lines := [] |} ].

Definition es_init : ES.State := ES.proc_init.

(** A file whose second line holds a text in the column "n", which
    is an Int64 column. *)
Definition text_line : Upload.Line := fun _ => VString "abc".

Definition garbled_parser : Upload.Parser :=
  {| Upload.ParseHeader := None; Upload.FieldNames := ["n"]; Upload.HasGmtTime := true;
     Upload.Lines := [n_line 1; text_line] |}.

(** A file like that, followed by a good one; and the flags of a run
    of push2pg over some files with some batch size. *)
Definition garbled_files : list Upload.FileEnv :=
  [ {| Upload.fname := "g.log"; Upload.Open := None;
       Upload.parser_ := garbled_parser; Upload.sink_ := good_sink |};
    {| Upload.fname := "d.log"; Upload.Open := None;
       Upload.parser_ := n_parser 2; Upload.sink_ := good_sink |} ].

Definition pg_config (files : list Upload.FileEnv) (bsize : Z) : Upload.ConfigPG :=
  {| Upload.parallel := 1; Upload.batchsize := bsize; Upload.filenames := files;
     Upload.dbURI := "postgres://localhost/logs";
     Upload.ParseConnectionString := None; Upload.NewConnPool := None |}.

Definition n_push2pgCmd (cfg : Upload.ConfigPG) : process (list Upload.log_line) :=
  Upload.push2pgCmd Date_IsZero0 Time_IsZero0 (fun s => s) n_GuessType (fun s => s)
                    "accesslogs" (fun s => s) cfg.

(** A file of three lines for push2es. *)
Definition es_three : ES.FileEnv :=
  {| ES.fname := "e.log"; ES.Open := None; ES.ParseHeader := None;
     ES.Lines := [n_line 1; n_line 2; n_line 3] |}.

(** What a run of uploadPG shows from outside: the return statement,
    the count, the error, and for every CopyFrom call the numbers of
    the lines it carried. *)
Definition run_summary (r : Upload.result)
  : option (Upload.site * Z * option error * list (list Z)) :=
  match r with
  | Upload.Returned s n e st => Some (s, n, e, map carried (Upload.copies st))
  | Upload.Crashed => None
  end.


(** * Properties *)

(** ** Machine integers *)

Lemma int64_in_range x : in_int64 x -> int64 x = x.
Proof.
  unfold in_int64, int64. intros H.
  rewrite Z.mod_small by lia. lia.
Qed.

Lemma int64_range x : in_int64 (int64 x).
Proof.
  unfold in_int64, int64.
  pose proof (Z.mod_pos_bound (x + 2 ^ 63) (2 ^ 64) ltac:(lia)). lia.
Qed.

Lemma int64_add_l x y : int64 (int64 x + y) = int64 (x + y).
Proof.
  unfold int64. f_equal.
  replace (((x + 2 ^ 63) mod 2 ^ 64 - 2 ^ 63) + y + 2 ^ 63)
    with ((x + 2 ^ 63) mod 2 ^ 64 + y) by lia.
  rewrite Zplus_mod_idemp_l. f_equal. lia.
Qed.

Lemma int64_add_r x y : int64 (x + int64 y) = int64 (x + y).
Proof. rewrite (Z.add_comm x), int64_add_l. f_equal. lia. Qed.

(** ** Charset repair *)

Section CharsetFacts.
Import Charset.

Variable Unidecode : string -> string.

Lemma isoDecoder_never_fails s : snd (isoDecoder_String s) = None.
Proof. reflexivity. Qed.

(** The transliteration is never reached: whatever it is, the result
    is the same. *)
Lemma decodeCharset_never_transliterates (U1 U2 : string -> string) s :
  decodeCharset U1 s = decodeCharset U2 s.
Proof. unfold decodeCharset. destruct (ValidString s); reflexivity. Qed.

Lemma decodeCharset_invalid s :
  ValidString s = false -> decodeCharset Unidecode s = iso_transform s.
Proof. unfold decodeCharset. intros ->. reflexivity. Qed.

Lemma EncodeRune_not_empty r : EncodeRune r <> "".
Proof.
  unfold EncodeRune, str1.
  repeat match goal with |- context [if ?b then _ else _] => destruct b end;
    discriminate.
Qed.

Lemma iso_transform_empty s : iso_transform s = "" -> s = "".
Proof.
  destruct s as [|c r]; [reflexivity|]. simpl.
  destruct (byte_val c <? RuneSelf); [discriminate|].
  pose proof (EncodeRune_not_empty (iso8859_15_rune (byte_val c))) as H.
  destruct (EncodeRune (iso8859_15_rune (byte_val c))); [congruence | discriminate].
Qed.

(** The repaired text is empty only when the input was. *)
Lemma decodeCharset_empty_iff s : decodeCharset Unidecode s = "" <-> s = "".
Proof.
  split.
  - unfold decodeCharset. destruct (ValidString s); [tauto|].
    simpl. apply iso_transform_empty.
  - intros ->. reflexivity.
Qed.

(** C4: on a string that is already valid UTF-8 the charset repair
    returns the string itself; and it is a function of its input: equal
    inputs give equal outputs. *)
Theorem decodeCharset_valid_utf8_identity (s : string) :
  ValidString s = true ->
  decodeCharset Unidecode s = s /\
  (forall s', s' = s -> decodeCharset Unidecode s' = decodeCharset Unidecode s).
Proof.
  intros Hv. split.
  - unfold decodeCharset. rewrite Hv. reflexivity.
  - intros s' ->. reflexivity.
Qed.

End CharsetFacts.

Lemma decodeCharset_valid_utf8_identity_witness :
  Charset.ValidString e_acute_utf8 = true /\
  Charset.decodeCharset (fun _ => "?") e_acute_utf8 = e_acute_utf8.
Proof.
  split; [reflexivity|].
  apply (proj1 (decodeCharset_valid_utf8_identity (fun _ => "?") e_acute_utf8 eq_refl)).
Defined.

(** A Latin-9 "é" is not valid UTF-8 and comes out as the UTF-8 "é";
    the euro sign of Latin-9 comes out as the three bytes of U+20AC. *)
Example decodeCharset_latin9 :
  Charset.ValidString e_acute_latin = false /\
  Charset.decodeCharset (fun _ => "?") e_acute_latin = e_acute_utf8 /\
  Charset.decodeCharset (fun _ => "?") (String (byte_chr 0xA4) "")
    = String (byte_chr 0xE2) (String (byte_chr 0x82) (String (byte_chr 0xAC) "")).
Proof. repeat split. Qed.

(** A byte of the control range 0x80..0x9F comes out as U+FFFD. *)
Example decodeCharset_control_byte :
  Charset.decodeCharset (fun _ => "?") (String (byte_chr 0x85) "")
    = String (byte_chr 0xEF) (String (byte_chr 0xBF) (String (byte_chr 0xBD) "")).
Proof. reflexivity. Qed.

(** ** The value converter *)

Section ConvFacts.
Import Conv.

Variable Date_IsZero : Date -> bool.
Variable Time_IsZero : Time -> bool.
Variable Unidecode : string -> string.

Local Abbreviation pgConvert := (Conv.pgConvert Date_IsZero Time_IsZero Unidecode).

(** C3: an absent raw value converts to the null marker of the Kind,
    which is never the nil interface: the empty string for the String
    and URI Kinds, a typed null for every other Kind; and a date, time
    of day or timestamp that reports itself as zero converts to what
    an absent value of that Kind converts to. *)
Theorem pgConvert_absent_or_zero (t : Kind) :
  pgConvert t VNil = Ret (pgDefaultVal t) /\
  pgDefaultVal t <> VNil /\
  (if is_text t then pgDefaultVal t = VString ""
   else is_typed_null t (pgDefaultVal t) = true) /\
  (forall d, Date_IsZero d = true ->
     pgConvert MyDate (VParserDate d) = pgConvert MyDate VNil) /\
  (forall x, Time_IsZero x = true ->
     pgConvert MyTime (VParserTime x) = pgConvert MyTime VNil) /\
  (forall x, GoTime_IsZero x = true ->
     pgConvert MyTimestamp (VTime x) = pgConvert MyTimestamp VNil).
Proof.
  repeat split.
  - destruct t; discriminate.
  - destruct t; reflexivity.
  - intros d Hd. simpl. rewrite Hd. reflexivity.
  - intros x Hx. simpl. rewrite Hx. reflexivity.
  - intros x Hx. simpl. rewrite Hx. reflexivity.
Qed.

(** A value that is present and not zero is not turned into the null
    marker. *)
Lemma pgConvert_time_present (x : Time) :
  Time_IsZero x = false -> pgConvert MyTime (VParserTime x) = Ret (VMyMyTime (Some x)).
Proof. intros Hx. simpl. rewrite Hx. reflexivity. Qed.

End ConvFacts.

(** An address of four bytes gets the full mask, an address of three
    bytes a nil mask. *)
Example Inet_Set_masks :
  Inet_IPNet (Conv.Inet_Set "abcd") = Some ("abcd", Some [255; 255; 255; 255]) /\
  Inet_IPNet (Conv.Inet_Set "abc") = Some ("abc", None).
Proof. split; reflexivity. Qed.

Lemma pgConvert_absent_or_zero_witness :
  Date_IsZero0 zeroDate = true /\
  Time_IsZero0 midnight = true /\
  GoTime_IsZero zeroTime = true /\
  Conv.pgConvert Date_IsZero0 Time_IsZero0 (fun s => s) MyDate (VParserDate zeroDate)
    = Ret (Conv.pgDefaultVal MyDate) /\
  Conv.pgConvert Date_IsZero0 Time_IsZero0 (fun s => s) MyTime (VParserTime midnight)
    = Ret (VMyMyTime None) /\
  Conv.pgConvert Date_IsZero0 Time_IsZero0 (fun s => s) MyTimestamp (VTime zeroTime)
    = Ret (Conv.pgDefaultVal MyTimestamp).
Proof.
  destruct (pgConvert_absent_or_zero Date_IsZero0 Time_IsZero0 (fun s => s) MyTime)
    as (_ & _ & _ & Hd & Ht & Hs).
  split; [reflexivity|]. split; [reflexivity|]. split; [reflexivity|].
  split; [|split].
  - apply (Hd zeroDate). reflexivity.
  - apply (Ht midnight). reflexivity.
  - apply (Hs zeroTime). reflexivity.
Defined.

(** ** The binary encoding of a time of day *)

Section EncodeFacts.
Import Conv.

Lemma add64_int64 x y : add64 (int64 x) (int64 y) = int64 (x + y).
Proof. unfold add64. rewrite int64_add_l, int64_add_r. reflexivity. Qed.

Lemma byte_at_spec n k : 0 <= k -> byte_at n k = (n / 2 ^ (8 * k)) mod 256.
Proof.
  intros Hk. unfold byte_at. rewrite Z.shiftr_div_pow2 by lia.
  change 0xFF with (Z.ones 8). rewrite Z.land_ones by lia. reflexivity.
Qed.

Lemma byte_at_range n k : 0 <= k -> 0 <= byte_at n k < 256.
Proof. intros Hk. rewrite byte_at_spec by assumption. apply Z.mod_pos_bound. lia. Qed.

(** The eight bytes AppendUint64 writes, read back most significant
    byte first, are the number. *)
Lemma be_value_bytes m :
  0 <= m < 2 ^ 64 ->
  be_value [byte_at m 7; byte_at m 6; byte_at m 5; byte_at m 4;
            byte_at m 3; byte_at m 2; byte_at m 1; byte_at m 0] = m.
Proof.
  intros Hm. unfold be_value. simpl fold_left.
  rewrite !byte_at_spec by lia.
  change (2 ^ (8 * 7)) with 72057594037927936.
  change (2 ^ (8 * 6)) with 281474976710656.
  change (2 ^ (8 * 5)) with 1099511627776.
  change (2 ^ (8 * 4)) with 4294967296.
  change (2 ^ (8 * 3)) with 16777216.
  change (2 ^ (8 * 2)) with 65536.
  change (2 ^ (8 * 1)) with 256.
  change (2 ^ (8 * 0)) with 1.
  change (2 ^ 64) with 18446744073709551616 in Hm.
  Z.div_mod_to_equations. lia.
Qed.

(** C7: the encoding of a non-nil time of day appends to the buffer
    the eight big-endian bytes of the 64-bit integer
    hour*3600000000 + minute*60000000 + second*1000000 + nanosecond/1000;
    for the fields of a time of day this number is the count of
    microseconds since midnight, without wrap-around. *)
Theorem EncodeBinary_microseconds (t : Time) (buf : list Z) :
  let n := int64 (int64 (Hour t) * 3600000000 + int64 (Minute t) * 60000000
                  + int64 (Second t) * 1000000 + Z.quot (int64 (Nanosecond t)) 1000) in
  EncodeBinary (Some t) buf = (Some (AppendInt64 buf n), None) /\
  (exists bytes : list Z,
      AppendInt64 buf n = (buf ++ bytes)%list /\ length bytes = 8%nat /\
      Forall (fun b => 0 <= b < 256) bytes /\ be_value bytes = uint64 n) /\
  (0 <= Hour t < 24 -> 0 <= Minute t < 60 -> 0 <= Second t < 60 ->
   0 <= Nanosecond t < 1000000000 ->
   n = Hour t * 3600000000 + Minute t * 60000000 + Second t * 1000000
       + Z.quot (Nanosecond t) 1000 /\
   0 <= n < 86400000000 /\ uint64 n = n).
Proof.
  intros n. split; [|split].
  - unfold EncodeBinary. do 2 f_equal. f_equal. subst n.
    unfold mul64, quo64, usecsPerHour, usecsPerMinute, usecsPerSec, nanosecsPerUsec.
    rewrite !add64_int64. reflexivity.
  - eexists. split; [reflexivity|]. split; [reflexivity|]. split.
    + repeat constructor; apply byte_at_range; lia.
    + apply be_value_bytes. unfold uint64. apply Z.mod_pos_bound. lia.
  - intros Hh Hm Hs Hn.
    assert (Hq : 0 <= Z.quot (Nanosecond t) 1000 < 1000000).
    { rewrite Z.quot_div_nonneg by lia. split.
      - apply Z.div_pos; lia.
      - apply Z.div_lt_upper_bound; lia. }
    assert (En : n = Hour t * 3600000000 + Minute t * 60000000 + Second t * 1000000
                     + Z.quot (Nanosecond t) 1000).
    { subst n.
      rewrite (int64_in_range (Hour t)), (int64_in_range (Minute t)),
        (int64_in_range (Second t)), (int64_in_range (Nanosecond t))
        by (unfold in_int64; lia).
      apply int64_in_range. unfold in_int64. lia. }
    split; [exact En|]. split; [lia|].
    unfold uint64. apply Z.mod_small. lia.
Qed.

End EncodeFacts.

Lemma EncodeBinary_microseconds_witness :
  (0 <= Hour sample_time < 24 /\ 0 <= Minute sample_time < 60 /\
   0 <= Second sample_time < 60 /\ 0 <= Nanosecond sample_time < 1000000000) /\
  Conv.EncodeBinary (Some sample_time) [] =
    (Some [0; 0; 0; 11; 108; 84; 151; 192], None) /\
  Conv.be_value [0; 0; 0; 11; 108; 84; 151; 192] = 49062123456.
Proof.
  split; [cbn; lia|].
  split; [|reflexivity].
  rewrite (proj1 (EncodeBinary_microseconds sample_time [])). reflexivity.
Defined.

(** ** The pooled row buffer *)

Section BufferFacts.
Import Buffer.

Lemma AddField_row_ok nb row v : row_ok nb row -> row_ok nb (fst (AddField row v)).
Proof.
  intros [Hc Hl]. unfold AddField.
  destruct (Nat.ltb_spec (length (fields row)) (rcap row)); simpl.
  - split; [assumption|]. simpl. rewrite length_app. simpl. lia.
  - split; assumption.
Qed.

Lemma fold_put_Forall (P : Row -> Prop) l p :
  Forall P l -> Forall P p -> Forall P (fold_left (fun p row => row :: p) l p).
Proof.
  revert p. induction l as [|x l IH]; intros p Hl Hp; simpl; [assumption|].
  inversion Hl; subst. apply IH; [assumption|]. constructor; assumption.
Qed.

Lemma GetRow_wf r r' p full : wf r -> GetRow r = Ret (r', p, full) -> wf r'.
Proof.
  intros (Hnb & Hlen & Hpool & Hrows). unfold GetRow.
  destruct (Z.ltb_spec (Z.of_nat (length (rows r))) (maxSize r)) as [Hlt|Hge].
  - assert (Hnew : forall row, Z.of_nat (rcap row) = nbFields r ->
                    Forall (row_ok (nbFields r)) (rows r ++ [reslice0 row])).
    { intros row Hc. apply Forall_app. split; [assumption|].
      repeat constructor; simpl; lia. }
    assert (Hl : Z.of_nat (length (rows r ++ [reslice0 {| fields := []; rcap := 0 |}]))
                 <= maxSize r).
    { rewrite length_app. simpl. lia. }
    rewrite length_app in Hl. simpl in Hl.
    unfold pool_Get, pool_New.
    destruct (pool r) as [|x q] eqn:Ep.
    + destruct (Z.ltb_spec (nbFields r) 0); [lia|].
      intros [= <- <- <-].
      split; [assumption|]. split; [simpl; rewrite length_app; simpl; lia|].
      split; [constructor|]. apply Hnew. simpl. lia.
    + intros [= <- <- <-]. inversion Hpool; subst.
      split; [assumption|]. split; [simpl; rewrite length_app; simpl; lia|].
      split; [assumption|]. apply Hnew. assumption.
  - intros [= <- <- <-]. repeat split; assumption.
Qed.

(** The invariant of the batches: at most [maxSize] rows, every row of
    the batch and of the pool of capacity [nbFields], no row longer
    than its capacity. *)
Lemma batch_wf r : batch r -> wf r.
Proof.
  induction 1 as [ms nb r Hnb Hf | r r' p full _ IH Hg | r i row v _ IH Hi
                 | r _ IH | r p _ IH Hs].
  - unfold RowFactory in Hf. destruct (Z.ltb_spec ms 0); [discriminate|].
    injection Hf as <-. repeat split; simpl; try lia; constructor.
  - eapply GetRow_wf; eassumption.
  - destruct IH as (Hnb & Hlen & Hpool & Hrows).
    repeat split; simpl; try assumption.
    + rewrite length_insert. assumption.
    + apply Forall_insert; [assumption|].
      apply AddField_row_ok.
      eapply (proj1 (Forall_lookup _ _) Hrows); eassumption.
  - destruct IH as (Hnb & Hlen & Hpool & Hrows).
    repeat split; simpl; try assumption; try lia.
    + apply fold_put_Forall; [|assumption].
      eapply Forall_impl; [exact Hrows|]. intros x [Hx _]. exact Hx.
    + constructor.
  - destruct IH as (Hnb & Hlen & Hpool & Hrows).
    repeat split; simpl; try assumption.
    apply Forall_forall. intros x Hx.
    eapply (proj1 (Forall_forall _ _) Hpool), elem_of_sublist; eassumption.
Qed.

(** C5: on a batch that already holds [maxSize] rows, GetRow returns
    no row and [true], and the batch is as before; on a batch with
    room, it returns [false] and a pointer to a row of length 0 and of
    capacity [nbFields], which is the new last row of the batch; and
    it returns [true] in the first case only. *)
Theorem GetRow_checkout (r : Rows) :
  batch r ->
  (Z.of_nat (length (rows r)) = maxSize r -> GetRow r = Ret (r, None, true)) /\
  (Z.of_nat (length (rows r)) < maxSize r ->
   exists row p,
     GetRow r = Ret (set_pool (set_rows r (rows r ++ [row])%list) p,
                     Some (length (rows r)), false) /\
     ((rows r ++ [row])%list : list Row) !! length (rows r) = Some row /\
     fields row = [] /\ Z.of_nat (rcap row) = nbFields r) /\
  (forall r' p full,
     GetRow r = Ret (r', p, full) ->
     (full = true <-> Z.of_nat (length (rows r)) = maxSize r) /\
     (full = true -> p = None /\ r' = r)).
Proof.
  intros Hb. destruct (batch_wf r Hb) as (Hnb & Hlen & Hpool & Hrows).
  split; [|split].
  - intros Hfull. unfold GetRow.
    destruct (Z.ltb_spec (Z.of_nat (length (rows r))) (maxSize r)); [lia|reflexivity].
  - intros Hroom. unfold GetRow.
    destruct (Z.ltb_spec (Z.of_nat (length (rows r))) (maxSize r)); [|lia].
    unfold pool_Get, pool_New. destruct (pool r) as [|x q] eqn:Ep.
    + destruct (Z.ltb_spec (nbFields r) 0); [lia|].
      eexists _, _. split; [reflexivity|].
      split; [apply list_lookup_middle; reflexivity|].
      split; [reflexivity|]. simpl. lia.
    + eexists _, _. split; [reflexivity|].
      split; [apply list_lookup_middle; reflexivity|].
      split; [reflexivity|]. simpl. inversion Hpool; subst. assumption.
  - intros r' p full. unfold GetRow.
    destruct (Z.ltb_spec (Z.of_nat (length (rows r))) (maxSize r)) as [Hlt|Hge].
    + destruct (pool_Get r) as [[row q]|]; [|discriminate].
      intros [= <- <- <-]. split; [split; [discriminate|lia]|discriminate].
    + intros [= <- <- <-]. split; [split; [lia|reflexivity]|]. intros _. split; reflexivity.
Qed.


Lemma check_rows_None nb k l :
  check_rows nb k l = None <->
  Forall (fun row => Z.of_nat (length (fields row)) = nb) l.
Proof.
  revert k. induction l as [|row l IH]; intros k; simpl.
  - split; [constructor | reflexivity].
  - destruct (Z.eqb_spec (Z.of_nat (length (fields row))) nb) as [He|Hne]; simpl.
    + rewrite IH. split; [intros; constructor; assumption|].
      intros H. inversion H; assumption.
    + split; [discriminate|]. intros H. inversion H; subst. contradiction.
Qed.

Lemma check_rows_Some nb k l e :
  check_rows nb k l = Some e ->
  exists i row,
    l !! i = Some row /\
    Z.of_nat (length (fields row)) <> nb /\
    e = ErrWrongNbFields (k + Z.of_nat i) nb (Z.of_nat (length (fields row))) /\
    (forall j row', (j < i)%nat -> l !! j = Some row' ->
                    Z.of_nat (length (fields row')) = nb).
Proof.
  revert k. induction l as [|row l IH]; intros k; simpl; [discriminate|].
  destruct (Z.eqb_spec (Z.of_nat (length (fields row))) nb) as [He|Hne]; simpl.
  - intros H. destruct (IH _ H) as (i & row' & Hi & Hn & -> & Hbefore).
    exists (S i), row'. split; [exact Hi|]. split; [exact Hn|]. split.
    + f_equal. lia.
    + intros [|j] r' Hj Hr'; simpl in Hr'.
      * injection Hr' as <-. exact He.
      * apply (Hbefore j); [lia | exact Hr'].
  - intros [= <-]. exists O, row. split; [reflexivity|]. split; [exact Hne|]. split.
    + f_equal. lia.
    + intros j r' Hj. lia.
Qed.

(** C6: a row of the batch that already has [nbFields] values refuses
    one more with the capacity error and stays as it is; and
    GetSource fails exactly when some row of the batch has a number of
    values other than [nbFields], with an error that carries the index
    of the first such row, [nbFields] and the number of values of that
    row. *)
Theorem AddField_GetSource_errors (r : Rows) :
  batch r ->
  (forall i row v,
     rows r !! i = Some row ->
     Z.of_nat (length (fields row)) = nbFields r ->
     AddField row v = (row, Some (ErrTooManyFields (nbFields r)))) /\
  (forall i row v,
     rows r !! i = Some row ->
     Z.of_nat (length (fields row)) < nbFields r ->
     AddField row v = ({| fields := fields row ++ [v]; rcap := rcap row |}, None)) /\
  ((exists e, GetSource r = inl e) <->
   (exists i row, rows r !! i = Some row /\
                  Z.of_nat (length (fields row)) <> nbFields r)) /\
  (forall e,
     GetSource r = inl e ->
     exists i row,
       rows r !! i = Some row /\
       Z.of_nat (length (fields row)) <> nbFields r /\
       e = ErrWrongNbFields (Z.of_nat i) (nbFields r) (Z.of_nat (length (fields row))) /\
       (forall j row', (j < i)%nat -> rows r !! j = Some row' ->
                       Z.of_nat (length (fields row')) = nbFields r)).
Proof.
  intros Hb. destruct (batch_wf r Hb) as (Hnb & Hlen & Hpool & Hrows).
  assert (Hok : forall i row, rows r !! i = Some row -> row_ok (nbFields r) row).
  { intros i row Hi. eapply (proj1 (Forall_lookup _ _) Hrows); eassumption. }
  split; [|split; [|split]].
  - intros i row v Hi Hfull. destruct (Hok i row Hi) as [Hc _].
    unfold AddField.
    destruct (Nat.ltb_spec (length (fields row)) (rcap row)); [lia|].
    rewrite Hc. reflexivity.
  - intros i row v Hi Hroom. destruct (Hok i row Hi) as [Hc _].
    unfold AddField.
    destruct (Nat.ltb_spec (length (fields row)) (rcap row)); [reflexivity|lia].
  - unfold GetSource. split.
    + intros [e He].
      destruct (check_rows (nbFields r) 0 (rows r)) as [e'|] eqn:Ec; [|discriminate].
      destruct (check_rows_Some _ _ _ _ Ec) as (i & row & Hi & Hn & _).
      exists i, row. split; assumption.
    + intros (i & row & Hi & Hn).
      destruct (check_rows (nbFields r) 0 (rows r)) as [e'|] eqn:Ec; [eexists; reflexivity|].
      apply check_rows_None in Ec.
      exfalso. apply Hn. eapply (proj1 (Forall_lookup _ _) Ec); eassumption.
  - intros e. unfold GetSource.
    destruct (check_rows (nbFields r) 0 (rows r)) as [e'|] eqn:Ec; [|discriminate].
    intros [= <-]. destruct (check_rows_Some _ _ _ _ Ec) as (i & row & Hi & Hn & He & Hbefore).
    exists i, row. repeat split; assumption.
Qed.

Lemma GetSource_ok r :
  Forall (fun row => Z.of_nat (length (fields row)) = nbFields r) (rows r) ->
  GetSource r = inr {| src_r := r; idx := 0 |}.
Proof.
  intros H. unfold GetSource. apply (proj2 (check_rows_None _ 0 _)) in H.
  rewrite H. reflexivity.
Qed.

End BufferFacts.

Lemma fresh_batch_batch : batch fresh_batch.
Proof. apply (batch_RowFactory 2 3); [lia | reflexivity]. Defined.

Lemma GetRow_checkout_witness :
  batch fresh_batch /\
  exists row p,
    Buffer.GetRow fresh_batch =
      Ret (Buffer.set_pool (Buffer.set_rows fresh_batch [row]) p, Some O, false) /\
    ([row] : list Buffer.Row) !! O = Some row /\
    Buffer.fields row = [] /\ Z.of_nat (Buffer.rcap row) = 3.
Proof.
  split; [exact fresh_batch_batch|].
  apply (proj1 (proj2 (GetRow_checkout fresh_batch fresh_batch_batch))).
  simpl. lia.
Defined.

(** The short batch of the samples is reached by two checkouts and
    five appends. *)
Lemma short_batch_batch : batch short_batch.
Proof.
  pose proof fresh_batch_batch as H0.
  pose proof (batch_GetRow _ _ _ _ H0 eq_refl) as H1.
  pose proof (batch_AddField _ O _ (VInt64 1) H1 eq_refl) as H2.
  pose proof (batch_AddField _ O _ (VInt64 2) H2 eq_refl) as H3.
  pose proof (batch_AddField _ O _ (VInt64 3) H3 eq_refl) as H4.
  pose proof (batch_GetRow _ _ _ _ H4 eq_refl) as H5.
  pose proof (batch_AddField _ 1%nat _ (VInt64 4) H5 eq_refl) as H6.
  pose proof (batch_AddField _ 1%nat _ (VInt64 5) H6 eq_refl) as H7.
  exact H7.
Defined.

Lemma AddField_GetSource_errors_witness :
  batch short_batch /\
  Buffer.AddField {| Buffer.fields := [VInt64 1; VInt64 2; VInt64 3]; Buffer.rcap := 3 |}
                  (VInt64 9)
    = ({| Buffer.fields := [VInt64 1; VInt64 2; VInt64 3]; Buffer.rcap := 3 |},
       Some (ErrTooManyFields 3)) /\
  exists i row,
    Buffer.rows short_batch !! i = Some row /\
    Z.of_nat (length (Buffer.fields row)) <> 3 /\
    Buffer.GetSource short_batch
      = inl (ErrWrongNbFields (Z.of_nat i) 3 (Z.of_nat (length (Buffer.fields row)))).
Proof.
  split; [exact short_batch_batch|].
  destruct (AddField_GetSource_errors short_batch short_batch_batch)
    as (Hfull & _ & _ & Herr).
  split.
  - apply (Hfull O); reflexivity.
  - assert (E : exists e, Buffer.GetSource short_batch = inl e)
      by (eexists; reflexivity).
    destruct E as [e E].
    destruct (Herr e E) as (i & row & Hi & Hn & He & _).
    exists i, row. split; [exact Hi|]. split; [exact Hn|].
    rewrite E, He. reflexivity.
Defined.

(** ** The Elasticsearch mapping *)

Section MappingFacts.
Import ES.

Variable ToLower : string -> string.
Variable GuessType : string -> Kind.

Local Abbreviation addField := (ES.addField ToLower GuessType).
Local Abbreviation newMessageFields := (ES.newMessageFields ToLower GuessType).

Lemma addField_excluded excludes (fields : gmap string anyEsField) name :
  excluded excludes (ToLower name) = true -> addField excludes fields name = fields.
Proof. unfold ES.addField. intros ->. reflexivity. Qed.

Lemma addField_other excludes (fields : gmap string anyEsField) name k :
  k <> name -> addField excludes fields name !! k = fields !! k.
Proof.
  intros Hk. unfold ES.addField.
  repeat match goal with
         | |- context [if ?b then _ else _] => destruct b
         end;
    try reflexivity; try (apply lookup_insert_ne; congruence).
  destruct (GuessType name); apply lookup_insert_ne; congruence.
Qed.

Lemma addField_kept excludes (fields : gmap string anyEsField) name :
  excluded excludes (ToLower name) = false ->
  is_Some (addField excludes fields name !! name).
Proof.
  intros He. unfold ES.addField. rewrite He.
  repeat match goal with
         | |- context [if ?b then _ else _] => destruct b
         end;
    try (rewrite lookup_insert_eq; eexists; reflexivity).
  destruct (GuessType name); rewrite lookup_insert_eq; eexists; reflexivity.
Qed.

Lemma fold_addField_lookup excludes names (fields : gmap string anyEsField) k :
  is_Some (fold_left (addField excludes) names fields !! k) <->
  is_Some (fields !! k) \/ (k ∈ names /\ excluded excludes (ToLower k) = false).
Proof.
  revert fields. induction names as [|name names IH]; intros fields; simpl.
  - split; [tauto|]. intros [H|[H _]]; [exact H|]. inversion H.
  - rewrite IH. destruct (decide (k = name)) as [->|Hne].
    + destruct (excluded excludes (ToLower name)) eqn:He.
      * rewrite addField_excluded by exact He.
        split; (intros [H|[_ H]]; [left; exact H|discriminate]).
      * split; [|intros _; left; apply addField_kept; exact He].
        intros _. right. split; [constructor|reflexivity].
    + rewrite addField_other by exact Hne.
      split.
      * intros [H|[H1 H2]]; [tauto|]. right. split; [constructor; exact H1|exact H2].
      * intros [H|[H1 H2]]; [tauto|]. right. split; [|exact H2].
        inversion H1; subst; [contradiction|assumption].
Qed.

(** C8: a turn of the loop leaves the mapping alone exactly when
    [excludes] holds the lower-cased name, and otherwise gives the name
    a descriptor; so the mapping built has, besides the two implicit
    fields, exactly the names of the list that are not excluded; and it
    always has ["@timestamp"], a stored date-time field, and
    ["fulltext"], a text field that is not stored and is the target of
    the copies. *)
Theorem newMessageFields_excludes_and_implicit
    (fieldNames : list string) (excludes : gmap string bool) :
  (forall fields name,
     excluded excludes (ToLower name) = true ->
     addField excludes fields name = fields) /\
  (forall fields name,
     excluded excludes (ToLower name) = false ->
     is_Some (addField excludes fields name !! name)) /\
  (forall name,
     is_Some (newMessageFields fieldNames excludes !! name) <->
     name = "@timestamp" \/ name = "fulltext" \/
     (name ∈ fieldNames /\ excluded excludes (ToLower name) = false)) /\
  newMessageFields fieldNames excludes !! "@timestamp"
    = Some (EsDatetime newDatetimeField) /\
  newMessageFields fieldNames excludes !! "fulltext"
    = Some (EsStr {| str_Typ := "text"; str_Store := false; str_Copy := "" |}) /\
  multi_Copy newMulti = "fulltext" /\
  str_Copy (newKeyword true) = "fulltext" /\
  str_Copy (newTextField true) = "fulltext".
Proof.
  split; [intros; apply addField_excluded; assumption|].
  split; [intros; apply addField_kept; assumption|].
  split; [|split; [|split; [|repeat split]]].
  - intros name. unfold ES.newMessageFields.
    destruct (decide (name = "fulltext")) as [->|Hf].
    { rewrite lookup_insert_eq. split; [tauto|]. intros _. eexists; reflexivity. }
    rewrite lookup_insert_ne by congruence.
    destruct (decide (name = "@timestamp")) as [->|Ht].
    { rewrite lookup_insert_eq. split; [tauto|]. intros _. eexists; reflexivity. }
    rewrite lookup_insert_ne by congruence.
    rewrite fold_addField_lookup, lookup_empty.
    split.
    + intros [[x Hx]|H]; [discriminate|tauto].
    + intros [H|[H|H]]; [contradiction|contradiction|tauto].
  - unfold ES.newMessageFields.
    rewrite lookup_insert_ne by discriminate. apply lookup_insert_eq.
  - unfold ES.newMessageFields. apply lookup_insert_eq.
Qed.

End MappingFacts.

(** The mapping of the sample: "X-Custom" is left out because
    "x-custom" is excluded; the host gets the multi-field, the status
    its guessed type. *)
Lemma newMessageFields_excludes_and_implicit_witness :
  ES.excluded sample_excludes (ToLower_ascii "X-Custom") = true /\
  ES.excluded sample_excludes (ToLower_ascii "sc-status") = false /\
  ES.newMessageFields ToLower_ascii sample_GuessType sample_fieldNames sample_excludes
    !! "X-Custom" = None /\
  is_Some (ES.newMessageFields ToLower_ascii sample_GuessType sample_fieldNames
             sample_excludes !! "sc-status") /\
  ES.newMessageFields ToLower_ascii sample_GuessType sample_fieldNames sample_excludes
    !! "cs-host" = Some (ES.EsMulti ES.newMulti).
Proof.
  destruct (newMessageFields_excludes_and_implicit ToLower_ascii sample_GuessType
              sample_fieldNames sample_excludes) as (_ & _ & Hdom & _).
  split; [reflexivity|]. split; [reflexivity|]. split; [|split].
  - apply eq_None_not_Some. intros H. apply Hdom in H.
    destruct H as [H|[H|[_ H]]]; discriminate.
  - apply Hdom. right. right. split; [|reflexivity].
    apply list_elem_of_In. simpl. tauto.
  - vm_compute. reflexivity.
Defined.

(** ** The line count returned by uploadPG *)

Lemma count64_small k : Z.of_nat k < 2 ^ 63 -> count64 k = Z.of_nat k.
Proof.
  unfold count64. induction k as [|k IH]; intros Hk; [reflexivity|].
  rewrite Nat.iter_succ, IH by lia. unfold add64.
  rewrite int64_in_range by (unfold in_int64; lia). lia.
Qed.

Section CountFacts.
Import Buffer Upload.

Variable Date_IsZero : Date -> bool.
Variable Time_IsZero : Time -> bool.
Variable Unidecode : string -> string.
Variable GuessType : string -> Kind.
Variable pgKey : string -> string.
Variable tableName : string.
Variable p : Parser.
Variable c : Sink.

Lemma counts_ret {A} (a : A) : counts (fun n => n) (ret a).
Proof. intros st. reflexivity. Qed.

Lemma counts_get : counts (fun n => n) get.
Proof. intros st. reflexivity. Qed.

Lemma counts_lift {A} (o : outcome A) : counts (fun n => n) (lift o).
Proof. intros st. destruct o; simpl; trivial. Qed.

Lemma counts_modify (g : State -> State) f :
  (forall st, nbLines (g st) = f (nbLines st)) -> counts f (modify g).
Proof. intros H st. simpl. apply H. Qed.

Lemma counts_return {A} f s e :
  s <> AtEnd -> counts f (return_ (A := A) s 0 (Some e)).
Proof. intros Hs st. simpl. repeat split; [assumption|discriminate]. Qed.

Lemma counts_bind {A B} f g (m : M A) (k : A -> M B) :
  counts f m -> (forall a, counts g (k a)) -> counts (fun n => g (f n)) (bind m k).
Proof.
  intros Hm Hk st. unfold bind. specialize (Hm st).
  destruct (m st) as [a st'| |]; [|assumption|trivial].
  specialize (Hk a st'). destruct (k a st'); [|assumption|trivial].
  rewrite Hk, Hm. reflexivity.
Qed.

Ltac counts_step :=
  first
    [ apply counts_ret | apply counts_get | apply counts_lift
    | apply counts_return; discriminate
    | apply counts_modify; intros; reflexivity
    | apply (counts_bind (fun n => n) (fun n => n)); [|intros ?] ].

Lemma counts_conn_CopyFrom columnNames s :
  counts (fun n => n) (conn_CopyFrom tableName c columnNames s).
Proof. unfold conn_CopyFrom. repeat counts_step. Qed.

Lemma counts_uploadRows columnNames :
  counts (fun n => n) (uploadRows tableName c columnNames).
Proof.
  unfold uploadRows. counts_step; [counts_step|].
  destruct (Len (factory a) =? 0); [counts_step|].
  destruct (GetSource (factory a)); [counts_step|].
  counts_step; [apply counts_conn_CopyFrom|].
  destruct a0; repeat counts_step.
Qed.

Lemma counts_factory_GetRow : counts (fun n => n) factory_GetRow.
Proof.
  unfold factory_GetRow. counts_step; [counts_step|].
  counts_step; [counts_step|]. destruct a0 as [[f row] full]. repeat counts_step.
Qed.

Lemma counts_row_AddField row v : counts (fun n => n) (row_AddField row v).
Proof.
  unfold row_AddField. destruct row as [i|]; [|counts_step].
  counts_step; [counts_step|].
  destruct (rows (factory a) !! i) as [r|]; [|counts_step].
  destruct (AddField r v). repeat counts_step.
Qed.

Lemma counts_uuid_NewV1 : counts (fun n => n) (uuid_NewV1 c).
Proof. unfold uuid_NewV1. repeat counts_step. Qed.

Lemma counts_addField types name row line :
  counts (fun n => n)
    (addField Date_IsZero Time_IsZero Unidecode c types name row line).
Proof.
  unfold addField. destruct (String.eqb name "id").
  - counts_step; [apply counts_uuid_NewV1|]. destruct a as [uuid [e|]]; [counts_step|].
    counts_step; [apply counts_row_AddField|]. destruct a; counts_step.
  - counts_step; [counts_step|].
    counts_step; [apply counts_row_AddField|]. destruct a0; counts_step.
Qed.

Lemma counts_addFields types names row line :
  counts (fun n => n)
    (addFields Date_IsZero Time_IsZero Unidecode c types names row line).
Proof.
  induction names as [|name names IH]; simpl; [counts_step|].
  counts_step; [apply counts_addField|apply IH].
Qed.

Lemma counts_perLine curFieldNames columnNames types line :
  counts (fun n => add64 n 1)
    (perLine Date_IsZero Time_IsZero Unidecode tableName c
             curFieldNames columnNames types line).
Proof.
  unfold perLine.
  apply (counts_bind (fun n => n) (fun n => add64 n 1)); [apply counts_factory_GetRow|].
  intros [row full].
  apply (counts_bind (fun n => n) (fun n => add64 n 1)).
  - destruct full; [|counts_step].
    counts_step; [apply counts_uploadRows|].
    destruct a; [counts_step|]. counts_step; [apply counts_factory_GetRow|counts_step].
  - intros row'.
    apply (counts_bind (fun n => add64 n 1) (fun n => n)).
    + apply counts_modify. intros; reflexivity.
    + intros _. apply counts_addFields.
Qed.

Lemma counts_forLines curFieldNames columnNames types lines :
  counts (fun n => Nat.iter (length lines) (fun n => add64 n 1) n)
    (forLines Date_IsZero Time_IsZero Unidecode tableName c
              curFieldNames columnNames types lines).
Proof.
  induction lines as [|line lines IH]; simpl forLines.
  - apply counts_ret.
  - intros st.
    pose proof (counts_bind _ _ _ _
                  (counts_perLine curFieldNames columnNames types line)
                  (fun _ => IH) st) as H.
    destruct (bind _ _ st); [|assumption|trivial].
    rewrite H. simpl length. rewrite Nat.iter_succ_r. reflexivity.
Qed.

End CountFacts.

(** ** The rows a flush carries *)

Section CursorFacts.
Import Buffer Upload.

Lemma drain_from fuel (r : Rows) (k : nat) acc :
  (1 <= fuel)%nat -> (length (rows r) <= k + fuel)%nat ->
  drain fuel {| src_r := r; idx := Z.of_nat k |} acc
    = Some (Ret (acc ++ map fields (drop (S k) (rows r)))%list).
Proof.
  revert k acc. induction fuel as [|fuel IH]; intros k acc Hf Hlen; [lia|].
  simpl drain. unfold Source_Next. simpl src_r. simpl idx. unfold Len.
  destruct (Z.ltb_spec (Z.of_nat k + 1) (Z.of_nat (length (rows r)))) as [Hlt|Hge].
  - unfold Source_Values. simpl idx. simpl src_r.
    destruct (Z.ltb_spec (Z.of_nat k + 1) 0) as [|_]; [lia|].
    replace (Z.to_nat (Z.of_nat k + 1)) with (S k) by lia.
    destruct (rows r !! S k) as [row|] eqn:Er.
    + replace (Z.of_nat k + 1) with (Z.of_nat (S k)) by lia.
      rewrite IH by lia.
      rewrite (drop_S _ _ _ Er). simpl map. rewrite <- app_assoc. reflexivity.
    + apply lookup_ge_None in Er. lia.
  - rewrite drop_ge by lia. simpl. rewrite app_nil_r. reflexivity.
Qed.

Lemma drain_fuel (r : Rows) :
  drain (S (length (rows r))) {| src_r := r; idx := 0 |} [] <> None.
Proof. rewrite (drain_from _ r O) by lia. discriminate. Qed.

(** The cursor GetSource makes stands on row 0, and Next steps off it
    before the first Values: what pgx reads from it is the batch
    without its first row. *)
Lemma pgx_stream_skips_first_row (r : Rows) :
  pgx_stream {| src_r := r; idx := 0 |} = Ret (map fields (tail (rows r))).
Proof.
  unfold pgx_stream. simpl src_r. rewrite (drain_from _ r O) by lia.
  simpl. destruct (rows r); reflexivity.
Qed.

End CursorFacts.

(** ** The cadence of the flushes *)

Lemma line_step_closed B L :
  1 <= B ->
  exists (q : nat) (m : Z),
    Nat.iter L (line_step B) (0, []) = (m, repeat (B - 1) q) /\
    ((L = O /\ m = 0 /\ q = O) \/
     (1 <= m <= B /\ Z.of_nat L = Z.of_nat q * B + m)).
Proof.
  intros HB. induction L as [|L IH].
  - exists O, 0. split; [reflexivity|]. left. repeat split.
  - destruct IH as (q & m & Hit & Hcase). rewrite Nat.iter_succ, Hit. unfold line_step.
    destruct (Z.ltb_spec m B) as [Hlt|Hge].
    + exists q, (m + 1). split; [reflexivity|]. right. lia.
    + exists (S q), 1. split.
      * f_equal. simpl repeat. symmetry. apply repeat_cons.
      * right. lia.
Qed.

Lemma map_pred_repeat B (q : nat) : map Z.pred (repeat B q) = repeat (B - 1) q.
Proof.
  induction q as [|q IH]; simpl; [reflexivity|]. rewrite IH. f_equal; lia.
Qed.

Lemma batch_sizes_closed B L (q : nat) m :
  1 <= m <= B -> L = Z.of_nat q * B + m ->
  map Z.pred (batch_sizes L B) = (repeat (B - 1) q ++ [m - 1])%list.
Proof.
  intros Hm HL. unfold batch_sizes.
  destruct (Z.eq_dec m B) as [->|Hne].
  - assert (Hd : L / B = Z.of_nat (S q)) by (symmetry; apply (Z.div_unique L B _ 0); lia).
    assert (Hr : L mod B = 0) by (symmetry; apply (Z.mod_unique L B (Z.of_nat (S q)) 0); lia).
    rewrite Hd, Hr, Nat2Z.id. simpl (0 =? 0). rewrite app_nil_r.
    rewrite map_pred_repeat. simpl repeat. apply repeat_cons.
  - assert (Hd : L / B = Z.of_nat q) by (symmetry; apply (Z.div_unique L B _ m); lia).
    assert (Hr : L mod B = m) by (symmetry; apply (Z.mod_unique L B (Z.of_nat q) m); lia).
    rewrite Hd, Hr, Nat2Z.id.
    destruct (Z.eqb_spec m 0); [lia|].
    rewrite map_app, map_pred_repeat. simpl. unfold Z.pred. do 2 f_equal; lia.
Qed.

Lemma length_batch_sizes B L :
  1 <= B -> 0 <= L -> Z.of_nat (length (batch_sizes L B)) = (L + B - 1) / B.
Proof.
  intros HB HL. unfold batch_sizes. rewrite length_app, repeat_length.
  pose proof (Z.div_mod L B ltac:(lia)) as Hdm.
  pose proof (Z.mod_pos_bound L B ltac:(lia)) as Hmb.
  pose proof (Z.div_pos L B HL ltac:(lia)) as Hdp.
  destruct (Z.eqb_spec (L mod B) 0) as [Hz|Hnz]; simpl length.
  - apply (Z.div_unique _ B _ (B - 1)); lia.
  - apply (Z.div_unique _ B _ (L mod B - 1)); lia.
Qed.

Section FlushFacts.
Import Buffer Upload.

Variable Date_IsZero : Date -> bool.
Variable Time_IsZero : Time -> bool.
Variable Unidecode : string -> string.
Variable tableName : string.
Variable c : Sink.
Variable curFieldNames columnNames : list string.
Variable types : gmap string Kind.
Variables B N : Z.

Hypothesis HB : 1 <= B.
Hypothesis HN : N = Z.of_nat (length curFieldNames).
Hypothesis Huuid : forall k, snd (NewV1 c k) = None.
Hypothesis Hcopy : forall k, CopyFrom_err c k = None.

Local Abbreviation fits :=
  (converts Date_IsZero Time_IsZero Unidecode (types_at types)).
Local Abbreviation addField := (Upload.addField Date_IsZero Time_IsZero Unidecode c types).
Local Abbreviation addFields := (Upload.addFields Date_IsZero Time_IsZero Unidecode c types).
Local Abbreviation uploadRows := (Upload.uploadRows tableName c columnNames).
Local Abbreviation perLine :=
  (Upload.perLine Date_IsZero Time_IsZero Unidecode tableName c
                  curFieldNames columnNames types).
Local Abbreviation forLines :=
  (Upload.forLines Date_IsZero Time_IsZero Unidecode tableName c
                   curFieldNames columnNames types).

Lemma bind_Cont {A C} (m : M A) (k : A -> M C) st a st' :
  m st = Cont a st' -> bind m k st = k a st'.
Proof. unfold bind. intros ->. reflexivity. Qed.

Lemma set_rows_same (f : Rows) : set_rows f (rows f) = f.
Proof. destruct f; reflexivity. Qed.

Lemma row_AddField_room st i row v :
  rows (factory st) !! i = Some row ->
  (length (fields row) < rcap row)%nat ->
  exists st',
    row_AddField (Some i) v st = Cont None st' /\
    factory st' = set_rows (factory st)
                    (<[i := {| fields := fields row ++ [v]; rcap := rcap row |}]>
                       (rows (factory st))) /\
    nbLines st' = nbLines st /\ copies st' = copies st.
Proof.
  intros Hi Hlt. unfold row_AddField, bind, get, modify, ret. rewrite Hi.
  unfold AddField. destruct (Nat.ltb_spec (length (fields row)) (rcap row)); [|lia].
  eexists. split; [reflexivity|]. repeat split.
Qed.

Lemma addField_room name st i row line :
  rows (factory st) !! i = Some row ->
  (length (fields row) < rcap row)%nat ->
  (String.eqb name "id" = false ->
   Conv.pgConvert Date_IsZero Time_IsZero Unidecode (types_at types name) (line name)
     <> Panic) ->
  exists v st',
    addField name (Some i) line st = Cont tt st' /\
    factory st' = set_rows (factory st)
                    (<[i := {| fields := fields row ++ [v]; rcap := rcap row |}]>
                       (rows (factory st))) /\
    nbLines st' = nbLines st /\ copies st' = copies st.
Proof.
  intros Hi Hlt Hconv. unfold Upload.addField.
  destruct (String.eqb name "id").
  - unfold uuid_NewV1.
    pose proof (Huuid (uuids st)) as Hu.
    destruct (NewV1 c (uuids st)) as [u e] eqn:Eu. simpl in Hu. subst e.
    destruct (row_AddField_room (set_uuids (S (uuids st)) st) i row (VBytes u) Hi Hlt)
      as (st' & Hr & Hf & Hn & Hc).
    exists (VBytes u), st'. split; [|repeat split; assumption].
    unfold bind at 1. unfold bind at 1. unfold get, modify, ret. simpl.
    rewrite Eu. unfold bind at 1. simpl in Hr. rewrite Hr. reflexivity.
  - specialize (Hconv eq_refl).
    destruct (Conv.pgConvert _ _ _ _ _) as [v|] eqn:Ev; [|contradiction].
    destruct (row_AddField_room st i row v Hi Hlt) as (st' & Hr & Hf & Hn & Hc).
    exists v, st'. split; [|repeat split; assumption].
    unfold bind at 1. unfold lift. unfold bind at 1. rewrite Hr. reflexivity.
Qed.

Lemma addFields_room names st i row line :
  rows (factory st) !! i = Some row ->
  (length (fields row) + length names <= rcap row)%nat ->
  fits names line ->
  exists vs st',
    addFields names (Some i) line st = Cont tt st' /\
    length vs = length names /\
    factory st' = set_rows (factory st)
                    (<[i := {| fields := fields row ++ vs; rcap := rcap row |}]>
                       (rows (factory st))) /\
    nbLines st' = nbLines st /\ copies st' = copies st.
Proof.
  revert st row. induction names as [|name names IH]; intros st row Hi Hlen Hconv.
  - exists [], st. split; [reflexivity|]. split; [reflexivity|].
    split; [|split; reflexivity].
    rewrite app_nil_r. destruct row as [fs cp]. simpl.
    rewrite list_insert_id by exact Hi. symmetry. apply set_rows_same.
  - apply Forall_cons in Hconv as [Hname Hrest]. simpl length in Hlen.
    destruct (addField_room name st i row line Hi ltac:(lia) Hname)
      as (v & st1 & H1 & Hf1 & Hn1 & Hc1).
    assert (Hi1 : rows (factory st1) !! i
                  = Some {| fields := fields row ++ [v]; rcap := rcap row |}).
    { rewrite Hf1. simpl. apply list_lookup_insert_eq. eapply lookup_lt_Some, Hi. }
    destruct (IH st1 _ Hi1) as (vs & st2 & H2 & Hl2 & Hf2 & Hn2 & Hc2).
    { simpl. rewrite length_app. simpl. lia. }
    { exact Hrest. }
    exists (v :: vs), st2. split.
    { simpl Upload.addFields. rewrite (bind_Cont _ _ _ _ _ H1). exact H2. }
    split; [simpl; lia|]. split; [|split; congruence].
    rewrite Hf2, Hf1. simpl. rewrite list_insert_insert_eq.
    rewrite <- app_assoc. reflexivity.
Qed.

Lemma factory_GetRow_full st :
  maxSize (factory st) <= Z.of_nat (length (rows (factory st))) ->
  exists st',
    factory_GetRow st = Cont (None, true) st' /\
    factory st' = factory st /\ nbLines st' = nbLines st /\ copies st' = copies st.
Proof.
  intros Hfull. unfold factory_GetRow, bind, get, lift, GetRow.
  destruct (Z.ltb_spec (Z.of_nat (length (rows (factory st)))) (maxSize (factory st)));
    [lia|].
  eexists. split; [reflexivity|]. repeat split.
Qed.

Lemma factory_GetRow_room st :
  Z.of_nat (length (rows (factory st))) < maxSize (factory st) ->
  nbFields (factory st) = N ->
  Forall (fun row => Z.of_nat (rcap row) = N) (pool (factory st)) ->
  exists row p st',
    factory_GetRow st = Cont (Some (length (rows (factory st))), false) st' /\
    factory st' = set_pool (set_rows (factory st) (rows (factory st) ++ [row])) p /\
    fields row = [] /\ Z.of_nat (rcap row) = N /\
    Forall (fun row => Z.of_nat (rcap row) = N) p /\
    nbLines st' = nbLines st /\ copies st' = copies st.
Proof.
  intros Hroom Hnb Hpool. unfold factory_GetRow, bind, get, lift, GetRow.
  destruct (Z.ltb_spec (Z.of_nat (length (rows (factory st)))) (maxSize (factory st)));
    [|lia].
  unfold pool_Get, pool_New. destruct (pool (factory st)) as [|x q] eqn:Ep.
  - destruct (Z.ltb_spec (nbFields (factory st)) 0); [lia|].
    eexists _, _, _. split; [reflexivity|]. simpl.
    split; [reflexivity|]. split; [reflexivity|]. split; [simpl; lia|].
    split; [constructor|]. split; reflexivity.
  - apply Forall_cons in Hpool as [Hx Hq].
    eexists _, _, _. split; [reflexivity|]. simpl.
    split; [reflexivity|]. split; [reflexivity|]. split; [assumption|].
    split; [assumption|]. split; reflexivity.
Qed.

Lemma fold_put_caps (l p : list Row) :
  Forall (fun row => Z.of_nat (rcap row) = N) l ->
  Forall (fun row => Z.of_nat (rcap row) = N) p ->
  Forall (fun row => Z.of_nat (rcap row) = N) (fold_left (fun p row => row :: p) l p).
Proof.
  revert p. induction l as [|x l IH]; intros p Hl Hp; simpl; [assumption|].
  apply Forall_cons in Hl as [Hx Hl]. apply IH; [assumption|]. constructor; assumption.
Qed.

Lemma uploadRows_empty st :
  rows (factory st) = [] -> uploadRows st = Cont None st.
Proof.
  intros He. unfold Upload.uploadRows, bind, get, Len. rewrite He. reflexivity.
Qed.

(** A flush of a batch of [m] rows: CopyFrom is called once, with
    [m - 1] rows, and the batch is emptied. *)
Lemma uploadRows_flush m sizes nl st :
  loop_state B N m sizes nl st -> 1 <= m ->
  exists st',
    uploadRows st = Cont None st' /\
    loop_state B N 0 (sizes ++ [m - 1]) nl st'.
Proof.
  intros (Hmax & Hnb & Hlen & Hrows & Hpool & Hsizes & Herrs & Hnl) Hm.
  unfold Upload.uploadRows. unfold bind at 1. unfold get at 1. unfold Len.
  destruct (Z.eqb_spec (Z.of_nat (length (rows (factory st)))) 0); [lia|].
  rewrite GetSource_ok.
  2:{ eapply Forall_impl; [exact Hrows|]. intros row [Hl _]. rewrite Hnb. exact Hl. }
  unfold conn_CopyFrom, bind, lift, get, modify, ret.
  rewrite pgx_stream_skips_first_row, Hcopy.
  eexists. split; [reflexivity|].
  unfold loop_state. simpl.
  split; [exact Hmax|]. split; [exact Hnb|]. split; [reflexivity|].
  split; [constructor|]. split.
  { apply fold_put_caps; [|exact Hpool].
    eapply Forall_impl; [exact Hrows|]. intros row [_ Hc]. exact Hc. }
  split.
  { rewrite map_app, Hsizes. simpl. do 2 f_equal.
    rewrite length_map. destruct (rows (factory st)); simpl in *; lia. }
  split; [|exact Hnl].
  apply Forall_app. split; [exact Herrs|]. repeat constructor.
Qed.

(** One line: a row is checked out (after a flush when the batch is
    full), the line is counted and the row is filled. *)
Lemma perLine_loop_state m sizes nl st line :
  loop_state B N m sizes nl st -> 0 <= m <= B ->
  fits curFieldNames line ->
  exists st',
    perLine line st = Cont tt st' /\
    loop_state B N (fst (line_step B (m, sizes))) (snd (line_step B (m, sizes)))
               (add64 nl 1) st'.
Proof.
  intros Hst Hm Hfit. unfold Upload.perLine, line_step.
  assert (Hfill : forall st1 m1 sizes1,
             loop_state B N m1 sizes1 nl st1 -> 0 <= m1 < B ->
             exists st',
               bind factory_GetRow
                 (fun x => bind (ret (fst x))
                    (fun row =>
                       bind (modify (fun st => set_nbLines (add64 (nbLines st) 1) st))
                         (fun _ => addFields curFieldNames row line))) st1
               = Cont tt st' /\
               loop_state B N (m1 + 1) sizes1 (add64 nl 1) st').
  { intros st1 m1 sizes1 (Hmax & Hnb & Hlen & Hrows & Hpool & Hsizes & Herrs & Hnl) Hm1.
    destruct (factory_GetRow_room st1) as (row & p & st2 & Hg & Hf2 & Hfr & Hcr & Hp & Hn2 & Hc2);
      [lia|exact Hnb|exact Hpool|].
    rewrite (bind_Cont _ _ _ _ _ Hg). simpl fst.
    unfold bind at 1. unfold ret at 1. unfold bind at 1. unfold modify at 1.
    set (st3 := set_nbLines (add64 (nbLines st2) 1) st2).
    assert (Hi : rows (factory st3) !! length (rows (factory st1)) = Some row).
    { subst st3. simpl. rewrite Hf2. simpl. apply list_lookup_middle. reflexivity. }
    destruct (addFields_room curFieldNames st3 _ row line Hi) as (vs & st4 & Ha & Hlv & Hf4 & Hn4 & Hc4).
    { rewrite Hfr. simpl. lia. }
    { exact Hfit. }
    exists st4. split; [exact Ha|].
    unfold loop_state. rewrite Hf4. subst st3. simpl. rewrite Hf2. simpl.
    rewrite Hfr. simpl.
    rewrite insert_app_r_alt by lia. rewrite Nat.sub_diag. simpl.
    split; [exact Hmax|]. split; [exact Hnb|].
    split; [rewrite length_app; simpl; lia|].
    split.
    { apply Forall_app. split; [exact Hrows|]. repeat constructor; simpl; lia. }
    split; [exact Hp|].
    split; [rewrite Hc4; simpl; rewrite Hc2; exact Hsizes|].
    split; [rewrite Hc4; simpl; rewrite Hc2; exact Herrs|].
    rewrite Hn4. simpl. rewrite Hn2, Hnl. reflexivity. }
  destruct (Z.ltb_spec m B) as [Hlt|Hge].
  - destruct (Hfill st m sizes Hst ltac:(lia)) as (st' & Hrun & Hst').
    exists st'. split; [|exact Hst'].
    destruct Hst as (Hmax & Hnb & Hlen & Hrows & Hpool & _).
    destruct (factory_GetRow_room st) as (row & p & st2 & Hg & _);
      [lia|exact Hnb|exact Hpool|].
    rewrite (bind_Cont _ _ _ _ _ Hg).
    rewrite (bind_Cont _ _ _ _ _ Hg) in Hrun. exact Hrun.
  - assert (m = B) by lia. subst m.
    pose proof Hst as (Hmax & Hnb & Hlen & _).
    destruct (factory_GetRow_full st) as (st1 & Hg & Hf1 & Hn1 & Hc1); [lia|].
    rewrite (bind_Cont _ _ _ _ _ Hg).
    assert (Hst1 : loop_state B N B sizes nl st1).
    { unfold loop_state in *. rewrite Hf1, Hn1, Hc1. exact Hst. }
    destruct (uploadRows_flush B sizes nl st1 Hst1 HB) as (st2 & Hu & Hst2).
    unfold bind at 1. unfold bind at 1. rewrite Hu.
    destruct (Hfill st2 0 (sizes ++ [B - 1])%list Hst2 ltac:(lia)) as (st' & Hrun & Hst').
    exists st'. split; [|exact Hst'].
    unfold bind at 1 in Hrun. unfold bind at 1.
    destruct (factory_GetRow st2) as [x stx| |]; try discriminate Hrun.
    exact Hrun.
Qed.

Lemma forLines_loop_state lines m sizes nl st :
  loop_state B N m sizes nl st -> 0 <= m <= B ->
  Forall (fits curFieldNames) lines ->
  exists st',
    forLines lines st = Cont tt st' /\
    loop_state B N (fst (Nat.iter (length lines) (line_step B) (m, sizes)))
               (snd (Nat.iter (length lines) (line_step B) (m, sizes)))
               (Nat.iter (length lines) (fun n => add64 n 1) nl) st' /\
    0 <= fst (Nat.iter (length lines) (line_step B) (m, sizes)) <= B.
Proof.
  revert m sizes nl st. induction lines as [|line lines IH];
    intros m sizes nl st Hst Hm Hfit.
  - exists st. split; [reflexivity|]. split; [exact Hst|exact Hm].
  - apply Forall_cons in Hfit as [Hline Hrest].
    destruct (perLine_loop_state m sizes nl st line Hst Hm Hline) as (st1 & H1 & Hst1).
    assert (Hm1 : 0 <= fst (line_step B (m, sizes)) <= B).
    { unfold line_step. destruct (Z.ltb_spec m B); simpl; lia. }
    destruct (IH _ _ _ _ Hst1 Hm1 Hrest) as (st2 & H2 & Hst2 & Hm2).
    exists st2. simpl length. rewrite !Nat.iter_succ_r.
    destruct (line_step B (m, sizes)) as [m1 sizes1] eqn:Es. simpl in *.
    split; [|split; assumption].
    rewrite (bind_Cont _ _ _ _ _ H1). exact H2.
Qed.

End FlushFacts.

Lemma types_at_guess (GuessType : string -> Kind) names (m0 : gmap string Kind) name :
  name ∈ names ->
  Upload.types_at (fold_left (fun m n => <[n := GuessType n]> m) names m0) name
    = GuessType name.
Proof.
  unfold Upload.types_at.
  assert (H : forall names (m0 : gmap string Kind),
             fold_left (fun m n => <[n := GuessType n]> m) names m0 !! name
             = if decide (name ∈ names) then Some (GuessType name) else m0 !! name).
  { clear. intros names. induction names as [|a l IH]; intros m0; simpl.
    - destruct (decide (name ∈ [])) as [Hin|_]; [inversion Hin|reflexivity].
    - rewrite IH. destruct (decide (name ∈ l)) as [Hl|Hl].
      + rewrite decide_True by (right; exact Hl). reflexivity.
      + destruct (decide (name = a)) as [->|Hne].
        * rewrite decide_True by left. apply lookup_insert_eq.
        * rewrite decide_False by (intros Hin; inversion Hin; subst; contradiction).
          apply lookup_insert_ne. congruence. }
  intros Hin. rewrite H, decide_True by exact Hin. reflexivity.
Qed.

(** Five lines in batches of two: the calls carry the rows of lines 2
    and 4 and, for the last batch of one row, nothing; the rows of
    lines 1, 3 and 5 are not sent. *)
Example uploadPG_5_lines_by_2 :
  run_summary (n_uploadPG (n_parser 5) good_sink 2)
    = Some (Upload.AtEnd, 5, None, [[2]; [4]; []]).
Proof. vm_compute. reflexivity. Qed.

(** C1 on the code: when nothing fails, uploadPG returns from its
    last statement with the count of the lines, and CopyFrom is called
    once per batch of the file, ceil(L/B) times in all; but each call
    carries one row less than its batch holds. *)
Theorem uploadPG_flush_cadence
    (Date_IsZero : Date -> bool) (Time_IsZero : Time -> bool)
    (Unidecode : string -> string) (GuessType : string -> Kind)
    (pgKey : string -> string) (tableName : string)
    (p : Upload.Parser) (c : Upload.Sink) (bsize : Z) :
  1 <= bsize ->
  Upload.ParseHeader p = None ->
  Upload.Acquire c = None ->
  (forall k, snd (Upload.NewV1 c k) = None) ->
  (forall k, Upload.CopyFrom_err c k = None) ->
  Forall (converts Date_IsZero Time_IsZero Unidecode GuessType (columns_of p))
         (Upload.Lines p) ->
  exists st,
    Upload.uploadPG Date_IsZero Time_IsZero Unidecode GuessType pgKey tableName p c bsize
      = Upload.Returned Upload.AtEnd (count64 (length (Upload.Lines p)))
                        (Upload.Exec_VACUUM c) st /\
    Z.of_nat (length (Upload.copies st))
      = (Z.of_nat (length (Upload.Lines p)) + bsize - 1) / bsize /\
    map (fun cc => Z.of_nat (length (Upload.cc_rows cc))) (Upload.copies st)
      = map Z.pred (batch_sizes (Z.of_nat (length (Upload.Lines p))) bsize) /\
    Forall (fun cc => Upload.cc_err cc = None) (Upload.copies st).
Proof.
  intros HB Hh Ha Huuid Hcopy Hfit.
  unfold Upload.uploadPG. rewrite Hh, Ha.
  change (if negb (Upload.HasGmtTime p) then "gmttime" :: Upload.FieldNames p
          else Upload.FieldNames p)
    with (tail (columns_of p)).
  change ("id" :: tail (columns_of p)) with (columns_of p).
  set (names := columns_of p) in *.
  set (types := fold_left (fun m name => <[name := GuessType name]> m) names ∅).
  set (N := Z.of_nat (length names)).
  unfold Buffer.RowFactory. destruct (Z.ltb_spec bsize 0) as [|_]; [lia|].
  set (f0 := {| Buffer.pool := []; Buffer.maxSize := bsize; Buffer.nbFields := N;
                Buffer.rows := [] |}).
  assert (Hfit' : Forall (converts Date_IsZero Time_IsZero Unidecode
                            (Upload.types_at types) names) (Upload.Lines p)).
  { eapply Forall_impl; [exact Hfit|]. intros line Hline. unfold converts in *.
    apply Forall_forall. intros name Hin. subst types.
    rewrite types_at_guess by exact Hin.
    exact (proj1 (Forall_forall _ _) Hline name Hin). }
  assert (H0 : loop_state bsize N 0 [] 0 (Upload.init_state f0 [])).
  { unfold loop_state. simpl. repeat split; constructor. }
  destruct (forLines_loop_state Date_IsZero Time_IsZero Unidecode tableName c names
              (map pgKey names) types bsize N HB eq_refl Huuid Hcopy
              (Upload.Lines p) 0 [] 0 _ H0 ltac:(lia) Hfit')
    as (st1 & Hrun & Hst1 & Hm1).
  destruct (line_step_closed bsize (length (Upload.Lines p)) HB)
    as (q & m & Hit & Hcase).
  rewrite Hit in Hst1, Hm1. simpl fst in *. simpl snd in *.
  rewrite (bind_Cont _ _ _ _ _ Hrun).
  destruct Hcase as [(HL & -> & ->)|(Hm & HL)].
  - assert (Hrows : Buffer.rows (Upload.factory st1) = []).
    { destruct Hst1 as (_ & _ & Hlen & _).
      destruct (Buffer.rows (Upload.factory st1)); [reflexivity|simpl in Hlen; lia]. }
    unfold Upload.bind. rewrite uploadRows_empty by exact Hrows. simpl.
    destruct Hst1 as (_ & _ & _ & _ & _ & Hsizes & Herrs & Hnl).
    exists st1. split; [rewrite Hnl; reflexivity|].
    rewrite HL. simpl Z.of_nat.
    simpl in Hsizes. apply map_eq_nil in Hsizes. rewrite Hsizes.
    split; [simpl; symmetry; apply Z.div_small; lia|].
    split; [|constructor].
    unfold batch_sizes. rewrite Z.div_0_l, Zmod_0_l by lia. reflexivity.
  - destruct (uploadRows_flush tableName c names (map pgKey names) bsize N Hcopy
                m _ _ st1 Hst1 ltac:(lia)) as (st2 & Hu & Hst2).
    unfold Upload.bind. rewrite Hu. simpl.
    destruct Hst2 as (_ & _ & _ & _ & _ & Hsizes & Herrs & Hnl).
    exists st2. split; [rewrite Hnl; reflexivity|].
    assert (Hs : map (fun cc => Z.of_nat (length (Upload.cc_rows cc))) (Upload.copies st2)
                 = map Z.pred (batch_sizes (Z.of_nat (length (Upload.Lines p))) bsize)).
    { rewrite Hsizes. symmetry. apply batch_sizes_closed; assumption. }
    split; [|split; [exact Hs|exact Herrs]].
    rewrite <- (length_map (fun cc => Z.of_nat (length (Upload.cc_rows cc)))), Hs, length_map.
    apply length_batch_sizes; lia.
Qed.

Lemma n_parser_length L : length (Upload.Lines (n_parser L)) = L.
Proof. simpl. rewrite length_map, length_seq. reflexivity. Qed.

Lemma n_parser_fits L :
  Forall (converts Date_IsZero0 Time_IsZero0 (fun s => s) n_GuessType
            (columns_of (n_parser L)))
         (Upload.Lines (n_parser L)).
Proof.
  simpl Upload.Lines. generalize (seq 1 L). intros l.
  induction l as [|k l IH]; simpl; constructor; [|exact IH].
  unfold converts. repeat constructor; [discriminate|].
  intros _. discriminate.
Qed.

(** The file of 12000 lines with a batch size of 5000: three CopyFrom
    calls and a count of 12000, but 4999, 4999 and 1999 rows carried,
    not 5000, 5000 and 2000. *)
Lemma uploadPG_12000_lines_by_5000 :
  (1 <= 5000 /\ Upload.ParseHeader (n_parser (Z.to_nat 12000)) = None /\
   Upload.Acquire good_sink = None) /\
  exists st,
    n_uploadPG (n_parser (Z.to_nat 12000)) good_sink 5000
      = Upload.Returned Upload.AtEnd 12000 None st /\
    Z.of_nat (length (Upload.copies st)) = 3 /\
    map (fun cc => Z.of_nat (length (Upload.cc_rows cc))) (Upload.copies st)
      = [4999; 4999; 1999] /\
    batch_sizes 12000 5000 = [5000; 5000; 2000].
Proof.
  split; [split; [lia|split; reflexivity]|].
  destruct (uploadPG_flush_cadence Date_IsZero0 Time_IsZero0 (fun s => s) n_GuessType
              (fun s => s) "accesslogs" (n_parser (Z.to_nat 12000)) good_sink 5000)
    as (st & Hrun & Hlen & Hsizes & _).
  - lia.
  - reflexivity.
  - reflexivity.
  - intros k. reflexivity.
  - intros k. reflexivity.
  - apply n_parser_fits.
  - rewrite n_parser_length in Hrun, Hlen, Hsizes.
    rewrite count64_small in Hrun by lia.
    rewrite Z2Nat.id in Hrun, Hlen, Hsizes by lia.
    exists st. split; [exact Hrun|]. split; [exact Hlen|]. split; [exact Hsizes|].
    reflexivity.
Defined.

(** * Further properties *)

(** ** The repaired text is valid UTF-8 *)

Section RepairFacts.
Import Charset.

Lemma one_sequence_valid s r :
  one_sequence s = true -> ValidString (s ++ r) = ValidString r.
Proof.
  destruct s as [|c1 [|c2 rest]]; try discriminate.
  unfold one_sequence. simpl append. simpl ValidString.
  destruct (byte_val c1 <? RuneSelf); [discriminate|]. simpl negb. simpl andb.
  destruct (first (byte_val c1)) as [[[size lo] hi]|]; [|discriminate].
  destruct (between lo hi c2); [|discriminate]. simpl.
  destruct rest as [|c3 [|c4 rest]]; try discriminate.
  - intros ->. reflexivity.
  - destruct (Nat.eqb_spec size 3) as [->|]; [|discriminate]. simpl.
    intros ->. reflexivity.
Qed.

Lemma iso_char_one_sequence (c : ascii) :
  (byte_val c <? RuneSelf) = false ->
  one_sequence (EncodeRune (iso8859_15_rune (byte_val c))) = true.
Proof.
  destruct c as [[] [] [] [] [] [] [] []]; intros H;
    first [discriminate H | vm_compute; reflexivity].
Qed.

Lemma ValidString_iso_char (c : ascii) (r : string) :
  ValidString
    (if byte_val c <? RuneSelf then String c r
     else EncodeRune (iso8859_15_rune (byte_val c)) ++ r)
  = ValidString r.
Proof.
  destruct (byte_val c <? RuneSelf) eqn:E.
  - simpl. rewrite E. reflexivity.
  - apply one_sequence_valid, iso_char_one_sequence, E.
Qed.

Lemma iso_transform_valid s : ValidString (iso_transform s) = true.
Proof.
  induction s as [|c r IH]; [reflexivity|].
  simpl iso_transform.
  pose proof (ValidString_iso_char c (iso_transform r)) as H.
  destruct (byte_val c <? RuneSelf); rewrite H; exact IH.
Qed.

(** X6: whatever the input, the repaired text is valid UTF-8, and
    repairing it again changes nothing. *)
Theorem decodeCharset_output_valid_utf8 (Unidecode : string -> string) (s : string) :
  ValidString (decodeCharset Unidecode s) = true /\
  decodeCharset Unidecode (decodeCharset Unidecode s) = decodeCharset Unidecode s.
Proof.
  assert (Hv : ValidString (decodeCharset Unidecode s) = true).
  { unfold decodeCharset. destruct (ValidString s) eqn:E; [exact E|].
    simpl. apply iso_transform_valid. }
  split; [exact Hv|].
  unfold decodeCharset at 1. rewrite Hv. reflexivity.
Qed.

End RepairFacts.

(** ** Which conversions panic *)

Section PanicFacts.

Variable Date_IsZero : Date -> bool.
Variable Time_IsZero : Time -> bool.
Variable Unidecode : string -> string.

Local Abbreviation pgConvert := (Conv.pgConvert Date_IsZero Time_IsZero Unidecode).

(** X5: a conversion panics exactly when the value is not nil and its
    dynamic type is not the one the Kind asserts; and a conversion
    that returns never returns the nil interface. *)
Theorem pgConvert_panics_on_type_mismatch (t : Kind) (v : value) :
  (pgConvert t v = Panic <-> v <> VNil /\ kind_accepts t v = false) /\
  (forall w, pgConvert t v = Ret w -> w <> VNil).
Proof.
  split.
  - split.
    + intros H. split.
      * intros ->. discriminate H.
      * destruct t, v; simpl in *; try reflexivity; try discriminate H;
          repeat match goal with
                 | H : context [if ?b then _ else _] |- _ => destruct b
                 end; discriminate H.
    + intros [Hn Ha].
      destruct t, v; simpl in *; try reflexivity; try discriminate Ha; contradiction.
  - intros w H.
    destruct t, v; simpl in H;
      repeat match goal with
             | H : context [if ?b then _ else _] |- _ => destruct b
             end;
      try discriminate H; injection H as <-; discriminate.
Qed.

End PanicFacts.

Lemma pgConvert_panics_on_type_mismatch_witness :
  (VString "12" <> VNil /\ kind_accepts Int64 (VString "12") = false) /\
  Conv.pgConvert Date_IsZero0 Time_IsZero0 (fun s => s) Int64 (VString "12") = Panic.
Proof.
  assert (H : VString "12" <> VNil /\ kind_accepts Int64 (VString "12") = false).
  { split; [discriminate|reflexivity]. }
  split; [exact H|].
  apply (proj2 (proj1 (pgConvert_panics_on_type_mismatch Date_IsZero0 Time_IsZero0
                         (fun s => s) Int64 (VString "12")))).
  exact H.
Defined.

(** ** The encoding of a time of day, read back *)

Section EncodeInjective.
Import Conv.

Lemma EncodeBinary_value (t : Time) (buf : list Z) :
  clock_time t ->
  EncodeBinary (Some t) buf
    = (Some (AppendUint64 buf
               (Hour t * 3600000000 + Minute t * 60000000 + Second t * 1000000
                + Z.quot (Nanosecond t) 1000)), None) /\
  0 <= Hour t * 3600000000 + Minute t * 60000000 + Second t * 1000000
       + Z.quot (Nanosecond t) 1000 < 86400000000 /\
  0 <= Z.quot (Nanosecond t) 1000 < 1000000.
Proof.
  intros (Hh & Hm & Hs & Hn).
  assert (Hq : 0 <= Z.quot (Nanosecond t) 1000 < 1000000).
  { rewrite Z.quot_div_nonneg by lia. split.
    - apply Z.div_pos; lia.
    - apply Z.div_lt_upper_bound; lia. }
  split; [|split; [lia|exact Hq]].
  unfold EncodeBinary, AppendInt64, mul64, quo64,
    usecsPerHour, usecsPerMinute, usecsPerSec, nanosecsPerUsec.
  rewrite !add64_int64.
  rewrite (int64_in_range (Hour t)), (int64_in_range (Minute t)),
    (int64_in_range (Second t)), (int64_in_range (Nanosecond t))
    by (unfold in_int64; lia).
  rewrite int64_in_range by (unfold in_int64; lia).
  unfold uint64. rewrite Z.mod_small by lia. reflexivity.
Qed.

Lemma AppendUint64_inj buf n1 n2 :
  0 <= n1 < 2 ^ 64 -> 0 <= n2 < 2 ^ 64 ->
  AppendUint64 buf n1 = AppendUint64 buf n2 -> n1 = n2.
Proof.
  intros H1 H2 He. unfold AppendUint64 in He. apply app_inv_head in He.
  rewrite <- (be_value_bytes n1 H1), <- (be_value_bytes n2 H2), He. reflexivity.
Qed.

(** X4: a nil pointer encodes to nothing, without error; and two clock
    times have the same encoding exactly when they agree on the hour,
    the minute, the second and the microsecond: what is below the
    microsecond is dropped, nothing else is. *)
Theorem EncodeBinary_injective_to_the_microsecond (t1 t2 : Time) (buf : list Z) :
  clock_time t1 -> clock_time t2 ->
  EncodeBinary None buf = (None, None) /\
  (EncodeBinary (Some t1) buf = EncodeBinary (Some t2) buf <->
   Hour t1 = Hour t2 /\ Minute t1 = Minute t2 /\ Second t1 = Second t2 /\
   Z.quot (Nanosecond t1) 1000 = Z.quot (Nanosecond t2) 1000).
Proof.
  intros Hc1 Hc2. split; [reflexivity|].
  destruct (EncodeBinary_value t1 buf Hc1) as (E1 & Hr1 & Hq1).
  destruct (EncodeBinary_value t2 buf Hc2) as (E2 & Hr2 & Hq2).
  destruct Hc1 as (Hh1 & Hm1 & Hs1 & _). destruct Hc2 as (Hh2 & Hm2 & Hs2 & _).
  rewrite E1, E2. split.
  - intros [= He]. apply AppendUint64_inj in He; lia.
  - intros (-> & -> & -> & ->). reflexivity.
Qed.

End EncodeInjective.

Lemma EncodeBinary_injective_to_the_microsecond_witness :
  (clock_time sample_time /\
   clock_time {| Hour := 13; Minute := 37; Second := 42; Nanosecond := 123456001 |}) /\
  Conv.EncodeBinary (Some sample_time) []
    = Conv.EncodeBinary
        (Some {| Hour := 13; Minute := 37; Second := 42; Nanosecond := 123456001 |}) [].
Proof.
  assert (H1 : clock_time sample_time) by (unfold clock_time; simpl; lia).
  assert (H2 : clock_time {| Hour := 13; Minute := 37; Second := 42;
                             Nanosecond := 123456001 |})
    by (unfold clock_time; simpl; lia).
  split; [split; assumption|].
  apply (proj2 (proj2 (EncodeBinary_injective_to_the_microsecond _ _ [] H1 H2))).
  repeat split.
Defined.

(** ** The pool of rows *)

Section PoolFacts.
Import Buffer.

Lemma reslice0_cap (nb : Z) (x : Row) :
  Z.of_nat (rcap x) = nb -> reslice0 x = {| fields := []; rcap := Z.to_nat nb |}.
Proof. intros <-. unfold reslice0. rewrite Nat2Z.id. reflexivity. Qed.

(** The row GetRow appends does not depend on what the pool holds, as
    long as the pool holds rows of capacity [nbFields]. *)
Lemma GetRow_room (r : Rows) :
  0 <= nbFields r ->
  Forall (fun row => Z.of_nat (rcap row) = nbFields r) (pool r) ->
  Z.of_nat (length (rows r)) < maxSize r ->
  exists p',
    GetRow r = Ret ({| pool := p'; maxSize := maxSize r; nbFields := nbFields r;
                       rows := rows r ++ [ {| fields := [];
                                              rcap := Z.to_nat (nbFields r) |} ] |},
                    Some (length (rows r)), false).
Proof.
  intros Hnb Hpool Hroom. unfold GetRow.
  destruct (Z.ltb_spec (Z.of_nat (length (rows r))) (maxSize r)); [|lia].
  unfold pool_Get, pool_New. destruct (pool r) as [|x q].
  - destruct (Z.ltb_spec (nbFields r) 0); [lia|]. exists []. reflexivity.
  - apply Forall_cons in Hpool as [Hx _]. exists q.
    rewrite (reslice0_cap _ _ Hx). reflexivity.
Qed.

(** X1: Clear empties the batch, keeps its two sizes, and leaves in
    the pool only rows of capacity [nbFields].  sync.Pool may drop any
    of the rows it holds: whichever of them are left, GetRow returns
    the same row index and the same flag and leaves the same rows in
    the batch.  So the checkout that follows a Clear gets row 0, empty
    and of capacity [nbFields], whether the pool reuses a row or makes
    a new one. *)
Theorem Clear_then_GetRow_any_pool (r : Rows) :
  batch r ->
  (Len (Clear r) = 0 /\ maxSize (Clear r) = maxSize r /\
   nbFields (Clear r) = nbFields r /\
   Forall (fun row => Z.of_nat (rcap row) = nbFields r) (pool (Clear r))) /\
  (forall p, sublist p (pool r) ->
     exists r1 r2 i full,
       GetRow r = Ret (r1, i, full) /\ GetRow (set_pool r p) = Ret (r2, i, full) /\
       rows r2 = rows r1 /\ maxSize r2 = maxSize r1 /\ nbFields r2 = nbFields r1) /\
  (1 <= maxSize r ->
   forall p, sublist p (pool (Clear r)) ->
     exists p',
       GetRow (set_pool (Clear r) p)
         = Ret ({| pool := p'; maxSize := maxSize r; nbFields := nbFields r;
                   rows := [ {| fields := []; rcap := Z.to_nat (nbFields r) |} ] |},
                Some O, false)).
Proof.
  intros Hb. destruct (batch_wf r Hb) as (Hnb & Hlen & Hpool & Hrows).
  split; [|split].
  - pose proof (batch_wf _ (batch_Clear r Hb)) as (_ & _ & Hpool' & _).
    split; [reflexivity|]. split; [reflexivity|]. split; [reflexivity|exact Hpool'].
  - intros p Hp.
    pose proof (batch_wf _ (batch_pool_drop r p Hb Hp)) as (_ & _ & Hpoolp & _).
    destruct (Z.lt_ge_cases (Z.of_nat (length (rows r))) (maxSize r)) as [Hroom|Hfull].
    + destruct (GetRow_room r Hnb Hpool Hroom) as [p1 H1].
      destruct (GetRow_room (set_pool r p) Hnb Hpoolp Hroom) as [p2 H2].
      eexists _, _, _, _. split; [exact H1|]. split; [exact H2|].
      split; [reflexivity|]. split; reflexivity.
    + exists r, (set_pool r p), None, true. unfold GetRow. simpl.
      destruct (Z.ltb_spec (Z.of_nat (length (rows r))) (maxSize r)); [lia|].
      split; [reflexivity|]. split; [reflexivity|]. split; [reflexivity|].
      split; reflexivity.
  - intros Hm p Hp.
    pose proof (batch_wf _ (batch_pool_drop _ p (batch_Clear r Hb) Hp))
      as (_ & _ & Hpoolp & _).
    destruct (GetRow_room (set_pool (Clear r) p) Hnb Hpoolp) as [p' H].
    { simpl. lia. }
    exists p'. exact H.
Qed.

End PoolFacts.

Lemma Clear_then_GetRow_any_pool_witness :
  batch short_batch /\ 1 <= Buffer.maxSize short_batch /\
  sublist [] (Buffer.pool (Buffer.Clear short_batch)) /\
  exists p',
    Buffer.GetRow (Buffer.set_pool (Buffer.Clear short_batch) [])
      = Ret ({| Buffer.pool := p'; Buffer.maxSize := 2; Buffer.nbFields := 3;
                Buffer.rows := [ {| Buffer.fields := []; Buffer.rcap := 3 |} ] |},
             Some O, false).
Proof.
  assert (Hm : 1 <= Buffer.maxSize short_batch) by (simpl; lia).
  assert (Hs : sublist [] (Buffer.pool (Buffer.Clear short_batch)))
    by apply sublist_nil_l.
  split; [exact short_batch_batch|]. split; [exact Hm|]. split; [exact Hs|].
  exact (proj2 (proj2 (Clear_then_GetRow_any_pool short_batch short_batch_batch)) Hm [] Hs).
Defined.

(** ** More on the row buffer *)

Section MoreBufferFacts.
Import Buffer.

Lemma AddField_all_full (r : Row) (vs : list value) :
  (rcap r <= length (fields r))%nat ->
  AddField_all r vs
    = (r, map (fun _ => Some (ErrTooManyFields (Z.of_nat (rcap r)))) vs).
Proof.
  intros Hfull. induction vs as [|v vs IH]; [reflexivity|].
  simpl. unfold AddField.
  destruct (Nat.ltb_spec (length (fields r)) (rcap r)); [lia|].
  rewrite IH. reflexivity.
Qed.

(** X2: values appended one after the other to a row are accepted, in
    order, as long as the row has room; every further one is refused
    with the capacity error and changes nothing.  The row never holds
    more values than its capacity. *)
Theorem AddField_fills_to_capacity (r : Row) (vs : list value) :
  (length (fields r) <= rcap r)%nat ->
  let room := (rcap r - length (fields r))%nat in
  AddField_all r vs
    = ({| fields := fields r ++ take room vs; rcap := rcap r |},
       (repeat None (min room (length vs))
        ++ repeat (Some (ErrTooManyFields (Z.of_nat (rcap r)))) (length vs - room))%list).
Proof.
  revert r. induction vs as [|v vs IH]; intros r Hle room.
  - simpl. rewrite take_nil, app_nil_r, Nat.min_0_r. destruct r; reflexivity.
  - simpl AddField_all. unfold AddField.
    destruct (Nat.ltb_spec (length (fields r)) (rcap r)) as [Hlt|Hge].
    + rewrite IH by (simpl; rewrite length_app; simpl; lia).
      simpl fields. simpl rcap. rewrite length_app. simpl length.
      destruct room as [|room'] eqn:Er; [lia|].
      replace (rcap r - (length (fields r) + 1))%nat with room' by lia.
      simpl. rewrite <- app_assoc. reflexivity.
    + assert (room = O) by lia.
      pose proof (AddField_all_full r vs Hge) as Hall.
      destruct (AddField_all r vs) as [r'' es]. injection Hall as -> ->.
      replace room with O by lia. simpl. rewrite app_nil_r.
      destruct r as [fs cp]; simpl. f_equal. f_equal.
      clear. induction vs as [|? vs IH]; simpl; [reflexivity|]. rewrite IH. reflexivity.
Qed.

(** X3: a cursor is read by calling Next and then Values.  Values
    after a Next that returned true never panics; the loop ends after
    as many calls of Next as the batch has rows; and what it reads
    from the cursor GetSource returns is the batch without its first
    row, as GetSource leaves the cursor on row 0 and Next moves before
    Values reads.  Reading Values without Next gives row 0, and
    panics on an empty batch. *)
Theorem cursor_reads_after_next (r : Rows) :
  (forall s, 0 <= idx s -> snd (Source_Next s) = true ->
             exists row, rows (src_r s) !! Z.to_nat (idx s + 1) = Some row /\
                         Source_Values (fst (Source_Next s)) = Ret (fields row, None)) /\
  (forall fuel, (length (rows r) <= fuel)%nat -> (1 <= fuel)%nat ->
     Upload.drain fuel {| src_r := r; idx := 0 |} []
       = Some (Ret (map fields (tail (rows r))))) /\
  Upload.pgx_stream {| src_r := r; idx := 0 |} = Ret (map fields (tail (rows r))) /\
  Source_Values {| src_r := r; idx := 0 |}
    = match rows r with
      | [] => Panic
      | row :: _ => Ret (fields row, None)
      end.
Proof.
  split; [|split; [|split]].
  - intros s Hs. unfold Source_Next, Len. simpl.
    destruct (Z.ltb_spec (idx s + 1) (Z.of_nat (length (rows (src_r s))))) as [Hlt|];
      [|discriminate].
    intros _. unfold Source_Values. simpl.
    destruct (Z.ltb_spec (idx s + 1) 0); [lia|].
    destruct (rows (src_r s) !! Z.to_nat (idx s + 1)) as [row|] eqn:E.
    + exists row. split; reflexivity.
    + apply lookup_ge_None in E. lia.
  - intros fuel Hf H1.
    pose proof (drain_from fuel r O [] ltac:(lia) ltac:(lia)) as H.
    change (Z.of_nat 0) with 0 in H. rewrite H. simpl.
    destruct (rows r); reflexivity.
  - unfold Upload.pgx_stream. simpl src_r.
    rewrite (drain_from _ r O []) by lia. simpl. destruct (rows r); reflexivity.
  - unfold Source_Values. simpl. destruct (rows r); reflexivity.
Qed.

End MoreBufferFacts.

Lemma AddField_fills_to_capacity_witness :
  (length (Buffer.fields {| Buffer.fields := [VInt64 1]; Buffer.rcap := 2 |}) <= 2)%nat /\
  AddField_all {| Buffer.fields := [VInt64 1]; Buffer.rcap := 2 |}
               [VInt64 2; VInt64 3; VInt64 4]
    = ({| Buffer.fields := [VInt64 1; VInt64 2]; Buffer.rcap := 2 |},
       [None; Some (ErrTooManyFields 2); Some (ErrTooManyFields 2)]).
Proof.
  split; [simpl; lia|].
  rewrite (AddField_fills_to_capacity {| Buffer.fields := [VInt64 1]; Buffer.rcap := 2 |}
             [VInt64 2; VInt64 3; VInt64 4]) by (simpl; lia).
  reflexivity.
Defined.

Lemma cursor_reads_after_next_witness :
  (0 <= Buffer.idx {| Buffer.src_r := short_batch; Buffer.idx := 0 |} /\
   snd (Buffer.Source_Next {| Buffer.src_r := short_batch; Buffer.idx := 0 |}) = true) /\
  exists row,
    Buffer.rows short_batch !! 1%nat = Some row /\
    Buffer.Source_Values
      (fst (Buffer.Source_Next {| Buffer.src_r := short_batch; Buffer.idx := 0 |}))
    = Ret (Buffer.fields row, None).
Proof.
  split; [split; [simpl; lia|reflexivity]|].
  apply (proj1 (cursor_reads_after_next short_batch)
           {| Buffer.src_r := short_batch; Buffer.idx := 0 |}).
  - simpl. lia.
  - reflexivity.
Defined.

(** ** More on the Elasticsearch mapping *)

Section MoreMappingFacts.
Import ES.

Variable ToLower : string -> string.
Variable GuessType : string -> Kind.

Local Abbreviation addField := (ES.addField ToLower GuessType).
Local Abbreviation newMessageFields := (ES.newMessageFields ToLower GuessType).

Lemma addField_descriptor excludes (fields : gmap string anyEsField) name :
  addField excludes fields name
    = if excluded excludes (ToLower name) then fields
      else <[name := descriptor GuessType name]> fields.
Proof.
  unfold ES.addField, descriptor.
  destruct (excluded excludes (ToLower name)); [reflexivity|].
  repeat match goal with
         | |- context [if ?b then _ else _] => destruct b
         end; try reflexivity.
  destruct (GuessType name); reflexivity.
Qed.

Lemma fold_addField_descriptor excludes names (fields : gmap string anyEsField) k :
  fold_left (addField excludes) names fields !! k
    = if decide (k ∈ names /\ excluded excludes (ToLower k) = false)
      then Some (descriptor GuessType k) else fields !! k.
Proof.
  revert fields. induction names as [|name names IH]; intros fields; cbn [fold_left].
  - destruct (decide (k ∈ [] /\ excluded excludes (ToLower k) = false)) as [[H _]|_];
      [inversion H|reflexivity].
  - rewrite IH, addField_descriptor.
    destruct (decide (k ∈ names /\ excluded excludes (ToLower k) = false)) as [[Hin He]|Hn].
    + rewrite decide_True; [reflexivity|]. split; [right; exact Hin|exact He].
    + destruct (decide (k = name)) as [->|Hne].
      * destruct (excluded excludes (ToLower name)) eqn:He.
        -- rewrite decide_False; [reflexivity|]. intros [_ H]. discriminate.
        -- rewrite decide_True by (split; [left|reflexivity]). apply lookup_insert_eq.
      * assert (Hk : ¬ (k ∈ name :: names /\ excluded excludes (ToLower k) = false)).
        { intros [Hin He]. apply Hn. split; [|exact He].
          inversion Hin; subst; [contradiction|assumption]. }
        rewrite decide_False by exact Hk.
        destruct (excluded excludes (ToLower name)); [reflexivity|].
        apply lookup_insert_ne. congruence.
Qed.

Lemma newMessageFields_lookup_eq (l : list string) (excludes : gmap string bool) name :
  newMessageFields l excludes !! name
    = if decide (name = "fulltext") then Some (EsStr fulltextField)
      else if decide (name = "@timestamp") then Some (EsDatetime newDatetimeField)
      else if decide (name ∈ l /\ excluded excludes (ToLower name) = false)
           then Some (descriptor GuessType name)
           else None.
Proof.
  unfold ES.newMessageFields.
  destruct (decide (name = "fulltext")) as [->|Hf]; [apply lookup_insert_eq|].
  rewrite lookup_insert_ne by congruence.
  destruct (decide (name = "@timestamp")) as [->|Ht]; [apply lookup_insert_eq|].
  rewrite lookup_insert_ne by congruence.
  rewrite fold_addField_descriptor, lookup_empty. reflexivity.
Qed.

(** X8: what the mapping holds under every name.  "fulltext" and
    "@timestamp" always hold the implicit fields, also when the log has
    a field of that name, which is overwritten; every other name of
    the list that is not excluded holds the descriptor of its name;
    nothing else is in the mapping. *)
Theorem newMessageFields_lookup (fieldNames : list string)
    (excludes : gmap string bool) (name : string) :
  newMessageFields fieldNames excludes !! name
    = if decide (name = "fulltext") then Some (EsStr fulltextField)
      else if decide (name = "@timestamp") then Some (EsDatetime newDatetimeField)
      else if decide (name ∈ fieldNames /\ excluded excludes (ToLower name) = false)
           then Some (descriptor GuessType name)
           else None.
Proof. apply newMessageFields_lookup_eq. Qed.

(** X9: the mapping depends on which names the list holds, not on
    their order nor on how often they occur. *)
Theorem newMessageFields_order_irrelevant (l1 l2 : list string)
    (excludes : gmap string bool) :
  (forall name, name ∈ l1 <-> name ∈ l2) ->
  newMessageFields l1 excludes = newMessageFields l2 excludes.
Proof.
  intros Hsame. apply map_eq. intros name.
  rewrite !newMessageFields_lookup_eq.
  destruct (decide (name = "fulltext")); [reflexivity|].
  destruct (decide (name = "@timestamp")); [reflexivity|].
  destruct (decide (name ∈ l1 /\ excluded excludes (ToLower name) = false)) as [[H1 He]|H1].
  - rewrite decide_True; [reflexivity|]. split; [apply Hsame; exact H1|exact He].
  - rewrite decide_False; [reflexivity|]. intros [H2 He]. apply H1.
    split; [apply Hsame; exact H2|exact He].
Qed.

Lemma descriptor_copy_stored name :
  (copy_to (descriptor GuessType name) = "" \/
   copy_to (descriptor GuessType name) = "fulltext") /\
  stored (descriptor GuessType name) = true.
Proof.
  unfold descriptor.
  repeat match goal with
         | |- context [if ?b then _ else _] => destruct b
         end; try (split; [right; reflexivity|reflexivity]).
  destruct (GuessType name); simpl; split;
    first [reflexivity | left; reflexivity | right; reflexivity].
Qed.

(** X10: every field of the mapping that copies somewhere copies to
    "fulltext", which is always a field of the mapping and copies
    nowhere itself; and "fulltext" is the only field that is not
    stored. *)
Theorem newMessageFields_copy_targets (fieldNames : list string)
    (excludes : gmap string bool) (name : string) (d : anyEsField) :
  newMessageFields fieldNames excludes !! name = Some d ->
  (copy_to d = "" \/
   (copy_to d = "fulltext" /\ name <> "fulltext" /\
    exists t, newMessageFields fieldNames excludes !! "fulltext" = Some t /\
              copy_to t = "")) /\
  (stored d = false <-> name = "fulltext").
Proof.
  rewrite newMessageFields_lookup_eq.
  destruct (decide (name = "fulltext")) as [->|Hf].
  { intros [= <-]. split; [left; reflexivity|]. split; reflexivity. }
  destruct (decide (name = "@timestamp")) as [->|Ht].
  { intros [= <-]. split; [left; reflexivity|]. split; [discriminate|contradiction]. }
  destruct (decide (name ∈ fieldNames /\ excluded excludes (ToLower name) = false));
    [|discriminate].
  intros [= <-]. destruct (descriptor_copy_stored name) as [[Hc|Hc] Hs].
  - split; [left; exact Hc|]. rewrite Hs. split; [discriminate|contradiction].
  - split.
    + right. split; [exact Hc|]. split; [exact Hf|].
      exists (EsStr fulltextField). split; [|reflexivity].
      rewrite newMessageFields_lookup_eq. rewrite decide_True by reflexivity. reflexivity.
    + rewrite Hs. split; [discriminate|contradiction].
Qed.

End MoreMappingFacts.

Lemma newMessageFields_order_irrelevant_witness :
  (forall name, name ∈ ["cs-host"; "sc-status"; "cs-host"]
                <-> name ∈ ["sc-status"; "cs-host"]) /\
  ES.newMessageFields ToLower_ascii sample_GuessType ["cs-host"; "sc-status"; "cs-host"]
                      sample_excludes
    = ES.newMessageFields ToLower_ascii sample_GuessType ["sc-status"; "cs-host"]
                          sample_excludes.
Proof.
  assert (H : forall name, name ∈ ["cs-host"; "sc-status"; "cs-host"]
                           <-> name ∈ ["sc-status"; "cs-host"]).
  { intros name. rewrite !elem_of_cons. rewrite !elem_of_nil. tauto. }
  split; [exact H|].
  apply (newMessageFields_order_irrelevant ToLower_ascii sample_GuessType _ _ _ H).
Defined.

Lemma newMessageFields_copy_targets_witness :
  ES.newMessageFields ToLower_ascii sample_GuessType sample_fieldNames sample_excludes
    !! "cs-host" = Some (ES.EsMulti ES.newMulti) /\
  copy_to (ES.EsMulti ES.newMulti) = "fulltext" /\
  (stored (ES.EsMulti ES.newMulti) = false <-> "cs-host" = "fulltext").
Proof.
  assert (H : ES.newMessageFields ToLower_ascii sample_GuessType sample_fieldNames
                sample_excludes !! "cs-host" = Some (ES.EsMulti ES.newMulti))
    by (vm_compute; reflexivity).
  split; [exact H|]. split; [reflexivity|].
  exact (proj2 (newMessageFields_copy_targets ToLower_ascii sample_GuessType
                  sample_fieldNames sample_excludes "cs-host" _ H)).
Defined.

(** ** What push2es commits *)

Lemma batch_sizes_bounds L B :
  1 <= B -> 0 <= L -> Forall (fun x => 1 <= x <= B) (batch_sizes L B).
Proof.
  intros HB HL. unfold batch_sizes. apply Forall_app. split.
  - generalize (Z.to_nat (L / B)). intros n.
    induction n as [|n IH]; simpl; constructor; [lia|exact IH].
  - pose proof (Z.mod_pos_bound L B ltac:(lia)).
    destruct (Z.eqb_spec (L mod B) 0); repeat constructor; lia.
Qed.

Section CommitFacts.
Import ES.

Variable TrimSpace : string -> string.
Variable indexName : string.
Variable receiver : nat -> nat.

Local Abbreviation forLines := (ES.forLines indexName receiver).
Local Abbreviation forFiles := (ES.forFiles TrimSpace indexName receiver).
Local Abbreviation proc_Add := (ES.proc_Add receiver).

Lemma same_length_nonempty {A} (l l' : list A) :
  length l' = length l -> l <> [] -> l' <> [].
Proof. intros Hlen Hne ->. destruct l; [contradiction|discriminate Hlen]. Qed.

Lemma alter_snoc_sublist (l : list (list BulkIndexRequest)) i q r :
  Forall (fun w => sublist w q) l ->
  Forall (fun w => sublist w (q ++ [r])%list) (alter (fun w => (w ++ [r])%list) i l).
Proof.
  revert i. induction l as [|x l IH]; intros i Hl; [constructor|].
  apply Forall_cons in Hl as [Hx Hl]. destruct i as [|i]; simpl.
  - constructor.
    + apply sublist_app; [exact Hx|reflexivity].
    + eapply Forall_impl; [exact Hl|]. intros w Hw. apply sublist_inserts_r. exact Hw.
  - constructor; [apply sublist_inserts_r; exact Hx|apply IH; exact Hl].
Qed.

Lemma alter_snoc_concat (l : list (list BulkIndexRequest)) i r :
  (i < length l)%nat ->
  Permutation (concat (alter (fun w => (w ++ [r])%list) i l)) (concat l ++ [r])%list.
Proof.
  revert i. induction l as [|x l IH]; intros i Hi; simpl in Hi; [lia|].
  destruct i as [|i]; simpl.
  - rewrite <- !app_assoc. apply Permutation_app_head, Permutation_app_comm.
  - rewrite <- app_assoc. apply Permutation_app_head, IH. lia.
Qed.

Lemma proc_Add_holds r st q :
  pending st <> [] -> holds st q ->
  holds (proc_Add r st) (q ++ [r])%list /\
  length (pending (proc_Add r st)) = length (pending st) /\
  bulks (proc_Add r st) = bulks st /\ stderr (proc_Add r st) = stderr st.
Proof.
  intros Hw [Hsub Hperm]. unfold ES.proc_Add, holds. simpl.
  split; [split|].
  - apply alter_snoc_sublist. exact Hsub.
  - rewrite alter_snoc_concat.
    + apply Permutation_app_tail. exact Hperm.
    + apply Nat.mod_upper_bound. destruct (pending st); [contradiction|discriminate].
  - split; [apply length_alter|]. split; reflexivity.
Qed.

Lemma fold_worker_flush ws sent : fold_left worker_flush ws sent = (sent ++ live ws)%list.
Proof.
  revert sent. induction ws as [|w ws IH]; intros sent; simpl.
  - rewrite app_nil_r. reflexivity.
  - rewrite IH. unfold worker_flush. destruct (0 <? length w)%nat.
    + rewrite <- app_assoc. reflexivity.
    + reflexivity.
Qed.

Lemma live_facts (ws : list (list BulkIndexRequest)) :
  (length (live ws) <= length ws)%nat /\
  Forall (fun b => b <> [] /\ b ∈ ws) (live ws) /\
  concat (live ws) = concat ws.
Proof.
  induction ws as [|w ws (IH1 & IH2 & IH3)]; simpl; [repeat split; constructor|].
  destruct w as [|x w]; simpl.
  - split; [lia|]. split; [|exact IH3].
    eapply Forall_impl; [exact IH2|]. intros b [Hb Hin]. split; [exact Hb|right; exact Hin].
  - split; [lia|]. split; [|rewrite IH3; reflexivity].
    constructor; [split; [discriminate|left]|].
    eapply Forall_impl; [exact IH2|]. intros b [Hb Hin]. split; [exact Hb|right; exact Hin].
Qed.

Lemma concat_emptied (ws : list (list BulkIndexRequest)) :
  concat (map (fun _ => @nil BulkIndexRequest) ws) = [].
Proof. induction ws; simpl; [reflexivity|assumption]. Qed.

Lemma emptied_sublist (ws : list (list BulkIndexRequest)) :
  Forall (fun w => sublist w (@nil BulkIndexRequest))
         (map (fun _ => @nil BulkIndexRequest) ws).
Proof. induction ws; simpl; constructor; [reflexivity|assumption]. Qed.

(** A flush: every worker that holds requests sends them as one bulk
    request, and every worker is empty afterwards. *)
Lemma proc_Flush_commits st q :
  holds st q ->
  exists group,
    bulks (fst (proc_Flush st)) = (bulks st ++ group)%list /\
    commits (length (pending st)) group q /\
    holds (fst (proc_Flush st)) [] /\
    length (pending (fst (proc_Flush st))) = length (pending st) /\
    stderr (fst (proc_Flush st)) = stderr st /\
    snd (proc_Flush st) = None.
Proof.
  intros [Hsub Hperm]. exists (live (pending st)). unfold proc_Flush. simpl.
  destruct (live_facts (pending st)) as (Hlen & Hall & Hcat).
  split; [apply fold_worker_flush|].
  split; [|split; [|split; [apply length_map|split; reflexivity]]].
  - split; [exact Hlen|]. split; [|rewrite Hcat; exact Hperm].
    eapply Forall_impl; [exact Hall|]. intros b [Hb Hin]. split; [exact Hb|].
    exact (proj1 (Forall_forall _ _) Hsub b Hin).
  - unfold holds. simpl. split; [|rewrite concat_emptied; reflexivity].
    apply emptied_sublist.
Qed.

Lemma forLines_commits lines i st q :
  pending st <> [] -> holds st q ->
  Z.of_nat (length q) = i -> 0 <= i < 1000 ->
  exists i' st' groups chunks q',
    forLines lines i st = inr (i', st') /\
    holds st' q' /\ Z.of_nat (length q') = i' /\ 0 <= i' < 1000 /\
    length (pending st') = length (pending st) /\
    stderr st' = stderr st /\
    bulks st' = (bulks st ++ concat groups)%list /\
    Forall2 (commits (length (pending st))) groups chunks /\
    Forall (fun ch => Z.of_nat (length ch) = 1000) chunks /\
    (concat chunks ++ q' = q ++ requests_of indexName lines)%list.
Proof.
  revert i st q. induction lines as [|l lines IH]; intros i st q Hw Hq Hlen Hi;
    simpl ES.forLines.
  - exists i, st, [], [], q. simpl. rewrite !app_nil_r.
    split; [reflexivity|]. split; [exact Hq|]. split; [exact Hlen|]. split; [exact Hi|].
    split; [reflexivity|]. split; [reflexivity|]. split; [reflexivity|].
    split; [constructor|]. split; [constructor|reflexivity].
  - assert (Ei : add64 i 1 = i + 1).
    { unfold add64. apply int64_in_range. unfold in_int64. lia. }
    rewrite Ei.
    set (req := {| Doc := l; Index := indexName; Type_ := "accesslogs" |}).
    destruct (proc_Add_holds req st q Hw Hq) as (Hq1 & Hl1 & Hb1 & Hs1).
    assert (Hw1 : pending (proc_Add req st) <> [])
      by exact (same_length_nonempty _ _ Hl1 Hw).
    destruct (Z.geb_spec (i + 1) 1000) as [Hge|Hlt].
    + destruct (proc_Flush_commits _ _ Hq1) as (group & Hb2 & Hc2 & Hq2 & Hl2 & Hs2 & He2).
      set (st2 := fst (proc_Flush (proc_Add req st))) in *.
      assert (Hw2 : pending st2 <> [])
        by exact (same_length_nonempty _ _ Hl2 Hw1).
      destruct (IH 0 st2 [] Hw2 Hq2 eq_refl ltac:(lia))
        as (i' & st' & groups & chunks & q' & Hrun & Hq' & Hlen' & Hi' & Hl' & Hs' & Hb'
            & Hall & Hfull & Hcat).
      exists i', st', (group :: groups), ((q ++ [req])%list :: chunks), q'.
      split; [exact Hrun|]. split; [exact Hq'|]. split; [exact Hlen'|]. split; [exact Hi'|].
      split; [congruence|]. split; [congruence|].
      split; [rewrite Hb', Hb2, Hb1; simpl; rewrite <- app_assoc; reflexivity|].
      split.
      { constructor; [rewrite <- Hl1; exact Hc2|]. rewrite <- Hl1, <- Hl2. exact Hall. }
      split; [constructor; [rewrite length_app; simpl; lia|exact Hfull]|].
      simpl concat. rewrite <- !app_assoc. rewrite Hcat. reflexivity.
    + destruct (IH (i + 1) (proc_Add req st) (q ++ [req])%list Hw1 Hq1)
        as (i' & st' & groups & chunks & q' & Hrun & Hq' & Hlen' & Hi' & Hl' & Hs' & Hb'
            & Hall & Hfull & Hcat).
      { rewrite length_app. simpl. lia. }
      { lia. }
      exists i', st', groups, chunks, q'.
      split; [exact Hrun|]. split; [exact Hq'|]. split; [exact Hlen'|]. split; [exact Hi'|].
      split; [congruence|]. split; [congruence|]. split; [congruence|].
      split; [rewrite <- Hl1; exact Hall|]. split; [exact Hfull|].
      rewrite Hcat. simpl. rewrite <- app_assoc. reflexivity.
Qed.

Lemma full_chunks_sizes (chunks : list (list BulkIndexRequest)) :
  Forall (fun b => Z.of_nat (length b) = 1000) chunks ->
  map (fun b => Z.of_nat (length b)) chunks = repeat 1000 (length chunks) /\
  Z.of_nat (length (concat chunks)) = 1000 * Z.of_nat (length chunks).
Proof.
  induction 1 as [|b new Hb _ [IH1 IH2]]; [split; reflexivity|].
  simpl. rewrite Hb, IH1, length_app. split; [reflexivity|]. lia.
Qed.

Lemma holds_nil st : holds st [] <-> Forall (fun w => w = []) (pending st).
Proof.
  unfold holds. split.
  - intros [Hsub _]. eapply Forall_impl; [exact Hsub|].
    intros w Hw. apply sublist_nil_r. exact Hw.
  - intros Hall. split.
    + eapply Forall_impl; [exact Hall|]. intros w ->. reflexivity.
    + induction Hall as [|w ws -> _ IH]; simpl; [constructor|exact IH].
Qed.

(** One file that opens and whose header parses: its requests go out
    in chunks of 1000 and a last smaller one, each chunk split among
    the workers, and the workers are empty at the end. *)
Lemma file_commits f fnames st :
  readable f = true -> pending st <> [] -> holds st [] ->
  exists st' groups chunks,
    forFiles (f :: fnames) st = forFiles fnames st' /\
    holds st' [] /\ length (pending st') = length (pending st) /\
    stderr st' = stderr st /\
    bulks st' = (bulks st ++ concat groups)%list /\
    Forall2 (commits (length (pending st))) groups chunks /\
    concat chunks = requests_of indexName (Lines f) /\
    map (fun b => Z.of_nat (length b)) chunks
      = batch_sizes (Z.of_nat (length (Lines f))) 1000.
Proof.
  intros Hr Hw Hq. unfold readable in Hr. simpl ES.forFiles.
  destruct (Open f); [discriminate|]. destruct (ParseHeader f); [discriminate|].
  destruct (forLines_commits (Lines f) 0 st [] Hw Hq eq_refl ltac:(lia))
    as (i' & st1 & groups & chunks & q' & Hrun & Hq1 & Hlen1 & Hi1 & Hl1 & Hs1 & Hb1
        & Hall & Hfull & Hcat).
  rewrite Hrun. simpl in Hcat.
  destruct (full_chunks_sizes chunks Hfull) as [Hsz Hlen].
  assert (HL : Z.of_nat (length (Lines f)) = 1000 * Z.of_nat (length chunks) + i').
  { rewrite <- Hlen, <- Hlen1, <- Nat2Z.inj_add, <- length_app, Hcat.
    unfold requests_of. rewrite length_map. reflexivity. }
  assert (Hd : Z.of_nat (length (Lines f)) / 1000 = Z.of_nat (length chunks)).
  { symmetry. apply (Z.div_unique _ 1000 _ i'); lia. }
  assert (Hm : Z.of_nat (length (Lines f)) mod 1000 = i').
  { symmetry. apply (Z.mod_unique _ 1000 (Z.of_nat (length chunks)) i'); lia. }
  unfold batch_sizes. rewrite Hd, Hm, Nat2Z.id.
  destruct (Z.gtb_spec i' 0) as [Hpos|Hzero].
  - destruct (proc_Flush_commits _ _ Hq1) as (group & Hb2 & Hc2 & Hq2 & Hl2 & Hs2 & He2).
    set (st2 := fst (proc_Flush st1)) in *.
    exists st2, (groups ++ [group])%list, (chunks ++ [q'])%list.
    split; [reflexivity|]. split; [exact Hq2|]. split; [congruence|]. split; [congruence|].
    split; [rewrite Hb2, Hb1, concat_app; simpl; rewrite app_nil_r, <- app_assoc;
            reflexivity|].
    split; [apply Forall2_app; [exact Hall|constructor; [rewrite <- Hl1; exact Hc2|constructor]]|].
    split; [rewrite concat_app; simpl; rewrite app_nil_r; exact Hcat|].
    rewrite map_app, Hsz. simpl. rewrite Hlen1.
    destruct (Z.eqb_spec i' 0); [lia|reflexivity].
  - assert (Hq0 : q' = []).
    { destruct q'; [reflexivity|simpl in Hlen1; lia]. }
    subst q'. exists st1, groups, chunks.
    split; [reflexivity|]. split; [exact Hq1|]. split; [exact Hl1|]. split; [exact Hs1|].
    split; [exact Hb1|]. split; [exact Hall|].
    split; [rewrite app_nil_r in Hcat; exact Hcat|].
    rewrite Hsz. destruct (Z.eqb_spec i' 0); [|simpl in Hlen1; lia].
    rewrite app_nil_r. reflexivity.
Qed.

(** X11: started with at least one worker and nothing pending, and
    with commits that succeed, push2es runs to the end of its list of
    files and leaves nothing pending.  The requests of the lines of
    the files that open and parse, in order, are cut into chunks of 1
    to 1000 requests, one for each call of Flush, and the bulk
    requests sent are those of the chunks in turn: for each chunk at
    most one bulk request per worker, none empty, each a selection of
    the chunk in the order of the lines, all together every request of
    the chunk once.  Which requests of a chunk travel together is the
    choice of the scheduler.  The chunks of one file are of 1000
    requests, followed by one with the remainder if there is one. *)
Theorem push2es_commits_every_request (fnames : list FileEnv) (st : State) :
  pending st <> [] -> Forall (fun w => w = []) (pending st) ->
  (exists st' groups chunks,
     forFiles fnames st = Completed st' /\
     Forall (fun w => w = []) (pending st') /\
     bulks st' = (bulks st ++ concat groups)%list /\
     Forall2 (commits (length (pending st))) groups chunks /\
     concat chunks
       = requests_of indexName (concat (map Lines (filter (fun f => readable f = true) fnames))) /\
     Forall (fun ch => 1 <= Z.of_nat (length ch) <= 1000) chunks) /\
  (forall f rest,
     readable f = true ->
     exists st' groups chunks,
       forFiles (f :: rest) st = forFiles rest st' /\
       bulks st' = (bulks st ++ concat groups)%list /\
       Forall2 (commits (length (pending st))) groups chunks /\
       concat chunks = requests_of indexName (Lines f) /\
       map (fun b => Z.of_nat (length b)) chunks
         = batch_sizes (Z.of_nat (length (Lines f))) 1000).
Proof.
  intros Hw Hq. apply holds_nil in Hq. split.
  - revert st Hw Hq. induction fnames as [|f fnames IH]; intros st Hw Hq.
    + exists st, [], []. simpl. rewrite app_nil_r.
      split; [reflexivity|]. split; [apply holds_nil; exact Hq|]. split; [reflexivity|].
      split; [constructor|]. split; [reflexivity|constructor].
    + destruct (readable f) eqn:Hr.
      * destruct (file_commits f fnames st Hr Hw Hq)
          as (st1 & groups1 & chunks1 & Hrun & Hq1 & Hl1 & _ & Hb1 & Hall1 & Hcat1 & Hsz1).
        assert (Hw1 : pending st1 <> [])
          by exact (same_length_nonempty _ _ Hl1 Hw).
        destruct (IH st1 Hw1 Hq1) as (st' & groups & chunks & Hrun' & Hq' & Hb' & Hall' & Hcat' & Hbd').
        exists st', (groups1 ++ groups)%list, (chunks1 ++ chunks)%list.
        split; [rewrite Hrun; exact Hrun'|]. split; [exact Hq'|].
        split; [rewrite Hb', Hb1, concat_app, <- app_assoc; reflexivity|].
        split; [apply Forall2_app; [exact Hall1|rewrite <- Hl1; exact Hall']|].
        split.
        -- rewrite filter_cons_True by exact Hr. simpl map. simpl concat.
           rewrite concat_app, Hcat1, Hcat'. unfold requests_of.
           rewrite map_app. reflexivity.
        -- apply Forall_app. split; [|exact Hbd'].
           pose proof (batch_sizes_bounds (Z.of_nat (length (Lines f))) 1000
                         ltac:(lia) ltac:(lia)) as Hbs.
           rewrite <- Hsz1 in Hbs. apply Forall_fmap in Hbs. exact Hbs.
      * assert (Hskip : exists st1, forFiles (f :: fnames) st = forFiles fnames st1 /\
                                    pending st1 = pending st /\ bulks st1 = bulks st).
        { unfold readable in Hr. simpl ES.forFiles.
          destruct (Open f); [eexists; repeat split|].
          destruct (ParseHeader f); [eexists; repeat split|discriminate]. }
        destruct Hskip as (st1 & Hrun & Hp1 & Hb1).
        destruct (IH st1) as (st' & groups & chunks & Hrun' & Hq' & Hb' & Hall' & Hcat' & Hbd').
        { rewrite Hp1. exact Hw. }
        { unfold holds in *. rewrite Hp1. exact Hq. }
        exists st', groups, chunks. split; [rewrite Hrun; exact Hrun'|]. split; [exact Hq'|].
        split; [rewrite Hb', Hb1; reflexivity|].
        split; [rewrite <- Hp1; exact Hall'|]. split; [|exact Hbd'].
        rewrite filter_cons_False by (rewrite Hr; discriminate). exact Hcat'.
  - intros f rest Hr.
    destruct (file_commits f rest st Hr Hw Hq)
      as (st1 & groups & chunks & Hrun & _ & _ & _ & Hb1 & Hall & Hcat & Hsz).
    exists st1, groups, chunks. repeat split; assumption.
Qed.

End CommitFacts.

(** The two sample files, the requests going to the two workers in
    turn. *)
Lemma push2es_commits_every_request_witness :
  (ES.pending es_init <> [] /\ Forall (fun w => w = []) (ES.pending es_init)) /\
  exists st' groups chunks,
    ES.forFiles (fun s => s) "accesslogs" (fun k => k) es_files es_init = Completed st' /\
    Forall (fun w => w = []) (ES.pending st') /\
    ES.bulks st' = (ES.bulks es_init ++ concat groups)%list /\
    Forall2 (commits (length (ES.pending es_init))) groups chunks /\
    concat chunks
      = requests_of "accesslogs"
          (concat (map ES.Lines (filter (fun f => readable f = true) es_files))) /\
    Forall (fun ch => 1 <= Z.of_nat (length ch) <= 1000) chunks.
Proof.
  assert (Hw : ES.pending es_init <> []) by discriminate.
  assert (Hq : Forall (fun w => w = []) (ES.pending es_init)) by (repeat constructor).
  split; [split; [exact Hw|exact Hq]|].
  exact (proj1 (push2es_commits_every_request (fun s => s) "accesslogs" (fun k => k)
                  es_files es_init Hw Hq)).
Defined.

(** Three lines and two workers that receive in turn: the one Flush
    at the end of the file sends two bulk requests, the first with
    the lines 1 and 3, the second with the line 2. *)
Example push2es_two_workers :
  match ES.forFiles (fun s => s) "accesslogs" (fun k => k) [es_three] es_init with
  | Completed st => map (map ES.Doc) (ES.bulks st) = [[n_line 1; n_line 3]; [n_line 2]]
  | _ => False
  end.
Proof. vm_compute. reflexivity. Qed.

(** ** Edges of uploadPG *)

Section EdgeFacts.
Import Buffer Upload.

Variable Date_IsZero : Date -> bool.
Variable Time_IsZero : Time -> bool.
Variable Unidecode : string -> string.
Variable GuessType : string -> Kind.
Variable pgKey : string -> string.
Variable tableName : string.
Variable p : Parser.
Variable c : Sink.

Local Abbreviation uploadPG :=
  (Upload.uploadPG Date_IsZero Time_IsZero Unidecode GuessType pgKey tableName p c).

(** X12: once the header is parsed and the connection acquired, a
    negative batch size makes uploadPG panic before it reads a line; a
    batch size of 0 makes it panic on the first line, on the row
    pointer that is nil, once the id is generated; and a file without
    lines makes no CopyFrom call and returns a count of 0 with the
    result of VACUUM, which is still executed. *)
Theorem uploadPG_batch_size_and_empty_file (bsize : Z) :
  ParseHeader p = None -> Acquire c = None ->
  (bsize < 0 -> uploadPG bsize = Crashed) /\
  (bsize = 0 -> Lines p <> [] -> snd (NewV1 c 0) = None -> uploadPG bsize = Crashed) /\
  (0 <= bsize -> Lines p = [] ->
   exists st, uploadPG bsize = Returned AtEnd 0 (Exec_VACUUM c) st /\ copies st = []).
Proof.
  intros Hh Ha. unfold Upload.uploadPG. rewrite Hh, Ha. unfold RowFactory.
  split; [|split].
  - intros Hneg. destruct (Z.ltb_spec bsize 0); [reflexivity|lia].
  - intros -> Hl Hu. simpl (0 <? 0).
    destruct (Lines p) as [|line lines]; [contradiction|].
    simpl forLines. unfold perLine.
    unfold bind at 1. unfold bind at 1. unfold bind at 1.
    unfold factory_GetRow at 1. unfold bind, get, lift, modify, ret, GetRow. simpl.
    unfold uploadRows, bind, get, ret, Len. simpl.
    unfold addField. simpl String.eqb. cbv iota.
    unfold uuid_NewV1, row_AddField, bind, get, modify, ret, lift. simpl.
    destruct (NewV1 c 0) as [u e]. simpl in Hu. subst e. reflexivity.
  - intros Hb ->. destruct (Z.ltb_spec bsize 0); [lia|].
    eexists. split; [reflexivity|reflexivity].
Qed.

End EdgeFacts.

Lemma uploadPG_batch_size_and_empty_file_witness :
  (Upload.ParseHeader (n_parser 1) = None /\ Upload.Acquire good_sink = None /\
   Upload.Lines (n_parser 1) <> [] /\ snd (Upload.NewV1 good_sink 0) = None) /\
  n_uploadPG (n_parser 1) good_sink 0 = Upload.Crashed /\
  n_uploadPG (n_parser 1) good_sink (-1) = Upload.Crashed.
Proof.
  assert (Hl : Upload.Lines (n_parser 1) <> []) by discriminate.
  split; [repeat split; exact Hl|].
  destruct (uploadPG_batch_size_and_empty_file Date_IsZero0 Time_IsZero0 (fun s => s)
              n_GuessType (fun s => s) "accesslogs" (n_parser 1) good_sink 0
              eq_refl eq_refl) as (_ & H0 & _).
  destruct (uploadPG_batch_size_and_empty_file Date_IsZero0 Time_IsZero0 (fun s => s)
              n_GuessType (fun s => s) "accesslogs" (n_parser 1) good_sink (-1)
              eq_refl eq_refl) as (Hneg & _ & _).
  split; [exact (H0 eq_refl Hl eq_refl)|apply Hneg; lia].
Defined.

(** ** The shape of what uploadPG sends *)

Section ShapeFacts.
Import Buffer Upload.

Variable Date_IsZero : Date -> bool.
Variable Time_IsZero : Time -> bool.
Variable Unidecode : string -> string.
Variable tableName : string.
Variable c : Sink.
Variable curFieldNames columnNames : list string.
Variable types : gmap string Kind.

Local Abbreviation shaped := (shaped tableName columnNames).

Lemma keeps_ret {A} I (a : A) : keeps I (ret a).
Proof. intros st H. exact H. Qed.

Lemma keeps_lift {A} I (o : outcome A) : keeps I (lift o).
Proof. intros st H. destruct o; simpl; trivial. Qed.

Lemma keeps_return {A} I s n e : keeps I (return_ (A := A) s n e).
Proof. intros st H. exact H. Qed.

Lemma keeps_modify (I : State -> Prop) (g : State -> State) :
  (forall st, I st -> I (g st)) -> keeps I (modify g).
Proof. intros Hg st H. simpl. apply Hg, H. Qed.

Lemma keeps_bind {A C} I (m : M A) (k : A -> M C) :
  keeps I m -> (forall a, keeps I (k a)) -> keeps I (bind m k).
Proof.
  intros Hm Hk st H. unfold bind. specialize (Hm st H).
  destruct (m st) as [a st'| |]; [|exact Hm|trivial].
  apply (Hk a st' Hm).
Qed.

Lemma keeps_factory_GetRow : keeps shaped factory_GetRow.
Proof.
  intros st (Hnb & Hc & Hs). unfold factory_GetRow, bind, get, lift, modify, ret.
  destruct (GetRow (factory st)) as [[[f row] full]|] eqn:E; [|trivial].
  simpl. split; [|split; [exact Hc|exact Hs]]. simpl.
  unfold GetRow in E.
  destruct (Z.of_nat (length (rows (factory st))) <? maxSize (factory st)).
  - destruct (pool_Get (factory st)) as [[x q]|]; [|discriminate].
    injection E as <- _ _. exact Hnb.
  - injection E as <- _ _. exact Hnb.
Qed.

Lemma keeps_row_AddField row v : keeps shaped (row_AddField row v).
Proof.
  intros st (Hnb & Hc & Hs). unfold row_AddField.
  destruct row as [i|]; [|simpl; trivial].
  unfold bind, get. destruct (rows (factory st) !! i) as [r|]; [|simpl; trivial].
  destruct (AddField r v) as [r' e]. simpl. repeat split; assumption.
Qed.

Lemma keeps_uploadRows : keeps shaped (uploadRows tableName c columnNames).
Proof.
  intros st (Hnb & Hc & Hs). unfold uploadRows. unfold bind at 1. unfold get at 1.
  destruct (Len (factory st) =? 0); [repeat split; assumption|].
  unfold GetSource.
  destruct (check_rows (nbFields (factory st)) 0 (rows (factory st))) eqn:Ec;
    [repeat split; assumption|].
  apply check_rows_None in Ec.
  unfold conn_CopyFrom, bind, lift, get, modify, ret.
  rewrite pgx_stream_skips_first_row.
  assert (Hnew : well_shaped tableName columnNames
                   {| cc_table := tableName; cc_columns := columnNames;
                      cc_rows := map fields (tail (rows (factory st)));
                      cc_err := CopyFrom_err c (length (copies st)) |}).
  { split; [reflexivity|]. split; [reflexivity|]. simpl.
    apply Forall_fmap. apply Forall_tail.
    eapply Forall_impl; [exact Ec|]. intros row Hrow.
    unfold compose. rewrite Hnb in Hrow. lia. }
  destruct (CopyFrom_err c (length (copies st))); simpl;
    (split; [exact Hnb|split; [|exact Hs]]; apply Forall_app; split; [exact Hc|];
     constructor; [exact Hnew|constructor]).
Qed.

Lemma keeps_addField name row line :
  keeps shaped (addField Date_IsZero Time_IsZero Unidecode c types name row line).
Proof.
  unfold addField. destruct (String.eqb name "id").
  - apply keeps_bind.
    + intros st (H1 & H2 & H3). repeat split; assumption.
    + intros [u [e|]]; [apply keeps_return|].
      apply keeps_bind; [apply keeps_row_AddField|].
      intros [e|]; [apply keeps_return|apply keeps_ret].
  - apply keeps_bind; [apply keeps_lift|]. intros v.
    apply keeps_bind; [apply keeps_row_AddField|].
    intros [e|]; [apply keeps_return|apply keeps_ret].
Qed.

Lemma keeps_addFields names row line :
  keeps shaped (addFields Date_IsZero Time_IsZero Unidecode c types names row line).
Proof.
  induction names as [|name names IH]; simpl; [apply keeps_ret|].
  apply keeps_bind; [apply keeps_addField|]. intros _. exact IH.
Qed.

Lemma keeps_perLine line :
  keeps shaped (perLine Date_IsZero Time_IsZero Unidecode tableName c
                        curFieldNames columnNames types line).
Proof.
  unfold perLine. apply keeps_bind; [apply keeps_factory_GetRow|].
  intros [row full]. apply keeps_bind.
  - destruct full; [|apply keeps_ret].
    apply keeps_bind; [apply keeps_uploadRows|].
    intros [e|]; [apply keeps_return|].
    apply keeps_bind; [apply keeps_factory_GetRow|]. intros x. apply keeps_ret.
  - intros row'. apply keeps_bind.
    + apply keeps_modify. intros st (H1 & H2 & H3). repeat split; assumption.
    + intros _. apply keeps_addFields.
Qed.

Lemma keeps_forLines lines :
  keeps shaped (forLines Date_IsZero Time_IsZero Unidecode tableName c
                         curFieldNames columnNames types lines).
Proof.
  induction lines as [|line lines IH]; simpl; [apply keeps_ret|].
  apply keeps_bind; [apply keeps_perLine|]. intros _. exact IH.
Qed.

End ShapeFacts.

(** X13: whatever the collaborators answer, every CopyFrom call that
    uploadPG makes names the table, the columns of the file in
    order, and rows that all have exactly one value per column. *)
Theorem uploadPG_sends_well_shaped_rows
    (Date_IsZero : Date -> bool) (Time_IsZero : Time -> bool)
    (Unidecode : string -> string) (GuessType : string -> Kind)
    (pgKey : string -> string) (tableName : string)
    (p : Upload.Parser) (c : Upload.Sink) (bsize : Z)
    (s : Upload.site) (n : Z) (err : option error) (st : Upload.State) :
  Upload.uploadPG Date_IsZero Time_IsZero Unidecode GuessType pgKey tableName p c bsize
    = Upload.Returned s n err st ->
  Forall (well_shaped tableName (map pgKey (columns_of p))) (Upload.copies st).
Proof.
  unfold Upload.uploadPG.
  destruct (Upload.ParseHeader p); [intros [= _ _ _ <-]; constructor|].
  destruct (Upload.Acquire c); [intros [= _ _ _ <-]; constructor|].
  change (if negb (Upload.HasGmtTime p) then "gmttime" :: Upload.FieldNames p
          else Upload.FieldNames p)
    with (tail (columns_of p)).
  change ("id" :: tail (columns_of p)) with (columns_of p).
  unfold Buffer.RowFactory. destruct (bsize <? 0); [discriminate|].
  match goal with
  | |- context [Upload.bind ?m ?k ?st0] =>
      assert (Hk : keeps (shaped tableName (map pgKey (columns_of p))) (Upload.bind m k));
      [|specialize (Hk st0); destruct (Upload.bind m k st0)]
  end.
  - apply keeps_bind; [apply keeps_forLines|]. intros _.
    apply keeps_bind; [apply keeps_uploadRows|].
    intros [e|]; [apply keeps_return|apply keeps_ret].
  - intros [= _ _ _ <-]. apply Hk. split; [|split; [constructor|reflexivity]].
    simpl. rewrite length_map. reflexivity.
  - intros [= _ _ _ <-]. apply Hk. split; [|split; [constructor|reflexivity]].
    simpl. rewrite length_map. reflexivity.
  - discriminate.
Qed.

Lemma uploadPG_sends_well_shaped_rows_witness :
  n_uploadPG (n_parser 5) (sink_failing_copy 1) 2
    = Upload.Returned Upload.AtFlush 0 (Some copy_failed)
        (final_state (n_uploadPG (n_parser 5) (sink_failing_copy 1) 2)) /\
  Forall (well_shaped "accesslogs" ["id"; "n"])
         (Upload.copies (final_state (n_uploadPG (n_parser 5) (sink_failing_copy 1) 2))).
Proof.
  assert (H : n_uploadPG (n_parser 5) (sink_failing_copy 1) 2
              = Upload.Returned Upload.AtFlush 0 (Some copy_failed)
                  (final_state (n_uploadPG (n_parser 5) (sink_failing_copy 1) 2)))
    by (vm_compute; reflexivity).
  split; [exact H|].
  exact (uploadPG_sends_well_shaped_rows Date_IsZero0 Time_IsZero0 (fun s => s) n_GuessType
           (fun s => s) "accesslogs" (n_parser 5) (sink_failing_copy 1) 2 _ _ _ _ H).
Defined.

(** ** The status lines of a file *)

Section StatusFacts.
Import Upload.

Variable Date_IsZero : Date -> bool.
Variable Time_IsZero : Time -> bool.
Variable Unidecode : string -> string.
Variable GuessType : string -> Kind.
Variable pgKey : string -> string.
Variable tableName : string.
Variable TrimSpace : string -> string.

Local Abbreviation uploadPG :=
  (Upload.uploadPG Date_IsZero Time_IsZero Unidecode GuessType pgKey tableName).
Local Abbreviation uploadFilePG :=
  (Upload.uploadFilePG Date_IsZero Time_IsZero Unidecode GuessType pgKey tableName TrimSpace).

Lemma uploadPG_result_shape p c bsize s n err st :
  uploadPG p c bsize = Returned s n err st ->
  match ParseHeader p with
  | Some e => stderr st = [LogErrBuildingParser e] /\ err = Some e
  | None => stderr st = [] /\ (err = None -> n = count64 (length (Lines p)))
  end.
Proof.
  unfold Upload.uploadPG. destruct (ParseHeader p) as [e|].
  { intros [= _ _ <- <-]. split; reflexivity. }
  destruct (Acquire c) as [e|].
  { intros [= _ _ <- <-]. split; [reflexivity|discriminate]. }
  change (if negb (HasGmtTime p) then "gmttime" :: FieldNames p else FieldNames p)
    with (tail (columns_of p)).
  change ("id" :: tail (columns_of p)) with (columns_of p).
  unfold Buffer.RowFactory. destruct (bsize <? 0); [discriminate|].
  match goal with
  | |- context [bind ?m ?k ?st0] =>
      assert (Hk : keeps (shaped tableName (map pgKey (columns_of p))) (bind m k));
      [|assert (Hc : counts (fun n => Nat.iter (length (Lines p)) (fun n => add64 n 1) n)
                            (bind m k));
        [|specialize (Hk st0); specialize (Hc st0); destruct (bind m k st0)]]
  end.
  - apply keeps_bind; [apply keeps_forLines|]. intros _.
    apply keeps_bind; [apply keeps_uploadRows|].
    intros [e|]; [apply keeps_return|apply keeps_ret].
  - apply (counts_bind _ (fun n => n)); [apply counts_forLines|]. intros _.
    apply (counts_bind (fun n => n) (fun n => n)); [apply counts_uploadRows|].
    intros [e|]; [apply counts_return; discriminate|apply counts_ret].
  - intros [= _ <- _ <-].
    destruct Hk as (_ & _ & Hs).
    { split; [|split; [constructor|reflexivity]]. simpl. rewrite length_map. reflexivity. }
    split; [exact Hs|]. intros _. exact Hc.
  - intros [= _ <- <- <-].
    destruct Hk as (_ & _ & Hs).
    { split; [|split; [constructor|reflexivity]]. simpl. rewrite length_map. reflexivity. }
    split; [exact Hs|]. intros ->. destruct Hc as (_ & _ & Hc). contradiction.
  - discriminate.
Qed.

(** X14: what uploadFilePG writes for a file.  A file that cannot be
    opened gets the one line of its open error.  A file that opens
    gets the "Uploading" line first and one status line last: the
    success line, with the number of lines the parser delivered, when
    uploadPG returns no error, and otherwise the error line, preceded
    by the parser's own line when the error is that of the header. *)
Theorem uploadFilePG_status_lines (f : FileEnv) (bsize : Z) (l : list log_line) :
  uploadFilePG f bsize = Ret l ->
  match Open f with
  | Some e => l = [LogErrOpening (TrimSpace (fname f)) e]
  | None =>
      l = [LogUploading (TrimSpace (fname f));
           LogSuccess (TrimSpace (fname f)) (count64 (length (Lines (parser_ f))))] \/
      (exists e, l = [LogUploading (TrimSpace (fname f));
                      LogErrUploading (TrimSpace (fname f)) e] /\
                 ParseHeader (parser_ f) = None) \/
      (exists e, l = [LogUploading (TrimSpace (fname f)); LogErrBuildingParser e;
                      LogErrUploading (TrimSpace (fname f)) e] /\
                 ParseHeader (parser_ f) = Some e)
  end.
Proof.
  unfold Upload.uploadFilePG. destruct (Open f) as [e|]; [intros [= <-]; reflexivity|].
  destruct (uploadPG (parser_ f) (sink_ f) bsize) as [s n err st|] eqn:E; [|discriminate].
  intros [= <-]. apply uploadPG_result_shape in E.
  destruct (ParseHeader (parser_ f)) as [e|].
  - destruct E as [-> ->]. right. right. exists e. split; reflexivity.
  - destruct E as [-> Hn]. destruct err as [e|].
    + right. left. exists e. split; reflexivity.
    + left. rewrite (Hn eq_refl). reflexivity.
Qed.

End StatusFacts.

Lemma uploadFilePG_status_lines_witness :
  Upload.uploadFilePG Date_IsZero0 Time_IsZero0 (fun s => s) n_GuessType (fun s => s)
    "accesslogs" (fun s => s)
    {| Upload.fname := "d.log"; Upload.Open := None;
       Upload.parser_ := n_parser 2; Upload.sink_ := good_sink |} 5000
    = Ret [Upload.LogUploading "d.log"; Upload.LogSuccess "d.log" 2] /\
  ([Upload.LogUploading "d.log"; Upload.LogSuccess "d.log" 2]
     = [Upload.LogUploading "d.log"; Upload.LogSuccess "d.log" (count64 2)] \/
   (exists e, [Upload.LogUploading "d.log"; Upload.LogSuccess "d.log" 2]
                = [Upload.LogUploading "d.log"; Upload.LogErrUploading "d.log" e] /\
              Upload.ParseHeader (n_parser 2) = None) \/
   (exists e, [Upload.LogUploading "d.log"; Upload.LogSuccess "d.log" 2]
                = [Upload.LogUploading "d.log"; Upload.LogErrBuildingParser e;
                   Upload.LogErrUploading "d.log" e] /\
              Upload.ParseHeader (n_parser 2) = Some e)).
Proof.
  assert (H : Upload.uploadFilePG Date_IsZero0 Time_IsZero0 (fun s => s) n_GuessType
                (fun s => s) "accesslogs" (fun s => s)
                {| Upload.fname := "d.log"; Upload.Open := None;
                   Upload.parser_ := n_parser 2; Upload.sink_ := good_sink |} 5000
              = Ret [Upload.LogUploading "d.log"; Upload.LogSuccess "d.log" 2])
    by (vm_compute; reflexivity).
  split; [exact H|].
  exact (uploadFilePG_status_lines Date_IsZero0 Time_IsZero0 (fun s => s) n_GuessType
           (fun s => s) "accesslogs" (fun s => s) _ 5000 _ H).
Defined.

(** * Failures *)

(** ** Failures of the collaborators during an upload *)

Lemma copies_ok_snoc c l cc :
  copies_ok c l -> Upload.cc_err cc = None -> Upload.CopyFrom_err c (length l) = None ->
  copies_ok c (l ++ [cc]).
Proof.
  intros Hl He Hc k x Hk.
  destruct (decide (k < length l)%nat) as [Hlt|Hge].
  - rewrite lookup_app_l in Hk by exact Hlt. exact (Hl k x Hk).
  - rewrite lookup_app_r in Hk by lia.
    destruct (k - length l)%nat as [|d] eqn:Ed; simpl in Hk; [|discriminate].
    injection Hk as <-. replace k with (length l) by lia. split; assumption.
Qed.

Lemma uuids_ok_S c n : uuids_ok c n -> snd (Upload.NewV1 c n) = None -> uuids_ok c (S n).
Proof.
  intros Hn He k Hk. destruct (decide (k = n)) as [->|Hne]; [exact He|].
  apply Hn. lia.
Qed.

Section FailureFacts.
Import Buffer Upload.

Variable Date_IsZero : Date -> bool.
Variable Time_IsZero : Time -> bool.
Variable Unidecode : string -> string.
Variable tableName : string.
Variable c : Sink.
Variable curFieldNames columnNames : list string.
Variable types : gmap string Kind.
Variables B N : Z.
Variable K : Prop.

Hypothesis HB : 1 <= B.
Hypothesis HN : 0 <= N.

Local Abbreviation fits :=
  (converts Date_IsZero Time_IsZero Unidecode (types_at types)).
Local Abbreviation addField := (Upload.addField Date_IsZero Time_IsZero Unidecode c types).
Local Abbreviation addFields := (Upload.addFields Date_IsZero Time_IsZero Unidecode c types).
Local Abbreviation uploadRows := (Upload.uploadRows tableName c columnNames).
Local Abbreviation perLine :=
  (Upload.perLine Date_IsZero Time_IsZero Unidecode tableName c
                  curFieldNames columnNames types).
Local Abbreviation forLines :=
  (Upload.forLines Date_IsZero Time_IsZero Unidecode tableName c
                   curFieldNames columnNames types).
Local Abbreviation between nl := (upload_state c B N nl (all_complete N)).
Local Abbreviation filling nl i j := (upload_state c B N nl (last_partial N i j)).

Lemma hoare_bind {A C} P (m : M A) Q1 (k : A -> M C) Q R :
  hoare K P m Q1 R -> (forall a, hoare K (Q1 a) (k a) Q R) -> hoare K P (bind m k) Q R.
Proof.
  intros Hm Hk st HP. unfold bind. specialize (Hm st HP).
  destruct (m st) as [a st'| |]; [apply Hk; exact Hm|exact Hm|exact Hm].
Qed.

Lemma hoare_pre {A} (P P' : State -> Prop) (m : M A) Q R :
  (forall st, P' st -> P st) -> hoare K P m Q R -> hoare K P' m Q R.
Proof. intros HPP Hm st HP. apply Hm, HPP, HP. Qed.

Lemma hoare_ret {A} (a : A) (Q : A -> State -> Prop) R : hoare K (Q a) (ret a) Q R.
Proof. intros st HQ. exact HQ. Qed.

(** A checkout: a fresh row at the end of the batch, or "full". *)
Lemma hoare_factory_GetRow nl :
  hoare K (between nl) factory_GetRow
    (fun x st' =>
       (exists i, x = (Some i, false) /\ filling nl i O st') \/
       (x = (None, true) /\ between nl st' /\
        B <= Z.of_nat (length (rows (factory st')))))
    (early c).
Proof.
  intros st (Hmax & Hnb & Hlen & Hrows & Hpool & Hcalls & Hnl).
  unfold factory_GetRow, bind, get, lift, GetRow.
  destruct (Z.ltb_spec (Z.of_nat (length (rows (factory st)))) (maxSize (factory st)))
    as [Hlt|Hge].
  - assert (Hshape : forall x p,
               Z.of_nat (rcap x) = N ->
               Forall (fun row => Z.of_nat (rcap row) = N) p ->
               filling nl (length (rows (factory st))) O
                 (set_factory (set_pool (set_rows (factory st)
                                           (rows (factory st) ++ [reslice0 x])) p) st)).
    { intros x p Hx Hp. unfold upload_state. simpl.
      split; [exact Hmax|]. split; [exact Hnb|].
      split; [rewrite length_app; simpl; lia|].
      split; [|split; [exact Hp|split; [exact Hcalls|exact Hnl]]].
      exists (rows (factory st)), (reslice0 x).
      split; [reflexivity|]. split; [reflexivity|]. split; [exact Hrows|].
      split; [reflexivity|exact Hx]. }
    unfold pool_Get, pool_New. destruct (pool (factory st)) as [|x q] eqn:Ep.
    + destruct (Z.ltb_spec (nbFields (factory st)) 0); [lia|].
      simpl. left. eexists. split; [reflexivity|].
      apply (Hshape {| fields := []; rcap := Z.to_nat (nbFields (factory st)) |} []);
        [simpl; lia|constructor].
    + apply Forall_cons in Hpool as [Hx Hq].
      simpl. left. eexists. split; [reflexivity|]. apply Hshape; assumption.
  - simpl. right. split; [reflexivity|]. split; [|lia].
    exact (conj Hmax (conj Hnb (conj Hlen (conj Hrows (conj Hpool (conj Hcalls Hnl)))))).
Qed.

(** A flush: nothing to send, or one CopyFrom call; when the call
    fails its error is handed back and the batch is left as it was. *)
Lemma hoare_uploadRows nl :
  hoare K (between nl) uploadRows
    (fun err st' =>
       (err = None /\ between nl st' /\ rows (factory st') = []) \/
       (exists e, err = Some e /\ failed_at c AtFlush e st'))
    (early c).
Proof.
  intros st (Hmax & Hnb & Hlen & Hrows & Hpool & [Hu Hc] & Hnl).
  unfold Upload.uploadRows. unfold bind at 1. unfold get at 1. unfold Len.
  destruct (Z.eqb_spec (Z.of_nat (length (rows (factory st)))) 0) as [Hz|Hnz].
  - simpl. left. split; [reflexivity|].
    split; [exact (conj Hmax (conj Hnb (conj Hlen (conj Hrows (conj Hpool
                     (conj (conj Hu Hc) Hnl))))))|].
    destruct (rows (factory st)); [reflexivity|simpl in Hz; lia].
  - rewrite GetSource_ok.
    2:{ eapply Forall_impl; [exact Hrows|]. intros row [Hl _]. rewrite Hnb. exact Hl. }
    unfold conn_CopyFrom, bind, lift, get, modify, ret.
    rewrite pgx_stream_skips_first_row.
    destruct (CopyFrom_err c (length (copies st))) as [e|] eqn:Ee; simpl.
    + right. exists e. split; [reflexivity|]. split; [exact Hu|].
      eexists _, _. split; [reflexivity|]. split; [exact Hc|]. split; [reflexivity|exact Ee].
    + left. split; [reflexivity|]. split; [|reflexivity].
      unfold upload_state. simpl.
      split; [exact Hmax|]. split; [exact Hnb|]. split; [lia|].
      split; [constructor|].
      split.
      { apply fold_put_caps; [|exact Hpool].
        eapply Forall_impl; [exact Hrows|]. intros row [_ Hcap]. exact Hcap. }
      split; [|exact Hnl]. split; [exact Hu|].
      apply copies_ok_snoc; [exact Hc|reflexivity|exact Ee].
Qed.

(** AddField on the row that is being filled, while it has room. *)
Lemma hoare_row_AddField nl i j v :
  Z.of_nat j < N ->
  hoare K (filling nl i j) (row_AddField (Some i) v)
    (fun err st' => err = None /\ filling nl i (S j) st')
    (early c).
Proof.
  intros Hj st (Hmax & Hnb & Hlen & (pre & row & Hrows & Hi & Hpre & Hfl & Hcap)
                & Hpool & Hcalls & Hnl).
  unfold row_AddField, bind, get, modify, ret.
  assert (Hlook : rows (factory st) !! i = Some row).
  { rewrite Hrows, <- Hi. apply list_lookup_middle. reflexivity. }
  rewrite Hlook. unfold AddField.
  destruct (Nat.ltb_spec (length (fields row)) (rcap row)) as [_|Hge]; [|lia].
  simpl. split; [reflexivity|]. unfold upload_state. simpl.
  rewrite Hrows, insert_app_r_alt by lia. rewrite Hi, Nat.sub_diag. simpl.
  split; [exact Hmax|]. split; [exact Hnb|].
  split; [rewrite Hrows in Hlen; rewrite length_app in *; simpl in *; lia|].
  split; [|split; [exact Hpool|split; [exact Hcalls|exact Hnl]]].
  eexists pre, _. split; [reflexivity|]. split; [exact Hi|]. split; [exact Hpre|].
  simpl. rewrite length_app. simpl. split; [lia|exact Hcap].
Qed.

(** uuid.NewV1: one more call, which succeeded or is the failure. *)
Lemma hoare_uuid_NewV1 nl shape :
  hoare K (upload_state c B N nl shape) (uuid_NewV1 c)
    (fun x st' =>
       (snd x = None /\ upload_state c B N nl shape st') \/
       (exists e, snd x = Some e /\ failed_at c AtIdGen e st'))
    (early c).
Proof.
  intros st (Hmax & Hnb & Hlen & Hshape & Hpool & [Hu Hc] & Hnl).
  unfold uuid_NewV1, bind, get, modify, ret. simpl.
  destruct (snd (NewV1 c (uuids st))) as [e|] eqn:Ee.
  - right. exists e. split; [reflexivity|]. split; [exact Hc|].
    exists (uuids st). split; [reflexivity|]. split; [exact Hu|exact Ee].
  - left. split; [reflexivity|]. unfold upload_state. simpl.
    refine (conj Hmax (conj Hnb (conj Hlen (conj Hshape (conj Hpool
              (conj (conj _ Hc) Hnl)))))).
    apply uuids_ok_S; assumption.
Qed.

Lemma hoare_addField nl i j name line :
  Z.of_nat j < N ->
  K \/ (String.eqb name "id" = false ->
        Conv.pgConvert Date_IsZero Time_IsZero Unidecode (types_at types name) (line name)
          <> Panic) ->
  hoare K (filling nl i j) (addField name (Some i) line)
    (fun _ st' => filling nl i (S j) st')
    (early c).
Proof.
  intros Hj Hconv. unfold Upload.addField.
  destruct (String.eqb name "id").
  - eapply hoare_bind; [apply hoare_uuid_NewV1|].
    intros [uuid err]. simpl. destruct err as [e|].
    + intros st [[He _]|(e' & He & Hf)]; [discriminate|].
      injection He as <-. simpl. split; [reflexivity|]. exists e. split; [reflexivity|exact Hf].
    + eapply hoare_pre; [|eapply hoare_bind; [apply (hoare_row_AddField nl i j _ Hj)|]].
      { intros st [[_ H]|(e' & He & _)]; [exact H|discriminate]. }
      intros err. destruct err as [e|].
      * intros st [He _]. discriminate.
      * intros st [_ H]. exact H.
  - destruct (Conv.pgConvert _ _ _ _ _) as [v|] eqn:Ev.
    + eapply hoare_bind; [apply (hoare_ret v (fun _ st => filling nl i j st))|].
      intros v'. simpl.
      eapply hoare_bind; [apply (hoare_row_AddField nl i j _ Hj)|].
      intros err. destruct err as [e|].
      * intros st [He _]. discriminate.
      * intros st [_ H]. exact H.
    + intros st _. unfold bind, lift.
      destruct Hconv as [HK|Hc]; [exact HK|]. exfalso. apply Hc; reflexivity.
Qed.

Lemma hoare_addFields nl i names j line :
  (Z.of_nat j + Z.of_nat (length names) <= N) ->
  K \/ fits names line ->
  hoare K (filling nl i j) (addFields names (Some i) line)
    (fun _ st' => filling nl i (j + length names) st')
    (early c).
Proof.
  revert j. induction names as [|name names IH]; intros j Hlen Hconv.
  - simpl. intros st H. rewrite Nat.add_0_r. exact H.
  - simpl length in *. simpl Upload.addFields.
    eapply hoare_bind.
    + apply (hoare_addField nl i j name line); [lia|].
      destruct Hconv as [HK|Hf]; [left; exact HK|right].
      apply Forall_cons in Hf as [Hname _]. exact Hname.
    + intros u. replace (j + S (length names))%nat with (S j + length names)%nat by lia.
      apply IH; [lia|].
      destruct Hconv as [HK|Hf]; [left; exact HK|right].
      apply Forall_cons in Hf as [_ Hrest]. exact Hrest.
Qed.

Lemma filling_complete nl i st :
  filling nl i (Z.to_nat N) st -> between nl st.
Proof.
  intros (Hmax & Hnb & Hlen & (pre & row & Hrows & Hi & Hpre & Hfl & Hcap)
          & Hpool & Hcalls & Hnl).
  refine (conj Hmax (conj Hnb (conj Hlen (conj _ (conj Hpool (conj Hcalls Hnl)))))).
  unfold all_complete. rewrite Hrows. apply Forall_app. split; [exact Hpre|].
  constructor; [|constructor]. split; [lia|exact Hcap].
Qed.

Lemma filling_counts nl i j st :
  filling nl i j st ->
  filling (add64 nl 1) i j (set_nbLines (add64 (nbLines st) 1) st).
Proof.
  intros (Hmax & Hnb & Hlen & Hshape & Hpool & Hcalls & Hnl).
  unfold upload_state. simpl. rewrite Hnl.
  exact (conj Hmax (conj Hnb (conj Hlen (conj Hshape (conj Hpool (conj Hcalls eq_refl)))))).
Qed.

(** One line up to the filling of its row: a row is checked out,
    after a flush when the batch is full, and the line is counted;
    [k] is what is done with the row. *)
Lemma hoare_perLine_then {A} nl (k : option nat -> M A) (Q : A -> State -> Prop) :
  (forall i, hoare K (filling (add64 nl 1) i O) (k (Some i)) Q (early c)) ->
  hoare K (between nl)
    (bind factory_GetRow
       (fun '(row, full) =>
          bind (if full : bool then
                  bind uploadRows
                    (fun err =>
                       match err with
                       | Some e => return_ AtFlush 0 (Some e)
                       | None => bind factory_GetRow (fun x => ret (fst x))
                       end)
                else ret row)
            (fun row =>
               bind (modify (fun st => set_nbLines (add64 (nbLines st) 1) st))
                 (fun _ => k row))))
    Q (early c).
Proof.
  intros Hk.
  eapply hoare_bind; [apply hoare_factory_GetRow|].
  intros [row full].
  eapply hoare_bind
    with (Q1 := fun row st => exists i, row = Some i /\ filling nl i O st).
  - destruct full.
    + eapply hoare_pre
        with (P := fun st => between nl st /\ B <= Z.of_nat (length (rows (factory st)))).
      { intros st [(i & Hx & _)|(_ & H1 & H2)]; [discriminate|split; assumption]. }
      eapply hoare_bind with (Q1 := fun err st =>
           (err = None /\ between nl st /\ rows (factory st) = []) \/
           (exists e, err = Some e /\ failed_at c AtFlush e st)).
      { eapply hoare_pre; [|apply hoare_uploadRows]. intros st [H _]. exact H. }
      intros err. destruct err as [e|].
      * intros st [[He _]|(e' & He & Hf)]; [discriminate|].
        injection He as <-. simpl. split; [reflexivity|].
        exists e. split; [reflexivity|exact Hf].
      * eapply hoare_pre with (P := fun st => between nl st /\ rows (factory st) = []).
        { intros st [(_ & H1 & H2)|(e' & He & _)]; [split; assumption|discriminate]. }
        eapply hoare_bind with (Q1 := fun x st =>
             exists i, fst x = Some i /\ filling nl i O st).
        { intros st [Hst Hrows]. pose proof (hoare_factory_GetRow nl st Hst) as H.
          destruct (factory_GetRow st) as [x st'| |] eqn:Eg; [|exact H|exact H].
          destruct H as [(i & -> & Hf)|(-> & _ & Hfull)]; [exists i; split; [reflexivity|exact Hf]|].
          exfalso. revert Eg. unfold factory_GetRow, bind, get, lift, GetRow.
          rewrite Hrows. simpl length.
          destruct Hst as (Hmax & _). rewrite Hmax.
          destruct (Z.ltb_spec (Z.of_nat 0) B); [|lia].
          destruct (pool_Get (factory st)) as [[r q]|]; simpl; intros [=]. }
        intros x st (i & Hx & Hf). simpl. exists i. split; [exact Hx|exact Hf].
    + intros st [(i & Hx & Hf)|(Hx & _)]; [|discriminate].
      injection Hx as ->. simpl. exists i. split; [reflexivity|exact Hf].
  - intros row'. simpl.
    eapply hoare_bind with (Q1 := fun _ st =>
         exists i, row' = Some i /\ filling (add64 nl 1) i O st).
    + intros st (i & Hr & Hf). simpl. exists i. split; [exact Hr|].
      apply filling_counts. exact Hf.
    + intros u st (i & -> & Hf). exact (Hk i st Hf).
Qed.

(** One line: it is counted and its row is filled, or the flush or
    the generation of its id failed. *)
Lemma hoare_perLine nl line :
  N = Z.of_nat (length curFieldNames) ->
  K \/ fits curFieldNames line ->
  hoare K (between nl) (perLine line) (fun _ st' => between (add64 nl 1) st') (early c).
Proof.
  intros HNn Hconv. unfold Upload.perLine. apply hoare_perLine_then.
  intros i st Hf.
  pose proof (hoare_addFields (add64 nl 1) i curFieldNames O line ltac:(lia) Hconv st Hf)
    as H.
  destruct (Upload.addFields _ _ _ _ _ _ _ _ st) as [u st'| |]; [|exact H|exact H].
  apply (filling_complete _ i). simpl in H.
  replace (Z.to_nat N) with (length curFieldNames) by lia. exact H.
Qed.

Lemma hoare_forLines lines k :
  N = Z.of_nat (length curFieldNames) ->
  K \/ Forall (fits curFieldNames) lines ->
  hoare K (between (count64 k)) (forLines lines)
    (fun _ st' => between (count64 (k + length lines)) st') (early c).
Proof.
  intros HNn. revert k. induction lines as [|line lines IH]; intros k Hconv.
  - simpl. intros st H. rewrite Nat.add_0_r. exact H.
  - simpl Upload.forLines. eapply hoare_bind.
    + apply hoare_perLine; [exact HNn|].
      destruct Hconv as [HK|Hf]; [left; exact HK|right].
      apply Forall_cons in Hf as [Hl _]. exact Hl.
    + intros u. simpl length.
      replace (k + S (length lines))%nat with (S k + length lines)%nat by lia.
      change (add64 (count64 k) 1) with (count64 (S k)).
      apply IH.
      destruct Hconv as [HK|Hf]; [left; exact HK|right].
      apply Forall_cons in Hf as [_ Hr]. exact Hr.
Qed.

End FailureFacts.

(** ** A value that does not fit its column *)

Section MismatchFacts.
Import Buffer Upload.

Variable Date_IsZero : Date -> bool.
Variable Time_IsZero : Time -> bool.
Variable Unidecode : string -> string.
Variable tableName : string.
Variable c : Sink.
Variable curFieldNames columnNames : list string.
Variable types : gmap string Kind.
Variables B N : Z.

Hypothesis HB : 1 <= B.
Hypothesis HN : N = Z.of_nat (length curFieldNames).

Local Abbreviation bad :=
  (mismatch Date_IsZero Time_IsZero Unidecode (types_at types)).
Local Abbreviation addFields := (Upload.addFields Date_IsZero Time_IsZero Unidecode c types).
Local Abbreviation perLine :=
  (Upload.perLine Date_IsZero Time_IsZero Unidecode tableName c
                  curFieldNames columnNames types).
Local Abbreviation forLines :=
  (Upload.forLines Date_IsZero Time_IsZero Unidecode tableName c
                   curFieldNames columnNames types).
Local Abbreviation between nl := (upload_state c B N nl (all_complete N)).
Local Abbreviation filling nl i j := (upload_state c B N nl (last_partial N i j)).

Lemma addField_mismatch name row line st :
  String.eqb name "id" = false ->
  Conv.pgConvert Date_IsZero Time_IsZero Unidecode (types_at types name) (line name)
    = Panic ->
  Upload.addField Date_IsZero Time_IsZero Unidecode c types name row line st = Crash.
Proof.
  intros Hn Hp. unfold Upload.addField. rewrite Hn. unfold bind, lift. rewrite Hp.
  reflexivity.
Qed.

(** The row of a line with such a value is never filled: the values
    before it are appended, or the generation of the id fails, and
    then the conversion panics. *)
Lemma hoare_addFields_mismatch nl i names j line :
  Z.of_nat j + Z.of_nat (length names) <= N ->
  bad names line ->
  hoare True (filling nl i j) (addFields names (Some i) line)
    (fun _ _ => False) (early c).
Proof.
  intros Hlen Hbad. revert j Hlen.
  induction Hbad as [name names [Hn Hp]|name names Hbad IH]; intros j Hlen;
    simpl length in Hlen; simpl Upload.addFields.
  - intros st _. unfold bind. rewrite addField_mismatch by assumption. exact I.
  - eapply hoare_bind.
    + apply (hoare_addField Date_IsZero Time_IsZero Unidecode c types B N True nl i j);
        [lia|left; exact I].
    + intros u. apply IH. lia.
Qed.

Lemma hoare_perLine_mismatch nl line :
  bad curFieldNames line ->
  hoare True (between nl) (perLine line) (fun _ _ => False) (early c).
Proof.
  intros Hbad. unfold Upload.perLine. apply hoare_perLine_then; [exact HB|lia|].
  intros i. apply hoare_addFields_mismatch; [lia|exact Hbad].
Qed.

Lemma hoare_forLines_mismatch lines k :
  Exists (bad curFieldNames) lines ->
  hoare True (between (count64 k)) (forLines lines) (fun _ _ => False) (early c).
Proof.
  intros Hbad. revert k.
  induction Hbad as [line lines Hline|line lines Hbad IH]; intros k;
    simpl Upload.forLines.
  - eapply hoare_bind; [apply hoare_perLine_mismatch; exact Hline|].
    intros u st [].
  - eapply hoare_bind.
    + apply (hoare_perLine Date_IsZero Time_IsZero Unidecode tableName c curFieldNames
               columnNames types B N True HB ltac:(lia) (count64 k) line HN).
      left. exact I.
    + intros u. change (add64 (count64 k) 1) with (count64 (S k)). apply IH.
Qed.

End MismatchFacts.

(** When no call of uuid.NewV1 and no call of CopyFrom fails, no
    return statement before the last is reached. *)
Lemma early_needs_a_failure c s n err st :
  (forall k, snd (Upload.NewV1 c k) = None) ->
  (forall k, Upload.CopyFrom_err c k = None) ->
  ~ early c s n err st.
Proof.
  intros Hu Hc (_ & e & _ & Hf).
  destruct s; simpl in Hf; try contradiction.
  - destruct Hf as (_ & pre & cc & _ & _ & _ & He). rewrite Hc in He. discriminate.
  - destruct Hf as (_ & k & _ & _ & He). rewrite Hu in He. discriminate.
  - destruct Hf as (_ & pre & cc & _ & _ & _ & He). rewrite Hc in He. discriminate.
Qed.

Section OutcomeFacts.
Import Buffer Upload.

Variable Date_IsZero : Date -> bool.
Variable Time_IsZero : Time -> bool.
Variable Unidecode : string -> string.
Variable GuessType : string -> Kind.
Variable pgKey : string -> string.
Variable tableName : string.

Local Abbreviation uploadPG :=
  (Upload.uploadPG Date_IsZero Time_IsZero Unidecode GuessType pgKey tableName).
Local Abbreviation fits p :=
  (Forall (converts Date_IsZero Time_IsZero Unidecode GuessType (columns_of p)) (Lines p)).

(** What a call of uploadPG with a batch size of at least 1 comes to,
    once the header is parsed and the connection acquired.  It panics
    only if [K], which a conversion that panics has to imply; the last
    statement is reached only when no call failed; any other return
    carries 0 and the error of the call that failed. *)
Lemma uploadPG_outcomes (K : Prop) p c bsize :
  1 <= bsize -> ParseHeader p = None -> Acquire c = None ->
  K \/ fits p ->
  match uploadPG p c bsize with
  | Returned s n err st =>
      (s = AtEnd /\ calls_ok c st /\ n = count64 (length (Lines p)) /\
       err = Exec_VACUUM c) \/
      early c s n err st
  | Crashed => K
  end.
Proof.
  intros HB Hh Ha Hfit.
  unfold Upload.uploadPG. rewrite Hh, Ha.
  change (if negb (HasGmtTime p) then "gmttime" :: FieldNames p else FieldNames p)
    with (tail (columns_of p)).
  change ("id" :: tail (columns_of p)) with (columns_of p).
  set (names := columns_of p) in *.
  set (types := fold_left (fun m name => <[name := GuessType name]> m) names ∅).
  set (N := Z.of_nat (length names)).
  unfold RowFactory. destruct (Z.ltb_spec bsize 0) as [|_]; [lia|].
  set (f0 := {| pool := []; maxSize := bsize; nbFields := N; rows := [] |}).
  assert (Hfit' : K \/ Forall (converts Date_IsZero Time_IsZero Unidecode
                                 (types_at types) names) (Lines p)).
  { destruct Hfit as [HK|Hfit]; [left; exact HK|right].
    eapply Forall_impl; [exact Hfit|]. intros line Hline. unfold converts in *.
    apply Forall_forall. intros name Hin. subst types.
    rewrite types_at_guess by exact Hin.
    exact (proj1 (Forall_forall _ _) Hline name Hin). }
  assert (H0 : upload_state c bsize N (count64 0) (all_complete N) (init_state f0 [])).
  { unfold upload_state, calls_ok, uuids_ok, copies_ok. simpl.
    split; [reflexivity|]. split; [reflexivity|]. split; [lia|].
    split; [constructor|]. split; [constructor|].
    split; [|reflexivity]. split; [intros k Hk; lia|intros k cc Hk; discriminate Hk]. }
  match goal with
  | |- context [bind ?m ?k ?st0] =>
      assert (Hbody : hoare K (upload_state c bsize N (count64 0) (all_complete N))
                        (bind m k)
                        (fun _ st => upload_state c bsize N
                                       (count64 (0 + length (Lines p))) (all_complete N) st)
                        (early c))
  end.
  { apply hoare_bind
      with (Q1 := fun _ st => upload_state c bsize N (count64 (0 + length (Lines p)))
                                (all_complete N) st).
    - apply (hoare_forLines Date_IsZero Time_IsZero Unidecode tableName c names
               (map pgKey names) types bsize N K); [exact HB|lia|reflexivity|exact Hfit'].
    - intros u. eapply hoare_bind.
      + apply (hoare_uploadRows tableName c (map pgKey names) bsize N K HB).
      + intros [e|].
        * intros st [[He _]|(e' & He & Hf)]; [discriminate|].
          injection He as <-. split; [reflexivity|]. exists e. split; [reflexivity|exact Hf].
        * intros st [(_ & H & _)|(e' & He & _)]; [exact H|discriminate]. }
  specialize (Hbody _ H0).
  match goal with
  | |- context [bind ?m ?k ?st0] => destruct (bind m k st0) as [u st| |]
  end.
  - left. destruct Hbody as (_ & _ & _ & _ & _ & Hcalls & Hnl).
    split; [reflexivity|]. split; [exact Hcalls|]. split; [exact Hnl|reflexivity].
  - right. exact Hbody.
  - exact Hbody.
Qed.

(** With a value that does not fit its column the last statement is
    never reached: uploadPG panics, unless a call fails before the
    value is converted. *)
Lemma uploadPG_mismatch p c bsize :
  1 <= bsize -> ParseHeader p = None -> Acquire c = None ->
  Exists (mismatch Date_IsZero Time_IsZero Unidecode GuessType (columns_of p)) (Lines p) ->
  match uploadPG p c bsize with
  | Returned s n err st => early c s n err st
  | Crashed => True
  end.
Proof.
  intros HB Hh Ha Hbad.
  unfold Upload.uploadPG. rewrite Hh, Ha.
  change (if negb (HasGmtTime p) then "gmttime" :: FieldNames p else FieldNames p)
    with (tail (columns_of p)).
  change ("id" :: tail (columns_of p)) with (columns_of p).
  set (names := columns_of p) in *.
  set (types := fold_left (fun m name => <[name := GuessType name]> m) names ∅).
  set (N := Z.of_nat (length names)).
  unfold RowFactory. destruct (Z.ltb_spec bsize 0) as [|_]; [lia|].
  set (f0 := {| pool := []; maxSize := bsize; nbFields := N; rows := [] |}).
  assert (Hbad' : Exists (mismatch Date_IsZero Time_IsZero Unidecode
                            (types_at types) names) (Lines p)).
  { eapply Exists_impl; [exact Hbad|]. intros line Hline. unfold mismatch in *.
    apply Exists_exists in Hline as (name & Hin & Hname).
    apply Exists_exists. exists name. split; [exact Hin|].
    subst types. rewrite types_at_guess by exact Hin. exact Hname. }
  assert (H0 : upload_state c bsize N (count64 0) (all_complete N) (init_state f0 [])).
  { unfold upload_state, calls_ok, uuids_ok, copies_ok. simpl.
    split; [reflexivity|]. split; [reflexivity|]. split; [lia|].
    split; [constructor|]. split; [constructor|].
    split; [|reflexivity]. split; [intros k Hk; lia|intros k cc Hk; discriminate Hk]. }
  match goal with
  | |- context [bind ?m ?k ?st0] =>
      assert (Hbody : hoare True (upload_state c bsize N (count64 0) (all_complete N))
                        (bind m k) (fun _ _ => False) (early c))
  end.
  { eapply hoare_bind.
    - apply (hoare_forLines_mismatch Date_IsZero Time_IsZero Unidecode tableName c names
               (map pgKey names) types bsize N HB eq_refl (Lines p) O Hbad').
    - intros u st []. }
  specialize (Hbody _ H0).
  match goal with
  | |- context [bind ?m ?k ?st0] => destruct (bind m k st0) as [u st| |]
  end.
  - contradiction.
  - exact Hbody.
  - exact I.
Qed.

End OutcomeFacts.

(** ** The line count returned by uploadPG, and the call that failed *)

Section ReturnFacts.
Import Buffer Upload.

Variable Date_IsZero : Date -> bool.
Variable Time_IsZero : Time -> bool.
Variable Unidecode : string -> string.
Variable GuessType : string -> Kind.
Variable pgKey : string -> string.
Variable tableName : string.

Local Abbreviation uploadPG :=
  (Upload.uploadPG Date_IsZero Time_IsZero Unidecode GuessType pgKey tableName).

(** Every return statement but the last returns 0 and an error, and
    the last one the count of the lines read with the result of
    VACUUM: this holds for any batch size. *)
Lemma uploadPG_return_statements p c bsize s n err st :
  uploadPG p c bsize = Returned s n err st ->
  (s <> AtEnd -> n = 0 /\ err <> None) /\
  (s = AtEnd ->
   n = nbLines st /\ n = count64 (length (Lines p)) /\ err = Exec_VACUUM c).
Proof.
  unfold Upload.uploadPG.
  destruct (ParseHeader p) as [e|].
  { intros [= <- <- <- <-]. split; [intros _; split; [reflexivity|discriminate]|discriminate]. }
  destruct (Acquire c) as [e|].
  { intros [= <- <- <- <-]. split; [intros _; split; [reflexivity|discriminate]|discriminate]. }
  destruct (RowFactory bsize _) as [f|]; [|discriminate].
  match goal with
  | |- context [bind ?m ?k ?st0] =>
      assert (Hc : counts (fun n => Nat.iter (length (Lines p)) (fun n => add64 n 1) n)
                          (bind m k))
  end.
  { apply (counts_bind _ (fun n => n)); [apply counts_forLines|]. intros _.
    apply (counts_bind (fun n => n) (fun n => n)); [apply counts_uploadRows|].
    intros [e|]; [apply counts_return; discriminate|apply counts_ret]. }
  match goal with
  | |- context [bind ?m ?k ?st0] => specialize (Hc st0); destruct (bind m k st0)
  end.
  - intros [= <- <- <- <-]. split; [congruence|]. intros _.
    split; [reflexivity|]. split; [exact Hc|reflexivity].
  - intros [= <- <- <- <-]. destruct Hc as (Hs & Hn & He).
    split; [intros _; split; assumption|contradiction].
  - discriminate.
Qed.


End ReturnFacts.



(** ** Errors of one file and the rest of the run *)

Section RunFacts.

Variable Date_IsZero : Date -> bool.
Variable Time_IsZero : Time -> bool.
Variable Unidecode : string -> string.
Variable GuessType : string -> Kind.
Variable pgKey : string -> string.
Variable tableName : string.
Variable TrimSpace : string -> string.
Variable indexName : string.
Variable receiver : nat -> nat.

Local Abbreviation uploadPG :=
  (Upload.uploadPG Date_IsZero Time_IsZero Unidecode GuessType pgKey tableName).
Local Abbreviation uploadFilePG :=
  (Upload.uploadFilePG Date_IsZero Time_IsZero Unidecode GuessType pgKey tableName TrimSpace).
Local Abbreviation injector :=
  (Upload.injector Date_IsZero Time_IsZero Unidecode GuessType pgKey tableName TrimSpace).
Local Abbreviation uploadFilesPG :=
  (Upload.uploadFilesPG Date_IsZero Time_IsZero Unidecode GuessType pgKey tableName TrimSpace).
Local Abbreviation push2pgCmd :=
  (Upload.push2pgCmd Date_IsZero Time_IsZero Unidecode GuessType pgKey tableName TrimSpace).
Local Abbreviation file_converts :=
  (file_converts Date_IsZero Time_IsZero Unidecode GuessType).
Local Abbreviation forLines := (ES.forLines indexName receiver).
Local Abbreviation forFiles := (ES.forFiles TrimSpace indexName receiver).
Local Abbreviation push2esCmd := (ES.push2esCmd TrimSpace indexName receiver).

(** What uploadFilePG writes for a file that cannot be opened, whose
    header does not parse, or for which no connection is acquired. *)
Lemma uploadFilePG_open_error f bsize e :
  Upload.Open f = Some e ->
  uploadFilePG f bsize = Ret [Upload.LogErrOpening (TrimSpace (Upload.fname f)) e].
Proof. intros H. unfold Upload.uploadFilePG. rewrite H. reflexivity. Qed.

Lemma uploadFilePG_header_error f bsize e :
  Upload.Open f = None -> Upload.ParseHeader (Upload.parser_ f) = Some e ->
  uploadFilePG f bsize
    = Ret [Upload.LogUploading (TrimSpace (Upload.fname f));
           Upload.LogErrBuildingParser e;
           Upload.LogErrUploading (TrimSpace (Upload.fname f)) e].
Proof.
  intros Ho Hh. unfold Upload.uploadFilePG, Upload.uploadPG. rewrite Ho, Hh. reflexivity.
Qed.

Lemma uploadFilePG_acquire_error f bsize e :
  Upload.Open f = None -> Upload.ParseHeader (Upload.parser_ f) = None ->
  Upload.Acquire (Upload.sink_ f) = Some e ->
  uploadFilePG f bsize
    = Ret [Upload.LogUploading (TrimSpace (Upload.fname f));
           Upload.LogErrUploading (TrimSpace (Upload.fname f)) e].
Proof.
  intros Ho Hh Ha. unfold Upload.uploadFilePG, Upload.uploadPG. rewrite Ho, Hh, Ha.
  reflexivity.
Qed.

(** A file that opens, with a batch size of at least 1 and values
    that fit their columns: uploadPG returns, and the last line
    written is the success line, or the error line with the error of
    the call that failed. *)
Lemma uploadFilePG_outcome f bsize :
  1 <= bsize -> Upload.Open f = None ->
  Upload.ParseHeader (Upload.parser_ f) = None ->
  Upload.Acquire (Upload.sink_ f) = None ->
  file_converts f ->
  exists s n err st,
    uploadPG (Upload.parser_ f) (Upload.sink_ f) bsize = Upload.Returned s n err st /\
    uploadFilePG f bsize
      = Ret [Upload.LogUploading (TrimSpace (Upload.fname f));
             match err with
             | None => Upload.LogSuccess (TrimSpace (Upload.fname f)) n
             | Some e => Upload.LogErrUploading (TrimSpace (Upload.fname f)) e
             end] /\
    ((s = Upload.AtEnd /\ calls_ok (Upload.sink_ f) st /\
      n = count64 (length (Upload.Lines (Upload.parser_ f))) /\
      err = Upload.Exec_VACUUM (Upload.sink_ f)) \/
     (n = 0 /\ exists e, err = Some e /\ failed_at (Upload.sink_ f) s e st)).
Proof.
  intros HB Ho Hh Ha Hfit.
  pose proof (uploadPG_outcomes Date_IsZero Time_IsZero Unidecode GuessType pgKey
                tableName False (Upload.parser_ f) (Upload.sink_ f) bsize HB Hh Ha
                (or_intror Hfit)) as H.
  unfold Upload.uploadFilePG. rewrite Ho.
  destruct (uploadPG (Upload.parser_ f) (Upload.sink_ f) bsize) as [s n err st|] eqn:E;
    [|contradiction].
  pose proof (uploadPG_result_shape Date_IsZero Time_IsZero Unidecode GuessType pgKey
                tableName _ _ _ _ _ _ _ E) as Hs.
  rewrite Hh in Hs. destruct Hs as [Hs _].
  exists s, n, err, st. split; [reflexivity|]. split; [rewrite Hs; reflexivity|exact H].
Qed.

(** uploadFilePG panics only when uploadPG does. *)
Lemma uploadFilePG_no_panic f bsize :
  1 <= bsize -> file_converts f -> exists l, uploadFilePG f bsize = Ret l.
Proof.
  intros HB Hfit.
  destruct (Upload.Open f) as [e|] eqn:Ho.
  { eexists. apply (uploadFilePG_open_error f bsize e Ho). }
  destruct (Upload.ParseHeader (Upload.parser_ f)) as [e|] eqn:Hh.
  { eexists. apply (uploadFilePG_header_error f bsize e Ho Hh). }
  destruct (Upload.Acquire (Upload.sink_ f)) as [e|] eqn:Ha.
  { eexists. apply (uploadFilePG_acquire_error f bsize e Ho Hh Ha). }
  destruct (uploadFilePG_outcome f bsize HB Ho Hh Ha Hfit) as (s & n & err & st & _ & H & _).
  eexists. exact H.
Qed.

Lemma injector_step f rest bsize log l :
  uploadFilePG f bsize = Ret l ->
  injector (f :: rest) bsize log = injector rest bsize (log ++ l).
Proof. intros H. simpl. rewrite H. reflexivity. Qed.

Lemma injector_completes fnames bsize log :
  1 <= bsize -> Forall file_converts fnames ->
  exists logs,
    Forall2 (fun f l => uploadFilePG f bsize = Ret l) fnames logs /\
    injector fnames bsize log = Completed (log ++ concat logs)%list.
Proof.
  intros HB. revert log. induction fnames as [|f fnames IH]; intros log Hall.
  - exists []. split; [constructor|]. simpl. rewrite app_nil_r. reflexivity.
  - apply Forall_cons in Hall as [Hf Hrest].
    destruct (uploadFilePG_no_panic f bsize HB Hf) as [l Hl].
    destruct (IH (log ++ l)%list Hrest) as (logs & Hlogs & Hrun).
    exists (l :: logs). split; [constructor; assumption|].
    rewrite (injector_step _ _ _ _ _ Hl), Hrun. simpl. rewrite app_assoc. reflexivity.
Qed.

(** The loop over the files has no call of [fatal]. *)
Lemma injector_no_exit fnames bsize lg e log :
  injector fnames bsize lg <> Exited e log.
Proof.
  revert lg. induction fnames as [|g l IH]; intros lg; simpl; [discriminate|].
  destruct (Upload.uploadFilePG _ _ _ _ _ _ _ g _); [apply IH|discriminate].
Qed.

(** push2pg is stopped by [fatal] only before the first file. *)
Lemma push2pgCmd_exit cfg e log :
  push2pgCmd cfg = Exited e log ->
  log = [] /\
  (Upload.filenames cfg = [] \/ TrimSpace (Upload.dbURI cfg) = "" \/
   Upload.ParseConnectionString cfg = Some e \/ Upload.NewConnPool cfg = Some e).
Proof.
  unfold Upload.push2pgCmd, fatal.
  destruct (Upload.filenames cfg) as [|f fs] eqn:Ef; simpl.
  { intros [= <- <-]. split; [reflexivity|]. left. reflexivity. }
  destruct (TrimSpace (Upload.dbURI cfg)) as [|ch u] eqn:Eu; simpl.
  { intros [= <- <-]. split; [reflexivity|]. right. left. reflexivity. }
  destruct (Upload.ParseConnectionString cfg) as [e1|].
  { intros [= <- <-]. split; [reflexivity|]. right. right. left. reflexivity. }
  destruct (Upload.NewConnPool cfg) as [e2|].
  { intros [= <- <-]. split; [reflexivity|]. right. right. right. reflexivity. }
  unfold Upload.uploadFilesPG. intros H. exfalso. eapply injector_no_exit, H.
Qed.

(** push2pg dies of a panic only with a negative batch size or a
    value that does not fit its column. *)
Lemma push2pgCmd_panic cfg log :
  push2pgCmd cfg = Panicked log ->
  ~ (0 <= Upload.batchsize cfg /\ Forall file_converts (Upload.filenames cfg)).
Proof.
  intros Hrun [HB Hfit]. revert Hrun. unfold Upload.push2pgCmd, fatal.
  destruct (length (Upload.filenames cfg) =? 0)%nat; [discriminate|].
  destruct (String.length (TrimSpace (Upload.dbURI cfg)) =? 0)%nat; [discriminate|].
  destruct (Upload.ParseConnectionString cfg); [discriminate|].
  destruct (Upload.NewConnPool cfg); [discriminate|].
  unfold Upload.uploadFilesPG.
  destruct (injector_completes (Upload.filenames cfg)
              (if Upload.batchsize cfg =? 0 then 5000 else Upload.batchsize cfg) [])
    as (logs & _ & ->); [|exact Hfit|discriminate].
  destruct (Z.eqb_spec (Upload.batchsize cfg) 0); lia.
Qed.

(** The loop over the lines of push2es is never stopped, and writes
    nothing to the error stream. *)
Lemma forLines_continues lines i st :
  exists i' st', forLines lines i st = inr (i', st') /\ ES.stderr st' = ES.stderr st.
Proof.
  revert i st. induction lines as [|l lines IH]; intros i st; simpl ES.forLines.
  - exists i, st. split; reflexivity.
  - destruct (add64 i 1 >=? 1000).
    + unfold ES.proc_Flush, fatal.
      match goal with |- context [ES.forLines _ _ lines 0 ?s] =>
        destruct (IH 0 s) as (i' & st' & Hrun & Hs) end.
      exists i', st'. split; [exact Hrun|exact Hs].
    + match goal with |- context [ES.forLines _ _ lines ?j ?s] =>
        destruct (IH j s) as (i' & st' & Hrun & Hs) end.
      exists i', st'. split; [exact Hrun|exact Hs].
Qed.

(** The loop over the files of push2es always runs to the end of the
    list, and the error stream gets the line of every file that could
    not be read. *)
Lemma forFiles_completes fnames st :
  exists st',
    forFiles fnames st = Completed st' /\
    ES.stderr st' = (ES.stderr st ++ omap (es_error_line TrimSpace) fnames)%list.
Proof.
  revert st. induction fnames as [|f fnames IH]; intros st.
  - exists st. split; [reflexivity|]. simpl. rewrite app_nil_r. reflexivity.
  - simpl ES.forFiles. unfold es_error_line at 1. simpl omap.
    destruct (ES.Open f) as [e|].
    { destruct (IH (ES.log (Upload.LogErrOpening (TrimSpace (ES.fname f)) e) st))
        as (st' & Hrun & Hs).
      exists st'. split; [exact Hrun|]. rewrite Hs. simpl. rewrite <- app_assoc. reflexivity. }
    destruct (ES.ParseHeader f) as [e|].
    { destruct (IH (ES.log (Upload.LogErrBuildingParser e) st)) as (st' & Hrun & Hs).
      exists st'. split; [exact Hrun|]. rewrite Hs. simpl. rewrite <- app_assoc. reflexivity. }
    destruct (forLines_continues (ES.Lines f) 0 st) as (i' & st1 & Hrun1 & Hs1).
    rewrite Hrun1. destruct (i' >? 0).
    + unfold ES.proc_Flush, fatal.
      match goal with |- context [ES.forFiles _ _ _ fnames ?s] =>
        destruct (IH s) as (st' & Hrun & Hs) end.
      exists st'. split; [exact Hrun|]. rewrite Hs. simpl. rewrite Hs1. reflexivity.
    + destruct (IH st1) as (st' & Hrun & Hs).
      exists st'. split; [exact Hrun|]. rewrite Hs, Hs1. reflexivity.
Qed.

(** push2es is stopped by [fatal] only before the first file. *)
Lemma push2esCmd_exit cfg e st :
  push2esCmd cfg = Exited e st ->
  st = ES.no_proc /\
  (ES.fnames cfg = [] \/ ES.NewClient cfg = Some e \/
   ES.ElasticsearchVersion cfg = Some e \/ ES.BulkProcessor_Do cfg = Some e).
Proof.
  unfold ES.push2esCmd, fatal.
  destruct (Nat.eqb_spec (length (ES.fnames cfg)) 0) as [Hl|Hl].
  { intros [= <- <-]. split; [reflexivity|]. left.
    destruct (ES.fnames cfg); [reflexivity|discriminate]. }
  destruct (ES.NewClient cfg) as [e1|].
  { intros [= <- <-]. split; [reflexivity|]. right. left. reflexivity. }
  destruct (ES.ElasticsearchVersion cfg) as [e2|].
  { intros [= <- <-]. split; [reflexivity|]. right. right. left. reflexivity. }
  destruct (ES.BulkProcessor_Do cfg) as [e3|].
  { intros [= <- <-]. split; [reflexivity|]. right. right. right. reflexivity. }
  destruct (forFiles_completes (ES.fnames cfg) ES.proc_init) as (st' & Hrun & _).
  rewrite Hrun. discriminate.
Qed.

Lemma push2esCmd_no_panic cfg st : push2esCmd cfg <> Panicked st.
Proof.
  unfold ES.push2esCmd, fatal.
  destruct (length (ES.fnames cfg) =? 0)%nat; [discriminate|].
  destruct (ES.NewClient cfg); [discriminate|].
  destruct (ES.ElasticsearchVersion cfg); [discriminate|].
  destruct (ES.BulkProcessor_Do cfg); [discriminate|].
  destruct (forFiles_completes (ES.fnames cfg) ES.proc_init) as (st' & Hrun & _).
  rewrite Hrun. discriminate.
Qed.

(** The two ways in which the upload of a file panics: a negative
    batch size, and a value that does not fit its column when no call
    fails before it is converted. *)
Lemma uploadFilePG_negative_batch f bsize :
  bsize < 0 -> Upload.Open f = None ->
  Upload.ParseHeader (Upload.parser_ f) = None ->
  Upload.Acquire (Upload.sink_ f) = None ->
  uploadFilePG f bsize = Panic.
Proof.
  intros HB Ho Hh Ha. unfold Upload.uploadFilePG, Upload.uploadPG, Buffer.RowFactory.
  rewrite Ho, Hh, Ha. destruct (Z.ltb_spec bsize 0); [reflexivity|lia].
Qed.

Lemma uploadFilePG_mismatch f bsize :
  1 <= bsize -> Upload.Open f = None ->
  Upload.ParseHeader (Upload.parser_ f) = None ->
  Upload.Acquire (Upload.sink_ f) = None ->
  (forall k, snd (Upload.NewV1 (Upload.sink_ f) k) = None) ->
  (forall k, Upload.CopyFrom_err (Upload.sink_ f) k = None) ->
  Exists (mismatch Date_IsZero Time_IsZero Unidecode GuessType
            (columns_of (Upload.parser_ f))) (Upload.Lines (Upload.parser_ f)) ->
  uploadFilePG f bsize = Panic.
Proof.
  intros HB Ho Hh Ha Hu Hc Hbad.
  pose proof (uploadPG_mismatch Date_IsZero Time_IsZero Unidecode GuessType pgKey
                tableName _ _ bsize HB Hh Ha Hbad) as H.
  unfold Upload.uploadFilePG. rewrite Ho.
  destruct (uploadPG (Upload.parser_ f) (Upload.sink_ f) bsize) as [s n err st|];
    [|reflexivity].
  exfalso. exact (early_needs_a_failure _ s n err st Hu Hc H).
Qed.

Lemma injector_panic f rest bsize log :
  uploadFilePG f bsize = Panic ->
  injector (f :: rest) bsize log
    = Panicked (log ++ [Upload.LogUploading (TrimSpace (Upload.fname f))])%list.
Proof. intros H. simpl. rewrite H. reflexivity. Qed.

(** Past the checks, with a batch size that is not negative and
    values that fit, push2pg goes through all its files. *)
Lemma push2pgCmd_completes cfg :
  Upload.filenames cfg <> [] -> TrimSpace (Upload.dbURI cfg) <> "" ->
  Upload.ParseConnectionString cfg = None -> Upload.NewConnPool cfg = None ->
  0 <= Upload.batchsize cfg -> Forall file_converts (Upload.filenames cfg) ->
  exists logs,
    Forall2 (fun f l => uploadFilePG f (if Upload.batchsize cfg =? 0 then 5000
                                        else Upload.batchsize cfg) = Ret l)
            (Upload.filenames cfg) logs /\
    push2pgCmd cfg = Completed (concat logs).
Proof.
  intros Hf Hu Hp Hn HB Hfit. unfold Upload.push2pgCmd, fatal.
  destruct (Nat.eqb_spec (length (Upload.filenames cfg)) 0) as [Hl|_].
  { destruct (Upload.filenames cfg); [contradiction|discriminate]. }
  destruct (Nat.eqb_spec (String.length (TrimSpace (Upload.dbURI cfg))) 0) as [Hl|_].
  { destruct (TrimSpace (Upload.dbURI cfg)); [contradiction|discriminate]. }
  rewrite Hp, Hn. unfold Upload.uploadFilesPG.
  apply (injector_completes (Upload.filenames cfg) _ []); [|exact Hfit].
  destruct (Z.eqb_spec (Upload.batchsize cfg) 0); lia.
Qed.


End RunFacts.

Lemma pg_files_convert :
  Forall (file_converts Date_IsZero0 Time_IsZero0 (fun s => s) n_GuessType) pg_files.
Proof.
  unfold pg_files, file_converts. repeat constructor; simpl; try discriminate.
  all: try (intros _; discriminate).
Qed.


